(** * nnet/layers.py: padding policies, synaptic noise and per-example experts

    A shallow embedding of the layer wrappers of [nnet/layers.py].  The
    wrappers are translated definition by definition; the tensor runtime
    they call into ([torch], [torch.nn.functional]) is modelled by a small
    library of tensors given as a size and an element function, over a
    scalar type whose arithmetic obeys no algebraic law, and over product
    kernels whose accumulation is left to the runtime (so that every
    equation proved below also holds for floating-point scalars, whatever
    the order in which a kernel adds up its products). *)

From Stdlib Require Import String.
From Stdlib Require Import ZArith List Bool Lia.
From Stdlib Require Import SpecFloat.
Import ListNotations.
Open Scope Z_scope.

Set Implicit Arguments.

(** ** Python exceptions and the error monad *)

Inductive exn : Type :=
| TypeError
| IndexError
| RuntimeError
| AssertionError
| ValueError.

Inductive res (A : Type) : Type :=
| Ok (a : A)
| Raise (e : exn).

Arguments Ok {A} a.
Arguments Raise {A} e.

Definition bind {A B : Type} (m : res A) (k : A -> res B) : res B :=
  match m with
  | Ok a => k a
  | Raise e => Raise e
  end.

Notation "x <- m ;; k" := (bind m (fun x => k))
  (at level 61, m at next level, right associativity).
Notation "m ;;; k" := (bind m (fun _ => k))
  (at level 61, right associativity).

Definition raises {A : Type} (m : res A) : Prop := exists e, m = Raise e.

Definition is_ok {A : Type} (m : res A) : bool :=
  match m with Ok _ => true | Raise _ => false end.

Fixpoint mapM {A B : Type} (f : A -> res B) (l : list A) : res (list B) :=
  match l with
  | [] => Ok []
  | a :: l' => b <- f a ;; bs <- mapM f l' ;; Ok (b :: bs)
  end.

(** [assert c] *)
Definition py_assert (c : bool) : res unit :=
  if c then Ok tt else Raise AssertionError.

(** ** Python sequences *)

Definition zlen {A : Type} (l : list A) : Z := Z.of_nat (length l).

Definition znth {A : Type} (d : A) (l : list A) (i : Z) : A :=
  nth (Z.to_nat i) l d.

(** [range(n)] *)
Definition zrange (n : Z) : list Z := map Z.of_nat (seq 0 (Z.to_nat n)).

(** [range(start, stop, step)] for the positive steps the source uses. *)
Definition py_range (start stop step : Z) : list Z :=
  map (fun q => start + q * step) (zrange ((stop - start + step - 1) / step)).

(** [l[i]]: negative indices count from the end, anything else out of range
    raises [IndexError]. *)
Definition py_getitem {A : Type} (l : list A) (i : Z) : res A :=
  let j := if i <? 0 then i + zlen l else i in
  if (0 <=? j) && (j <? zlen l) then
    match nth_error l (Z.to_nat j) with
    | Some a => Ok a
    | None => Raise IndexError
    end
  else Raise IndexError.

(** [x in [...]] on strings *)
Definition py_in (x : string) (l : list string) : bool :=
  existsb (String.eqb x) l.

(** An argument that is either one int or a tuple of ints
    ([kernel_size], [stride], [dilation], ...). *)
Inductive int_or_tuple : Type :=
| Int (n : Z)
| Tuple (l : list Z).

(** torch's [_single], [_pair], [_triple]: an int is repeated, a tuple is
    kept as it is. *)
Definition ntuple (n : nat) (x : int_or_tuple) : list Z :=
  match x with
  | Int v => repeat v n
  | Tuple l => l
  end.

Definition list_eqb (a b : list Z) : bool :=
  if list_eq_dec Z.eq_dec a b then true else false.

(** ** Scalars

    The element type of floating tensors.  No law is assumed of the
    operations: in particular addition need not be associative. *)

Class Scalar (R : Type) : Type := {
  rzero : R;
  radd : R -> R -> R;
  rmul : R -> R -> R;
  rdiv : R -> R -> R;
  rofZ : Z -> R;
  rnonzero : R -> bool
}.

(** ** Tensors *)

Record Tensor (A : Type) : Type := mkTensor {
  size : list Z;
  get : list Z -> A
}.

Arguments mkTensor {A} size get.

Definition rank {A : Type} (t : Tensor A) : nat := length (size t).

(** [idx] addresses an element of a tensor of size [sz]. *)
Fixpoint in_bounds (sz idx : list Z) : bool :=
  match sz, idx with
  | [], [] => true
  | s :: sz', i :: idx' => (0 <=? i) && (i <? s) && in_bounds sz' idx'
  | _, _ => false
  end.

(** All the indices of a tensor of size [sz], in row-major order. *)
Fixpoint all_indices (sz : list Z) : list (list Z) :=
  match sz with
  | [] => [[]]
  | s :: sz' => flat_map (fun i => map (cons i) (all_indices sz')) (zrange s)
  end.

Fixpoint map2 {A B C : Type} (f : A -> B -> C) (la : list A) (lb : list B) : list C :=
  match la, lb with
  | a :: la', b :: lb' => f a b :: map2 f la' lb'
  | _, _ => []
  end.

(** Broadcasting of two sizes, aligned on the last dimension. *)
Fixpoint bshape_rev (a b : list Z) : res (list Z) :=
  match a, b with
  | [], _ => Ok b
  | _, [] => Ok a
  | x :: a', y :: b' =>
      r <- bshape_rev a' b' ;;
      if x =? y then Ok (x :: r)
      else if x =? 1 then Ok (y :: r)
      else if y =? 1 then Ok (x :: r)
      else Raise RuntimeError
  end.

Definition broadcast_shapes (a b : list Z) : res (list Z) :=
  r <- bshape_rev (rev a) (rev b) ;; Ok (rev r).

(** The index into an operand of size [sz] for the index [idx] of the
    broadcast result: the last dimensions, and 0 along a dimension of
    size 1. *)
Definition bidx (sz idx : list Z) : list Z :=
  map2 (fun s i => if s =? 1 then 0 else i) sz
       (skipn (length idx - length sz) idx).

Section Torch.

Context {R : Type} {scalar : Scalar R}.

Definition rsum (l : list R) : R := fold_left radd l rzero.

(** ** The tensor runtime *)

(** Elementwise binary operation with broadcasting. *)
Definition binop (f : R -> R -> R) (a b : Tensor R) : res (Tensor R) :=
  sz <- broadcast_shapes (size a) (size b) ;;
  Ok (mkTensor sz (fun idx => f (get a (bidx (size a) idx)) (get b (bidx (size b) idx)))).

Definition tadd : Tensor R -> Tensor R -> res (Tensor R) := binop radd.
Definition tmul : Tensor R -> Tensor R -> res (Tensor R) := binop rmul.
Definition tdiv : Tensor R -> Tensor R -> res (Tensor R) := binop rdiv.

(** [m * t] for a Python number [m]. *)
Definition scale (m : R) (t : Tensor R) : Tensor R :=
  mkTensor (size t) (fun idx => rmul m (get t idx)).

(** [t[i]] along the first dimension. *)
Definition select0 {A : Type} (i : Z) (t : Tensor A) : Tensor A :=
  mkTensor (tl (size t)) (fun idx => get t (i :: idx)).

(** [torch.stack(ts, dim=0)] *)
Definition stack (ts : list (Tensor R)) : res (Tensor R) :=
  match ts with
  | [] => Raise RuntimeError
  | t0 :: _ =>
      if forallb (fun t => list_eqb (size t) (size t0)) ts then
        Ok (mkTensor (zlen ts :: size t0)
              (fun idx => match idx with
                          | [] => rzero
                          | i :: idx' => get (znth t0 ts i) idx'
                          end))
      else Raise RuntimeError
  end.

(** [torch.stack] on a Python list whose items may be [None]. *)
Definition stack_py (ts : list (option (Tensor R))) : res (Tensor R) :=
  ts' <- mapM (fun o => match o with
                        | Some t => Ok t
                        | None => Raise TypeError
                        end) ts ;;
  stack ts'.

Definition insert_at {A : Type} (n : nat) (a : A) (l : list A) : list A :=
  firstn n l ++ a :: skipn n l.

Definition remove_at {A : Type} (n : nat) (l : list A) : list A :=
  firstn n l ++ skipn (S n) l.

(** [t.unsqueeze(dim)], for a dimension counted from the front. *)
Definition unsqueeze {A : Type} (dim : nat) (t : Tensor A) : res (Tensor A) :=
  if (dim <=? rank t)%nat then
    Ok (mkTensor (insert_at dim 1 (size t))
          (fun idx => get t (remove_at dim idx)))
  else Raise IndexError.

(** [t.squeeze(dim)]: removes the dimension when its size is 1, and leaves
    the tensor as it is otherwise. *)
Definition squeeze {A : Type} (dim : nat) (t : Tensor A) : res (Tensor A) :=
  if (dim <? rank t)%nat then
    if nth dim (size t) 0 =? 1 then
      Ok (mkTensor (remove_at dim (size t))
            (fun idx => get t (insert_at dim 0 idx)))
    else Ok t
  else Raise IndexError.

Definition swap_at {A : Type} (d : A) (i j : nat) (l : list A) : list A :=
  map (fun k => if Nat.eqb k i then nth j l d
                else if Nat.eqb k j then nth i l d
                else nth k l d) (seq 0 (length l)).

(** [t.transpose(dim0, dim1)] *)
Definition transpose {A : Type} (dim0 dim1 : nat) (t : Tensor A) : res (Tensor A) :=
  if (dim0 <? rank t)%nat && (dim1 <? rank t)%nat then
    Ok (mkTensor (swap_at 0 dim0 dim1 (size t))
          (fun idx => get t (swap_at 0 dim0 dim1 idx)))
  else Raise IndexError.

Definition batch_dims (sz : list Z) : list Z := firstn (length sz - 2) sz.
Definition mat_rows (sz : list Z) : Z := nth (length sz - 2) sz 0.
Definition mat_cols (sz : list Z) : Z := nth (length sz - 1) sz 0.

(** ** The product kernels

    One element of a matrix product is a sum of products of a row and a
    column.  How that sum is accumulated and rounded (the order of the
    additions, fused multiply-add, a wider accumulator) is the business of
    the runtime's kernel, and the batched product behind [matmul] and the
    kernel behind [F.linear] need not agree on it.  A kernel is given the
    sizes of its two operands, the index of the element it computes, the
    row and the column; [linear_dot] also receives the element of the bias,
    which it may fold into the sum. *)

Class Kernels : Type := {
  matmul_dot : list Z -> list Z -> list Z -> list R -> list R -> R;
  linear_dot : list Z -> list Z -> list Z -> list R -> list R -> option R -> R
}.

Context {kernels : Kernels}.

(** The operands of a batched matrix product of two tensors of rank at
    least 2: the batch dimensions broadcast, and the element (i, j) of a
    matrix of the batch is made of row [i] of the left matrix and column
    [j] of the right one. *)
Definition bmm_operands (a b : Tensor R) : res (Tensor (list R * list R)) :=
  let ba := batch_dims (size a) in
  let bb := batch_dims (size b) in
  if mat_cols (size a) =? mat_rows (size b) then
    bs <- broadcast_shapes ba bb ;;
    Ok (mkTensor (bs ++ [mat_rows (size a); mat_cols (size b)])
          (fun idx =>
             let bi := firstn (length idx - 2) idx in
             let i := nth (length idx - 2) idx 0 in
             let j := nth (length idx - 1) idx 0 in
             (map (fun k => get a (bidx ba bi ++ [i; k])) (zrange (mat_cols (size a))),
              map (fun k => get b (bidx bb bi ++ [k; j])) (zrange (mat_cols (size a))))))
  else Raise RuntimeError.

(** The operands of [a.matmul(b)]: a vector operand is promoted to a matrix
    and the added dimension is removed from the result. *)
Definition matmul_operands (a b : Tensor R) : res (Tensor (list R * list R)) :=
  if (rank a =? 0)%nat || (rank b =? 0)%nat then Raise RuntimeError
  else
    a2 <- (if (rank a =? 1)%nat then unsqueeze 0 a else Ok a) ;;
    b2 <- (if (rank b =? 1)%nat then unsqueeze 1 b else Ok b) ;;
    c <- bmm_operands a2 b2 ;;
    c1 <- (if (rank a =? 1)%nat then squeeze (rank c - 2) c else Ok c) ;;
    if (rank b =? 1)%nat then squeeze (rank c1 - 1) c1 else Ok c1.

(** [a.matmul(b)] *)
Definition matmul (a b : Tensor R) : res (Tensor R) :=
  c <- matmul_operands a b ;;
  Ok (mkTensor (size c)
        (fun idx => matmul_dot (size a) (size b) idx (fst (get c idx)) (snd (get c idx)))).

(** [F.linear(x, weight, bias)]: [x @ weight.T + bias], computed by one
    kernel. *)
Definition F_linear (x weight : Tensor R) (bias : option (Tensor R)) : res (Tensor R) :=
  wt <- transpose 0 1 weight ;;
  c <- matmul_operands x wt ;;
  match bias with
  | None =>
      Ok (mkTensor (size c)
            (fun idx => linear_dot (size x) (size weight) idx
                          (fst (get c idx)) (snd (get c idx)) None))
  | Some b =>
      sz <- broadcast_shapes (size c) (size b) ;;
      Ok (mkTensor sz
            (fun idx =>
               let ops := get c (bidx (size c) idx) in
               linear_dot (size x) (size weight) idx (fst ops) (snd ops)
                 (Some (get b (bidx (size b) idx)))))
  end.

(** ** [torch.nn.Linear] *)

Record nn_Linear : Type := mk_nn_Linear {
  nnl_weight : Tensor R;
  nnl_bias : option (Tensor R)
}.

(** The constructor: a weight of size (out, in) and, with [bias=True], a
    bias of size (out); their initial values are whatever the initializer
    drew. *)
Definition nn_Linear_init (in_features out_features : Z) (bias : bool)
    (w0 b0 : list Z -> R) : nn_Linear :=
  {| nnl_weight := mkTensor [out_features; in_features] w0;
     nnl_bias := if bias then Some (mkTensor [out_features] b0) else None |}.

Definition nn_Linear_forward (self : nn_Linear) (x : Tensor R) : res (Tensor R) :=
  F_linear x (nnl_weight self) (nnl_bias self).

(** ** [SwitchLinear] *)

Record SwitchLinear : Type := mkSwitchLinear {
  num_experts : Z;
  experts : list nn_Linear
}.

Definition SwitchLinear_init (num_experts in_features out_features : Z) (bias : bool)
    (init : Z -> (list Z -> R) * (list Z -> R)) : SwitchLinear :=
  {| num_experts := num_experts;
     experts := map (fun k => nn_Linear_init in_features out_features bias
                                (fst (init k)) (snd (init k)))
                    (zrange num_experts) |}.

Definition SwitchLinear_forward (self : SwitchLinear) (x : Tensor R) (indices : list Z)
    : res (Tensor R) :=
  (* Create Weight (N, Di, Do) *)
  weight <- mapM (fun index => e <- py_getitem (experts self) index ;; Ok (nnl_weight e))
                 indices ;;
  weight <- stack weight ;;
  (* Create Bias (N, Do) *)
  bias <- mapM (fun index => e <- py_getitem (experts self) index ;; Ok (nnl_bias e))
               indices ;;
  bias <- stack_py bias ;;
  (* Unsqueeze Input (N, 1, Di) *)
  x <- unsqueeze 1 x ;;
  (* Compute Output (N, 1, Do) *)
  wt <- transpose 1 2 weight ;;
  x <- matmul x wt ;;
  (* Squeeze Output (N, Do) *)
  x <- squeeze 1 x ;;
  (* Add Bias *)
  tadd x bias.

(** ** Noise sampling and the distributed broadcast

    [torch.normal] is a generator: from its state and the requested size it
    yields the values of a fresh tensor of that size and its next state.
    [torch.distributed.broadcast(t, 0)] overwrites [t] in place with the
    values held by participant 0, whatever they are. *)

Class Sampler : Type := {
  rng : Type;
  normal_values : rng -> list Z -> (list Z -> R) * rng;
  broadcast_values : Tensor R -> list Z -> R
}.

Context {sampler : Sampler}.

(** [torch.normal(mean=0.0, std=1.0, size=sz, ...)] *)
Definition torch_normal (sz : list Z) (g : rng) : Tensor R * rng :=
  let (v, g') := normal_values g sz in (mkTensor sz v, g').

(** [torch.distributed.broadcast(t, 0)] *)
Definition dist_broadcast (t : Tensor R) : Tensor R :=
  mkTensor (size t) (broadcast_values t).

(** [self.vn_std * self.noise]: a magnitude that was never set is [None]. *)
Definition vn_scale (vn_std : option R) (noise : Tensor R) : res (Tensor R) :=
  match vn_std with
  | Some m => Ok (scale m noise)
  | None => Raise TypeError
  end.

(** ** [Linear] *)

Record Linear : Type := mkLinear {
  lin_super : nn_Linear;
  lin_noise : option (Tensor R);
  lin_vn_std : option R;
  lin_training : bool
}.

Definition Linear_init (in_features out_features : Z) (bias : bool)
    (w0 b0 : list Z -> R) : Linear :=
  {| lin_super := nn_Linear_init in_features out_features bias w0 b0;
     (* Variational Noise *)
     lin_noise := None;
     lin_vn_std := None;
     lin_training := true |}.

Definition Linear_with_noise (self : Linear) (noise : option (Tensor R))
    (vn_std : option R) : Linear :=
  {| lin_super := lin_super self;
     lin_noise := noise;
     lin_vn_std := vn_std;
     lin_training := lin_training self |}.

(** [self.train(mode)]; [self.eval()] is [self.train(False)]. *)
Definition Linear_train (self : Linear) (mode : bool) : Linear :=
  {| lin_super := lin_super self;
     lin_noise := lin_noise self;
     lin_vn_std := lin_vn_std self;
     lin_training := mode |}.

(** The layer with another weight tensor. *)
Definition Linear_with_weight (self : Linear) (weight : Tensor R) : Linear :=
  {| lin_super := {| nnl_weight := weight; nnl_bias := nnl_bias (lin_super self) |};
     lin_noise := lin_noise self;
     lin_vn_std := lin_vn_std self;
     lin_training := lin_training self |}.

Definition Linear_init_vn (self : Linear) (vn_std : R) : Linear :=
  (* Variational Noise *)
  Linear_with_noise self (lin_noise self) (Some vn_std).

Definition Linear_sample_synaptic_noise (self : Linear) (distributed : bool) (g : rng)
    : Linear * rng :=
  (* Sample Noise *)
  let (noise, g') := torch_normal (size (nnl_weight (lin_super self))) g in
  (* Broadcast Noise *)
  let noise := if distributed then dist_broadcast noise else noise in
  (Linear_with_noise self (Some noise) (lin_vn_std self), g').

Definition Linear_forward (self : Linear) (x : Tensor R) : res (Tensor R) :=
  (* Weight *)
  let weight := nnl_weight (lin_super self) in
  (* Add Noise *)
  weight <- match lin_noise self with
            | Some noise =>
                if lin_training self then
                  n <- vn_scale (lin_vn_std self) noise ;; tadd weight n
                else Ok weight
            | None => Ok weight
            end ;;
  (* Apply Weight *)
  F_linear x weight (nnl_bias (lin_super self)).

(** ** [Embedding] *)

(** [F.embedding(input, weight, ...)] with [max_norm=None]: the rows of
    [weight] selected by the indices of [input]. *)
Definition F_embedding (input : Tensor Z) (weight : Tensor R) : res (Tensor R) :=
  match size weight with
  | [v; e] =>
      if forallb (fun idx => (0 <=? get input idx) && (get input idx <? v))
                 (all_indices (size input)) then
        Ok (mkTensor (size input ++ [e])
              (fun idx => get weight [get input (removelast idx); last idx 0]))
      else Raise IndexError
  | _ => Raise RuntimeError
  end.

Record Embedding : Type := mkEmbedding {
  emb_num_embeddings : Z;
  emb_embedding_dim : Z;
  emb_padding_idx : option Z;
  emb_weight : Tensor R;
  emb_noise : option (Tensor R);
  emb_vn_std : option R;
  emb_training : bool
}.

(** The constructor of [torch.nn.Embedding] checks [padding_idx], counts a
    negative one from the end and zeroes the row it names. *)
Definition Embedding_init (num_embeddings embedding_dim : Z) (padding_idx : option Z)
    (w0 : list Z -> R) : res Embedding :=
  pidx <- match padding_idx with
          | None => Ok None
          | Some p =>
              if 0 <? p then
                py_assert (p <? num_embeddings) ;;; Ok (Some p)
              else if p <? 0 then
                py_assert (- num_embeddings <=? p) ;;; Ok (Some (num_embeddings + p))
              else Ok (Some p)
          end ;;
  Ok {| emb_num_embeddings := num_embeddings;
        emb_embedding_dim := embedding_dim;
        emb_padding_idx := pidx;
        emb_weight :=
          mkTensor [num_embeddings; embedding_dim]
            (fun idx => match pidx with
                        | Some p => if hd 0 idx =? p then rzero else w0 idx
                        | None => w0 idx
                        end);
        (* Variational Noise *)
        emb_noise := None;
        emb_vn_std := None;
        emb_training := true |}.

Definition Embedding_with_noise (self : Embedding) (noise : option (Tensor R))
    (vn_std : option R) : Embedding :=
  {| emb_num_embeddings := emb_num_embeddings self;
     emb_embedding_dim := emb_embedding_dim self;
     emb_padding_idx := emb_padding_idx self;
     emb_weight := emb_weight self;
     emb_noise := noise;
     emb_vn_std := vn_std;
     emb_training := emb_training self |}.

(** [self.train(mode)] *)
Definition Embedding_train (self : Embedding) (mode : bool) : Embedding :=
  {| emb_num_embeddings := emb_num_embeddings self;
     emb_embedding_dim := emb_embedding_dim self;
     emb_padding_idx := emb_padding_idx self;
     emb_weight := emb_weight self;
     emb_noise := emb_noise self;
     emb_vn_std := emb_vn_std self;
     emb_training := mode |}.

(** The layer with another embedding table. *)
Definition Embedding_with_weight (self : Embedding) (weight : Tensor R) : Embedding :=
  {| emb_num_embeddings := emb_num_embeddings self;
     emb_embedding_dim := emb_embedding_dim self;
     emb_padding_idx := emb_padding_idx self;
     emb_weight := weight;
     emb_noise := emb_noise self;
     emb_vn_std := emb_vn_std self;
     emb_training := emb_training self |}.

Definition Embedding_init_vn (self : Embedding) (vn_std : R) : Embedding :=
  (* Variational Noise *)
  Embedding_with_noise self (emb_noise self) (Some vn_std).

Definition Embedding_sample_synaptic_noise (self : Embedding) (distributed : bool) (g : rng)
    : Embedding * rng :=
  (* Sample Noise *)
  let (noise, g') := torch_normal (size (emb_weight self)) g in
  (* Broadcast Noise *)
  let noise := if distributed then dist_broadcast noise else noise in
  (Embedding_with_noise self (Some noise) (emb_vn_std self), g').

Definition Embedding_forward (self : Embedding) (input : Tensor Z) : res (Tensor R) :=
  (* Weight *)
  let weight := emb_weight self in
  (* Add Noise *)
  weight <- match emb_noise self with
            | Some noise =>
                if emb_training self then
                  n <- vn_scale (emb_vn_std self) noise ;; tadd weight n
                else Ok weight
            | None => Ok weight
            end ;;
  (* Apply Weight *)
  F_embedding input weight.

(** ** [LSTM] *)

Definition replace_at {A : Type} (n : nat) (a : A) (l : list A) : list A :=
  firstn n l ++ a :: skipn (S n) l.

(** [t.size(dim)] *)
Definition tensor_size {A : Type} (t : Tensor A) (dim : nat) : res Z :=
  match nth_error (size t) dim with
  | Some s => Ok s
  | None => Raise IndexError
  end.

(** [torch.zeros] of the given size *)
Definition torch_zeros (sz : list Z) : Tensor R := mkTensor sz (fun _ => rzero).

(** [t.index_select(dim, index)] for a 1-D [index]. *)
Definition index_select (dim : nat) (t : Tensor R) (index : Tensor Z) : res (Tensor R) :=
  match size index with
  | [n] =>
      if (dim <? rank t)%nat then
        if forallb (fun k => (0 <=? get index [k]) && (get index [k] <? nth dim (size t) 0))
                   (zrange n) then
          Ok (mkTensor (replace_at dim n (size t))
                (fun idx => get t (replace_at dim (get index [nth dim idx 0]) idx)))
        else Raise IndexError
      else Raise IndexError
  | _ => Raise RuntimeError
  end.

Record PackedSequence : Type := mkPackedSequence {
  ps_data : Tensor R;
  ps_batch_sizes : Tensor Z;
  ps_sorted_indices : option (Tensor Z);
  ps_unsorted_indices : option (Tensor Z)
}.

(** What [LSTM.forward] receives and returns as its sequence: a plain
    tensor or a [PackedSequence]. *)
Inductive sequence : Type :=
| Padded (x : Tensor R)
| Packed (p : PackedSequence).

Record LSTM : Type := mkLSTM {
  lstm_input_size : Z;
  lstm_hidden_size : Z;
  lstm_num_layers : Z;
  lstm_batch_first : bool;
  lstm_bidirectional : bool;
  lstm_bias : bool;
  lstm_dropout : R;
  flat_weights : list (Tensor R);
  lstm_noises : option (list (Tensor R));
  lstm_vn_std : option R;
  lstm_training : bool
}.

(** The recurrent primitive and the argument check of [torch.nn.LSTM]:
    [_VF.lstm(input, [batch_sizes,] hx, weight, bias, num_layers, dropout,
    training, bidirectional[, batch_first])] and
    [self.check_forward_args(input, hx, batch_sizes)]. *)
Class Recurrent : Type := {
  VF_lstm : Tensor R -> option (Tensor Z) -> list (Tensor R) -> list (Tensor R) ->
            bool -> Z -> R -> bool -> bool -> option bool -> res (list (Tensor R));
  check_forward_args : Z -> Z -> Z -> bool -> bool ->
                       Tensor R -> list (Tensor R) -> option (Tensor Z) -> res unit
}.

Context {recurrent : Recurrent}.

(** The parameters of one (layer, direction) of [torch.nn.LSTM], in the
    order they take in [_flat_weights]. *)
Record lstm_group : Type := mkGroup {
  weight_ih : Tensor R;
  weight_hh : Tensor R;
  bias_ih : Tensor R;
  bias_hh : Tensor R
}.

Definition group_weights (g : lstm_group) : list (Tensor R) :=
  [weight_ih g; weight_hh g; bias_ih g; bias_hh g].

(** The groups [torch.nn.LSTM] creates, layer by layer and direction by
    direction; [init layer direction] gives the initial values of the four
    tensors. *)
Definition lstm_groups (input_size hidden_size num_layers : Z) (bidirectional : bool)
    (init : Z -> Z -> (list Z -> R) * (list Z -> R) * (list Z -> R) * (list Z -> R))
    : list lstm_group :=
  let num_directions := if bidirectional then 2 else 1 in
  let gate_size := 4 * hidden_size in
  flat_map (fun layer =>
    map (fun direction =>
      let layer_input_size :=
        if layer =? 0 then input_size else hidden_size * num_directions in
      let '(w_ih, w_hh, b_ih, b_hh) := init layer direction in
      {| weight_ih := mkTensor [gate_size; layer_input_size] w_ih;
         weight_hh := mkTensor [gate_size; hidden_size] w_hh;
         bias_ih := mkTensor [gate_size] b_ih;
         bias_hh := mkTensor [gate_size] b_hh |})
      (zrange num_directions))
    (zrange num_layers).

Definition LSTM_init (input_size hidden_size num_layers : Z)
    (batch_first bidirectional : bool)
    (init : Z -> Z -> (list Z -> R) * (list Z -> R) * (list Z -> R) * (list Z -> R))
    : LSTM :=
  {| lstm_input_size := input_size;
     lstm_hidden_size := hidden_size;
     lstm_num_layers := num_layers;
     lstm_batch_first := batch_first;
     lstm_bidirectional := bidirectional;
     lstm_bias := true;
     lstm_dropout := rzero;
     flat_weights :=
       flat_map group_weights
         (lstm_groups input_size hidden_size num_layers bidirectional init);
     (* Variational Noise *)
     lstm_noises := None;
     lstm_vn_std := None;
     lstm_training := true |}.

Definition LSTM_with_noise (self : LSTM) (noises : option (list (Tensor R)))
    (vn_std : option R) : LSTM :=
  {| lstm_input_size := lstm_input_size self;
     lstm_hidden_size := lstm_hidden_size self;
     lstm_num_layers := lstm_num_layers self;
     lstm_batch_first := lstm_batch_first self;
     lstm_bidirectional := lstm_bidirectional self;
     lstm_bias := lstm_bias self;
     lstm_dropout := lstm_dropout self;
     flat_weights := flat_weights self;
     lstm_noises := noises;
     lstm_vn_std := vn_std;
     lstm_training := lstm_training self |}.

Definition LSTM_init_vn (self : LSTM) (vn_std : R) : LSTM :=
  LSTM_with_noise self (lstm_noises self) (Some vn_std).

(** [self.train(mode)] *)
Definition LSTM_train (self : LSTM) (mode : bool) : LSTM :=
  {| lstm_input_size := lstm_input_size self;
     lstm_hidden_size := lstm_hidden_size self;
     lstm_num_layers := lstm_num_layers self;
     lstm_batch_first := lstm_batch_first self;
     lstm_bidirectional := lstm_bidirectional self;
     lstm_bias := lstm_bias self;
     lstm_dropout := lstm_dropout self;
     flat_weights := flat_weights self;
     lstm_noises := lstm_noises self;
     lstm_vn_std := lstm_vn_std self;
     lstm_training := mode |}.

(** The layer with another flattened weight list. *)
Definition LSTM_with_weights (self : LSTM) (weights : list (Tensor R)) : LSTM :=
  {| lstm_input_size := lstm_input_size self;
     lstm_hidden_size := lstm_hidden_size self;
     lstm_num_layers := lstm_num_layers self;
     lstm_batch_first := lstm_batch_first self;
     lstm_bidirectional := lstm_bidirectional self;
     lstm_bias := lstm_bias self;
     lstm_dropout := lstm_dropout self;
     flat_weights := weights;
     lstm_noises := lstm_noises self;
     lstm_vn_std := lstm_vn_std self;
     lstm_training := lstm_training self |}.

(** What the specification asks of the weight list in training mode: group
    by group, in the order of the flattened list, the input and hidden
    weights perturbed by the group's own pair of noise tensors and the two
    biases as they are. *)
Definition perturb_group (m : R) (gn : lstm_group * (Tensor R * Tensor R))
    : res (list (Tensor R)) :=
  let (g, n) := gn in
  p0 <- tadd (weight_ih g) (scale m (fst n)) ;;
  p1 <- tadd (weight_hh g) (scale m (snd n)) ;;
  Ok [p0; p1; bias_ih g; bias_hh g].

Definition perturbed_weights (m : R) (gns : list (lstm_group * (Tensor R * Tensor R)))
    : res (list (Tensor R)) :=
  ws <- mapM (perturb_group m) gns ;; Ok (concat ws).

(** A pair of noise tensors shaped like the two weights of a group. *)
Definition sized_like (g : lstm_group) (n : Tensor R * Tensor R) : Prop :=
  size (fst n) = size (weight_ih g) /\ size (snd n) = size (weight_hh g).

(** The noise list as [sample_synaptic_noise] lays it out. *)
Definition noise_list (ns : list (Tensor R * Tensor R)) : list (Tensor R) :=
  flat_map (fun n => [fst n; snd n]) ns.

(** The sampling loop [for i in range(0, len(self._flat_weights), 4)]. *)
Fixpoint sample_loop (flat : list (Tensor R)) (ixs : list Z)
    (noises : list (Tensor R)) (g : rng) : res (list (Tensor R) * rng) :=
  match ixs with
  | [] => Ok (noises, g)
  | i :: ixs' =>
      w0 <- py_getitem flat i ;;
      let (n0, g1) := torch_normal (size w0) g in
      w1 <- py_getitem flat (i + 1) ;;
      let (n1, g2) := torch_normal (size w1) g1 in
      sample_loop flat ixs' (noises ++ [n0; n1]) g2
  end.

Definition LSTM_sample_synaptic_noise (self : LSTM) (distributed : bool) (g : rng)
    : res (LSTM * rng) :=
  (* Sample Noise *)
  r <- sample_loop (flat_weights self) (py_range 0 (zlen (flat_weights self)) 4) [] g ;;
  let (noises, g') := r in
  (* Broadcast Noise *)
  let noises := if distributed then map dist_broadcast noises else noises in
  Ok (LSTM_with_noise self (Some noises) (lstm_vn_std self), g').

(** The loop [for i in range(0, len(self.noises), 2)] of [forward]. *)
Fixpoint noise_loop (flat noises : list (Tensor R)) (vn_std : option R) (ixs : list Z)
    (weight : list (Tensor R)) : res (list (Tensor R)) :=
  match ixs with
  | [] => Ok weight
  | i :: ixs' =>
      w0 <- py_getitem flat (2 * i) ;;
      n0 <- py_getitem noises i ;;
      n0 <- vn_scale vn_std n0 ;;
      p0 <- tadd w0 n0 ;;
      w1 <- py_getitem flat (2 * i + 1) ;;
      n1 <- py_getitem noises (i + 1) ;;
      n1 <- vn_scale vn_std n1 ;;
      p1 <- tadd w1 n1 ;;
      w2 <- py_getitem flat (2 * i + 2) ;;
      w3 <- py_getitem flat (2 * i + 3) ;;
      noise_loop flat noises vn_std ixs' (weight ++ [p0; p1; w2; w3])
  end.

(** The weight list [forward] hands to the recurrent primitive. *)
Definition LSTM_weight (self : LSTM) : res (list (Tensor R)) :=
  (* Add Noise *)
  match lstm_noises self with
  | Some noises =>
      if lstm_training self then
        noise_loop (flat_weights self) noises (lstm_vn_std self)
          (py_range 0 (zlen noises) 2) []
      else Ok (flat_weights self)
  | None => Ok (flat_weights self)
  end.

(** [self.permute_hidden(hx, permutation)] *)
Definition permute_hidden (hx : list (Tensor R)) (permutation : option (Tensor Z))
    : res (list (Tensor R)) :=
  match permutation with
  | None => Ok hx
  | Some p =>
      h <- py_getitem hx 0 ;;
      c <- py_getitem hx 1 ;;
      h' <- index_select 1 h p ;;
      c' <- index_select 1 c p ;;
      Ok [h'; c']
  end.

Definition LSTM_forward (self : LSTM) (orig_input : sequence)
    (hx : option (Tensor R * Tensor R)) : res (sequence * list (Tensor R)) :=
  unpacked <-
    match orig_input with
    | Packed p =>
        max_batch_size <- (match size (ps_batch_sizes p) with
                           | n :: _ => if 0 <? n then Ok (get (ps_batch_sizes p) [0])
                                       else Raise IndexError
                           | [] => Raise IndexError
                           end) ;;
        Ok (ps_data p, Some (ps_batch_sizes p), max_batch_size,
            ps_sorted_indices p, ps_unsorted_indices p)
    | Padded x =>
        max_batch_size <- tensor_size x (if lstm_batch_first self then 0 else 1)%nat ;;
        Ok (x, None, max_batch_size, None, None)
    end ;;
  let '(input, batch_sizes, max_batch_size, sorted_indices, unsorted_indices) := unpacked in
  hx <- match hx with
        | None =>
            let num_directions := if lstm_bidirectional self then 2 else 1 in
            let zeros := torch_zeros [lstm_num_layers self * num_directions;
                                      max_batch_size; lstm_hidden_size self] in
            Ok [zeros; zeros]
        | Some (h, c) => permute_hidden [h; c] sorted_indices
        end ;;
  (* Add Noise *)
  weight <- LSTM_weight self ;;
  check_forward_args (lstm_input_size self) (lstm_hidden_size self) (lstm_num_layers self)
    (lstm_batch_first self) (lstm_bidirectional self) input hx batch_sizes ;;;
  result <- match batch_sizes with
            | None =>
                VF_lstm input None hx weight (lstm_bias self) (lstm_num_layers self)
                  (lstm_dropout self) (lstm_training self) (lstm_bidirectional self)
                  (Some (lstm_batch_first self))
            | Some bs =>
                VF_lstm input (Some bs) hx weight (lstm_bias self) (lstm_num_layers self)
                  (lstm_dropout self) (lstm_training self) (lstm_bidirectional self) None
            end ;;
  output <- py_getitem result 0 ;;
  let hidden := tl result in
  hidden <- permute_hidden hidden unsorted_indices ;;
  match orig_input, batch_sizes with
  | Packed _, Some bs =>
      Ok (Packed (mkPackedSequence output bs sorted_indices unsorted_indices), hidden)
  | _, _ => Ok (Padded output, hidden)
  end.

(** ** Padding, permutation and the convolution primitives *)

(** The left and right amounts of [F.pad]'s flat [padding] tuple, last
    dimension first. *)
Fixpoint pad_pairs (padding : list Z) : list (Z * Z) :=
  match padding with
  | l :: r :: rest => (l, r) :: pad_pairs rest
  | _ => []
  end.

(** The (left, right) amounts of each dimension of a tensor of rank [r]. *)
Definition dim_pads (r : nat) (padding : list Z) : list (Z * Z) :=
  repeat (0, 0) (r - length (pad_pairs padding)) ++ rev (pad_pairs padding).

(** [F.pad(x, padding, mode="constant", value=0)]; a negative amount crops. *)
Definition constant_pad (padding : list Z) (x : Tensor R) : res (Tensor R) :=
  if Nat.even (length padding) && (length (pad_pairs padding) <=? rank x)%nat then
    let dp := dim_pads (rank x) padding in
    let sz := map2 (fun s p => s + fst p + snd p) (size x) dp in
    if forallb (fun s => 0 <=? s) sz then
      Ok (mkTensor sz
            (fun idx =>
               let src := map2 (fun i p => i - fst p) idx dp in
               if in_bounds (size x) src then get x src else rzero))
    else Raise RuntimeError
  else Raise RuntimeError.

Fixpoint index_of (k : nat) (dims : list nat) : nat :=
  match dims with
  | [] => 0
  | d :: dims' => if Nat.eqb d k then 0 else S (index_of k dims')
  end.

(** [x.permute(dims)] *)
Definition permute {A : Type} (dims : list nat) (x : Tensor A) : res (Tensor A) :=
  if (length dims =? rank x)%nat
     && forallb (fun k => existsb (Nat.eqb k) dims) (seq 0 (rank x)) then
    Ok (mkTensor (map (fun d => nth d (size x) 0) dims)
          (fun idx => get x (map (fun m => nth (index_of m dims) idx 0)
                                 (seq 0 (length dims)))))
  else Raise RuntimeError.

(** The modules the convolution wrappers hold as attributes. *)
Inductive module : Type :=
| Identity
| ConstantPad (padding : list Z)
| Permute (dims : list nat).

Definition module_forward (m : module) (x : Tensor R) : res (Tensor R) :=
  match m with
  | Identity => Ok x
  | ConstantPad padding => constant_pad padding x
  | Permute dims => permute dims x
  end.

(** The length of one spatial dimension after a convolution without
    padding. *)
Definition conv_out_len (l k s d : Z) : res Z :=
  if (0 <? s) && (0 <? d) && (0 <? k) && (0 <=? l - d * (k - 1) - 1) then
    Ok ((l - d * (k - 1) - 1) / s + 1)
  else Raise RuntimeError.

Fixpoint conv_out_size (sp ks stride dilation : list Z) : res (list Z) :=
  match sp, ks, stride, dilation with
  | [], [], [], [] => Ok []
  | l :: sp', k :: ks', s :: stride', d :: dilation' =>
      o <- conv_out_len l k s d ;;
      os <- conv_out_size sp' ks' stride' dilation' ;;
      Ok (o :: os)
  | _, _, _, _ => Raise RuntimeError
  end.

(** The input position read at output position [pos] and kernel offset
    [kp]. *)
Fixpoint conv_src (pos kp stride dilation : list Z) : list Z :=
  match pos, kp, stride, dilation with
  | p :: pos', k :: kp', s :: stride', d :: dilation' =>
      (p * s + k * d) :: conv_src pos' kp' stride' dilation'
  | _, _, _, _ => []
  end.

(** [F.conv1d], [F.conv2d], [F.conv3d] with [padding=0] on a batched input
    (N, C, spatial...): a cross-correlation of the input with the kernel. *)
Definition F_conv (x weight : Tensor R) (bias : option (Tensor R))
    (stride dilation : list Z) (groups : Z) : res (Tensor R) :=
  match size x, size weight with
  | n :: c :: sp, o :: cg :: ks =>
      if (0 <? groups) && (c =? cg * groups) && (o mod groups =? 0)
         && match bias with Some b => list_eqb (size b) [o] | None => true end then
        osp <- conv_out_size sp ks stride dilation ;;
        Ok (mkTensor (n :: o :: osp)
              (fun idx =>
                 let b := hd 0 idx in
                 let oc := hd 0 (tl idx) in
                 let pos := tl (tl idx) in
                 let g := oc / (o / groups) in
                 let acc :=
                   rsum (map (fun ci =>
                                rmul (get weight (oc :: ci))
                                     (get x (b :: g * cg + hd 0 ci
                                               :: conv_src pos (tl ci) stride dilation)))
                             (all_indices (cg :: ks))) in
                 match bias with
                 | Some bv => radd acc (get bv [oc])
                 | None => acc
                 end))
      else Raise RuntimeError
  | _, _ => Raise RuntimeError
  end.

(** The length of one spatial dimension after a transposed convolution. *)
Definition conv_transpose_out_len (l k s p op d : Z) : res Z :=
  let o := (l - 1) * s - 2 * p + d * (k - 1) + op + 1 in
  if (0 <? s) && (0 <? d) && (0 <? k) && (0 <=? p) && (0 <=? op)
     && (op <? Z.max s d) && (0 <=? o) then Ok o
  else Raise RuntimeError.

Fixpoint conv_transpose_out_size (sp ks stride padding output_padding dilation : list Z)
    : res (list Z) :=
  match sp, ks, stride, padding, output_padding, dilation with
  | [], [], [], [], [], [] => Ok []
  | l :: sp', k :: ks', s :: stride', p :: padding', op :: output_padding',
    d :: dilation' =>
      o <- conv_transpose_out_len l k s p op d ;;
      os <- conv_transpose_out_size sp' ks' stride' padding' output_padding' dilation' ;;
      Ok (o :: os)
  | _, _, _, _, _, _ => Raise RuntimeError
  end.

(** The output position written from input position [ipos] through kernel
    offset [kp]. *)
Fixpoint conv_transpose_dst (ipos kp stride padding dilation : list Z) : list Z :=
  match ipos, kp, stride, padding, dilation with
  | i :: ipos', k :: kp', s :: stride', p :: padding', d :: dilation' =>
      (i * s - p + k * d) :: conv_transpose_dst ipos' kp' stride' padding' dilation'
  | _, _, _, _, _ => []
  end.

(** [F.conv_transpose1d], [F.conv_transpose2d], [F.conv_transpose3d] on a
    batched input; the weight has size (C_in, C_out / groups, kernel...). *)
Definition F_conv_transpose (x weight : Tensor R) (bias : option (Tensor R))
    (stride padding output_padding : list Z) (groups : Z) (dilation : list Z)
    : res (Tensor R) :=
  match size x, size weight with
  | n :: c :: sp, cin :: og :: ks =>
      if (0 <? groups) && (c =? cin) && (cin mod groups =? 0)
         && match bias with Some b => list_eqb (size b) [og * groups] | None => true end then
        osp <- conv_transpose_out_size sp ks stride padding output_padding dilation ;;
        Ok (mkTensor (n :: og * groups :: osp)
              (fun idx =>
                 let b := hd 0 idx in
                 let oc := hd 0 (tl idx) in
                 let pos := tl (tl idx) in
                 let g := oc / og in
                 let cg := cin / groups in
                 let nd := length sp in
                 let acc :=
                   rsum (map (fun ci =>
                                rmul (get x (b :: g * cg + hd 0 ci :: firstn nd (tl ci)))
                                     (get weight (g * cg + hd 0 ci :: oc mod og
                                                    :: skipn nd (tl ci))))
                             (filter (fun ci =>
                                        list_eqb
                                          (conv_transpose_dst (firstn nd (tl ci))
                                             (skipn nd (tl ci)) stride padding dilation)
                                          pos)
                                     (all_indices (cg :: sp ++ ks)))) in
                 match bias with
                 | Some bv => radd acc (get bv [oc])
                 | None => acc
                 end))
      else Raise RuntimeError
  | _, _ => Raise RuntimeError
  end.

(** ** [torch.nn.ConvNd] and [torch.nn.ConvTransposeNd] *)

Record nn_ConvNd : Type := mk_nn_ConvNd {
  nnc_in_channels : Z;
  nnc_out_channels : Z;
  nnc_kernel_size : list Z;
  nnc_stride : list Z;
  nnc_padding : list Z;
  nnc_dilation : list Z;
  nnc_transposed : bool;
  nnc_output_padding : list Z;
  nnc_groups : Z;
  nnc_padding_mode : string;
  conv_weight : Tensor R;
  conv_bias : option (Tensor R)
}.

(** The constructor of the wrapped class: it checks [groups] and
    [padding_mode], turns the int-or-tuple arguments into tuples of the
    layer's rank [nd] and creates the parameters. *)
Definition nn_ConvNd_init (nd : nat) (transposed : bool) (in_channels out_channels : Z)
    (kernel_size stride padding dilation output_padding : int_or_tuple)
    (groups : Z) (bias : bool) (padding_mode : string)
    (w0 b0 : list Z -> R) : res nn_ConvNd :=
  if groups <=? 0 then Raise ValueError
  else if negb (in_channels mod groups =? 0) then Raise ValueError
  else if negb (out_channels mod groups =? 0) then Raise ValueError
  else if negb (py_in padding_mode
                  (if transposed then ["zeros"]
                   else ["zeros"; "reflect"; "replicate"; "circular"])%string)
  then Raise ValueError
  else
    let ks := ntuple nd kernel_size in
    Ok {| nnc_in_channels := in_channels;
          nnc_out_channels := out_channels;
          nnc_kernel_size := ks;
          nnc_stride := ntuple nd stride;
          nnc_padding := ntuple nd padding;
          nnc_dilation := ntuple nd dilation;
          nnc_transposed := transposed;
          nnc_output_padding := ntuple nd output_padding;
          nnc_groups := groups;
          nnc_padding_mode := padding_mode;
          conv_weight :=
            mkTensor (if transposed then in_channels :: out_channels / groups :: ks
                      else out_channels :: in_channels / groups :: ks) w0;
          conv_bias := if bias then Some (mkTensor [out_channels] b0) else None |}.

(** The native zero padding of the forward convolution, [p] on both sides
    of each dimension; none where [padding] is 0. *)
Definition native_pad (padding : list Z) (x : Tensor R) : res (Tensor R) :=
  if forallb (Z.eqb 0) padding then Ok x
  else constant_pad (flat_map (fun p => [p; p]) (rev padding)) x.

(** [torch.nn.ConvNd.forward] *)
Definition nn_Conv_forward (self : nn_ConvNd) (x : Tensor R) : res (Tensor R) :=
  x <- native_pad (nnc_padding self) x ;;
  F_conv x (conv_weight self) (conv_bias self) (nnc_stride self) (nnc_dilation self) (nnc_groups self).

(** [torch.nn.ConvTransposeNd.forward] *)
Definition nn_ConvTranspose_forward (self : nn_ConvNd) (x : Tensor R) : res (Tensor R) :=
  if negb (String.eqb (nnc_padding_mode self) "zeros") then Raise ValueError
  else F_conv_transpose x (conv_weight self) (conv_bias self) (nnc_stride self)
         (nnc_padding self) (nnc_output_padding self) (nnc_groups self) (nnc_dilation self).

(** ** [Conv1d], [Conv2d], [Conv3d], [ConvTranspose1d] *)

Record Conv : Type := mkConv {
  conv_super : nn_ConvNd;
  pre_padding : module;
  input_permute : module;
  output_permute : module
}.

Definition Conv1d_init (in_channels out_channels : Z)
    (kernel_size stride dilation : int_or_tuple) (groups : Z) (bias : bool)
    (padding_mode : string) (padding : string) (channels_last : bool)
    (w0 b0 : list Z -> R) : res Conv :=
  super <- nn_ConvNd_init 1 false in_channels out_channels kernel_size stride (Int 0)
             dilation (Int 0) groups bias padding_mode w0 b0 ;;
  (* Assert *)
  py_assert (py_in padding ["valid"; "same"; "causal"]%string) ;;;
  (* Padding *)
  pre_padding <-
    (if String.eqb padding "valid" then Ok Identity
     else if String.eqb padding "same" then
       k0 <- py_getitem (nnc_kernel_size super) 0 ;;
       Ok (ConstantPad [k0 / 2; (k0 - 1) / 2])
     else if String.eqb padding "causal" then
       k0 <- py_getitem (nnc_kernel_size super) 0 ;;
       Ok (ConstantPad [k0 - 1; 0])
     else Raise AssertionError) ;;
  (* Channels Last *)
  Ok {| conv_super := super;
        pre_padding := pre_padding;
        input_permute := if channels_last then Permute [0; 2; 1]%nat else Identity;
        output_permute := if channels_last then Permute [0; 2; 1]%nat else Identity |}.

Definition Conv_forward (self : Conv) (x : Tensor R) : res (Tensor R) :=
  (* Padding *)
  x <- module_forward (input_permute self) x ;;
  x <- module_forward (pre_padding self) x ;;
  (* Apply Weight *)
  x <- nn_Conv_forward (conv_super self) x ;;
  module_forward (output_permute self) x.

Definition Conv1d_forward : Conv -> Tensor R -> res (Tensor R) := Conv_forward.

Definition Conv2d_init (in_channels out_channels : Z)
    (kernel_size stride dilation : int_or_tuple) (groups : Z) (bias : bool)
    (padding_mode : string) (padding : string) (channels_last : bool)
    (w0 b0 : list Z -> R) : res Conv :=
  super <- nn_ConvNd_init 2 false in_channels out_channels kernel_size stride (Int 0)
             dilation (Int 0) groups bias padding_mode w0 b0 ;;
  (* Assert *)
  py_assert (py_in padding ["valid"; "same"]%string) ;;;
  (* Padding *)
  pre_padding <-
    (if String.eqb padding "valid" then Ok Identity
     else if String.eqb padding "same" then
       k1 <- py_getitem (nnc_kernel_size super) 1 ;;
       k0 <- py_getitem (nnc_kernel_size super) 0 ;;
       Ok (ConstantPad [k1 / 2; (k1 - 1) / 2; k0 / 2; (k0 - 1) / 2])
     else Raise AssertionError) ;;
  (* Channels Last *)
  Ok {| conv_super := super;
        pre_padding := pre_padding;
        input_permute := if channels_last then Permute [0; 3; 1; 2]%nat else Identity;
        output_permute := if channels_last then Permute [0; 2; 3; 1]%nat else Identity |}.

Definition Conv2d_forward : Conv -> Tensor R -> res (Tensor R) := Conv_forward.

Definition Conv3d_init (in_channels out_channels : Z)
    (kernel_size stride dilation : int_or_tuple) (groups : Z) (bias : bool)
    (padding_mode : string) (padding : string) (channels_last : bool)
    (w0 b0 : list Z -> R) : res Conv :=
  super <- nn_ConvNd_init 3 false in_channels out_channels kernel_size stride (Int 0)
             dilation (Int 0) groups bias padding_mode w0 b0 ;;
  (* Assert *)
  py_assert (py_in padding ["valid"; "same"; "causal"]%string) ;;;
  (* Padding *)
  pre_padding <-
    (if String.eqb padding "valid" then Ok Identity
     else if String.eqb padding "same" then
       k2 <- py_getitem (nnc_kernel_size super) 2 ;;
       k1 <- py_getitem (nnc_kernel_size super) 1 ;;
       k0 <- py_getitem (nnc_kernel_size super) 0 ;;
       Ok (ConstantPad [k2 / 2; (k2 - 1) / 2; k1 / 2; (k1 - 1) / 2;
                        k0 / 2; (k0 - 1) / 2])
     else if String.eqb padding "causal" then
       k2 <- py_getitem (nnc_kernel_size super) 2 ;;
       k1 <- py_getitem (nnc_kernel_size super) 1 ;;
       k0 <- py_getitem (nnc_kernel_size super) 0 ;;
       Ok (ConstantPad [k2 / 2; (k2 - 1) / 2; k1 / 2; (k1 - 1) / 2; k0 - 1; 0])
     else Raise AssertionError) ;;
  (* Channels Last *)
  Ok {| conv_super := super;
        pre_padding := pre_padding;
        input_permute := if channels_last then Permute [0; 4; 1; 2; 3]%nat else Identity;
        output_permute := if channels_last then Permute [0; 2; 3; 4; 1]%nat else Identity |}.

Definition Conv3d_forward : Conv -> Tensor R -> res (Tensor R) := Conv_forward.

(** [t[i] = v] for a tuple [t], which is what the wrapped constructor
    leaves in [self.padding]: a tuple accepts no item assignment. *)
Definition tuple_setitem (t : list Z) (i v : Z) : res (list Z) := Raise TypeError.

(** The loop [for i in range(len(self.padding))] of [ConvTranspose1d]. *)
Fixpoint padding_loop (dilation kernel_size : list Z) (ixs : list Z)
    (padding : list Z) : res (list Z) :=
  match ixs with
  | [] => Ok padding
  | i :: ixs' =>
      d <- py_getitem dilation i ;;
      k <- py_getitem kernel_size i ;;
      padding <- tuple_setitem padding i (d * (k - 1)) ;;
      padding_loop dilation kernel_size ixs' padding
  end.

Definition with_padding (self : nn_ConvNd) (padding : list Z) : nn_ConvNd :=
  {| nnc_in_channels := nnc_in_channels self;
     nnc_out_channels := nnc_out_channels self;
     nnc_kernel_size := nnc_kernel_size self;
     nnc_stride := nnc_stride self;
     nnc_padding := padding;
     nnc_dilation := nnc_dilation self;
     nnc_transposed := nnc_transposed self;
     nnc_output_padding := nnc_output_padding self;
     nnc_groups := nnc_groups self;
     nnc_padding_mode := nnc_padding_mode self;
     conv_weight := conv_weight self;
     conv_bias := conv_bias self |}.

Definition ConvTranspose1d_init (in_channels out_channels : Z) (kernel_size stride output_padding : int_or_tuple)
    (groups : Z) (bias : bool) (dilation : int_or_tuple)
    (padding_mode : string) (padding : string) (channels_last : bool)
    (w0 b0 : list Z -> R) : res Conv :=
  super <- nn_ConvNd_init 1 true in_channels out_channels kernel_size stride (Int 0)
             dilation output_padding groups bias padding_mode w0 b0 ;;
  (* Default to no Input Padding *)
  native <- padding_loop (nnc_dilation super) (nnc_kernel_size super)
              (zrange (zlen (nnc_padding super))) (nnc_padding super) ;;
  let super := with_padding super native in
  (* Assert *)
  py_assert (py_in padding ["valid"; "same"; "causal"]%string) ;;;
  (* Padding *)
  pre_padding <-
    (if String.eqb padding "valid" then
       d0 <- py_getitem (nnc_dilation super) 0 ;;
       k0 <- py_getitem (nnc_kernel_size super) 0 ;;
       Ok (ConstantPad [d0 * (k0 - 1); d0 * (k0 - 1)])
     else if String.eqb padding "same" then
       k0 <- py_getitem (nnc_kernel_size super) 0 ;;
       Ok (ConstantPad [k0 / 2; (k0 - 1) / 2])
     else if String.eqb padding "causal" then
       k0 <- py_getitem (nnc_kernel_size super) 0 ;;
       Ok (ConstantPad [k0 - 1; 0])
     else Raise AssertionError) ;;
  (* Channels Last *)
  Ok {| conv_super := super;
        pre_padding := pre_padding;
        input_permute := if channels_last then Permute [0; 2; 1]%nat else Identity;
        output_permute := if channels_last then Permute [0; 2; 1]%nat else Identity |}.

Definition ConvTranspose1d_forward (self : Conv) (x : Tensor R) : res (Tensor R) :=
  (* Padding *)
  x <- module_forward (input_permute self) x ;;
  x <- module_forward (pre_padding self) x ;;
  (* Apply Weight *)
  x <- nn_ConvTranspose_forward (conv_super self) x ;;
  module_forward (output_permute self) x.

(** ** [ConvTranspose2d], [ConvTranspose3d] *)

Record ConvTranspose : Type := mkConvTranspose {
  ct_super : nn_ConvNd;
  ct_input_permute : module;
  ct_output_permute : module
}.

Definition ConvTranspose2d_init (in_channels out_channels : Z)
    (kernel_size stride padding output_padding : int_or_tuple)
    (groups : Z) (bias : bool) (dilation : int_or_tuple)
    (padding_mode : string) (channels_last : bool)
    (w0 b0 : list Z -> R) : res ConvTranspose :=
  super <- nn_ConvNd_init 2 true in_channels out_channels kernel_size stride padding
             dilation output_padding groups bias padding_mode w0 b0 ;;
  (* Channels Last *)
  Ok {| ct_super := super;
        ct_input_permute := if channels_last then Permute [0; 3; 1; 2]%nat else Identity;
        ct_output_permute := if channels_last then Permute [0; 2; 3; 1]%nat else Identity |}.

Definition ConvTranspose_forward (self : ConvTranspose) (x : Tensor R) : res (Tensor R) :=
  (* Apply Weight *)
  x <- module_forward (ct_input_permute self) x ;;
  x <- nn_ConvTranspose_forward (ct_super self) x ;;
  module_forward (ct_output_permute self) x.

Definition ConvTranspose2d_forward : ConvTranspose -> Tensor R -> res (Tensor R) :=
  ConvTranspose_forward.

Definition ConvTranspose3d_init (in_channels out_channels : Z)
    (kernel_size stride padding output_padding : int_or_tuple)
    (groups : Z) (bias : bool) (dilation : int_or_tuple)
    (padding_mode : string) (channels_last : bool)
    (w0 b0 : list Z -> R) : res ConvTranspose :=
  (* output_padding=min(output_padding, stride-1) *)
  output_padding <- match output_padding, stride with
                    | Int op, Int s => Ok (Int (Z.min op (s - 1)))
                    | _, _ => Raise TypeError
                    end ;;
  super <- nn_ConvNd_init 3 true in_channels out_channels kernel_size stride padding
             dilation output_padding groups bias padding_mode w0 b0 ;;
  (* Channels Last *)
  Ok {| ct_super := super;
        ct_input_permute := if channels_last then Permute [0; 4; 1; 2; 3]%nat else Identity;
        ct_output_permute := if channels_last then Permute [0; 2; 3; 4; 1]%nat else Identity |}.

Definition ConvTranspose3d_forward : ConvTranspose -> Tensor R -> res (Tensor R) :=
  ConvTranspose_forward.

(** The flat padding tuple of mode same for the kernel [ks], last
    dimension first: left = k // 2, right = (k - 1) // 2. *)
Definition same_padding (ks : list Z) : list Z :=
  flat_map (fun k => [k / 2; (k - 1) / 2]) (rev ks).

(** The spatial part of a size (N, C, spatial...) or, channels last,
    (N, spatial..., C). *)
Definition spatial_size (channels_last : bool) (sz : list Z) : list Z :=
  if channels_last then removelast (tl sz) else tl (tl sz).

(** Two tensors of one size that agree wherever the coordinate [dim] of
    the index is at most [t]. *)
Definition agree_upto (dim : nat) (t : Z) (x x' : Tensor R) : Prop :=
  size x = size x' /\
  forall idx, in_bounds (size x) idx = true -> nth dim idx 0 <= t ->
              get x idx = get x' idx.

(** ** What the padding claims are stated with *)

(** The elements of the result of a convolution. *)
Definition conv_value (x weight : Tensor R) (bias : option (Tensor R))
    (stride dilation : list Z) (groups o cg : Z) (ks : list Z) (idx : list Z) : R :=
  let b := hd 0 idx in
  let oc := hd 0 (tl idx) in
  let pos := tl (tl idx) in
  let g := oc / (o / groups) in
  let acc :=
    rsum (map (fun ci =>
                 rmul (get weight (oc :: ci))
                      (get x (b :: g * cg + hd 0 ci
                                :: conv_src pos (tl ci) stride dilation)))
              (all_indices (cg :: ks))) in
  match bias with
  | Some bv => radd acc (get bv [oc])
  | None => acc
  end.

(** The index of the input that [permute] reads for an output index. *)
Definition permuted_index (dims : list nat) (idx : list Z) : list Z :=
  map (fun m => nth (index_of m dims) idx 0) (seq 0 (length dims)).

(** The permutation modules of a layer keep the causal dimension: either
    both are the identity and it is dimension 2, or the input permutation
    brings dimension [td] to position 2 and the output permutation takes it
    back. *)
Definition causal_layout (m_in m_out : module) (td : nat) : Prop :=
  (m_in = Identity /\ m_out = Identity /\ td = 2%nat) \/
  (exists din dout,
     m_in = Permute din /\ m_out = Permute dout /\
     (td < length din)%nat /\ index_of td din = 2%nat /\
     (2 < length dout)%nat /\ index_of 2 dout = td).

(** ** Reductions and global pooling *)

(** The index of the input element that reduced index [ks] contributes to
    output index [idx]; [dims] are the reduced dimensions, counted from the
    front and increasing. *)
Definition scatter (keepdim : bool) (dims : list nat) (ks idx : list Z) : list Z :=
  fold_left (fun acc dk => if keepdim then replace_at (fst dk) (snd dk) acc
                           else insert_at (fst dk) (snd dk) acc)
            (combine dims ks) idx.

Definition reduced_size (keepdim : bool) (dims : list nat) (sz : list Z) : list Z :=
  if keepdim then fold_left (fun acc d => replace_at d 1 acc) dims sz
  else fold_left (fun acc d => remove_at d acc) (rev dims) sz.

(** A reduction [f] of the elements along [dims]. *)
Definition reduce {A B : Type} (f : list A -> B) (dims : list nat) (keepdim : bool)
    (t : Tensor A) : res (Tensor B) :=
  if forallb (fun d => (d <? rank t)%nat) dims then
    Ok (mkTensor (reduced_size keepdim dims (size t))
          (fun idx =>
             f (map (fun ks => get t (scatter keepdim dims ks idx))
                    (all_indices (map (fun d => nth d (size t) 0) dims)))))
  else Raise IndexError.

(** [t.sum(dim=dims, keepdim=keepdim)] *)
Definition tsum (dims : list nat) (keepdim : bool) (t : Tensor R) : res (Tensor R) :=
  reduce rsum dims keepdim t.

(** [t.mean(dim=dims, keepdim=keepdim)] *)
Definition tmean (dims : list nat) (keepdim : bool) (t : Tensor R) : res (Tensor R) :=
  reduce (fun l => rdiv (rsum l) (rofZ (zlen l))) dims keepdim t.

(** [t.count_nonzero(dim=dims)], an integer tensor. *)
Definition count_nonzero (dims : list nat) (t : Tensor R) : res (Tensor Z) :=
  reduce (fun l => zlen (filter rnonzero l)) dims false t.

(** The promotion of an integer tensor in a division by a floating one. *)
Definition to_float (t : Tensor Z) : Tensor R :=
  mkTensor (size t) (fun idx => rofZ (get t idx)).

Record GlobalAvgPool : Type := mkGlobalAvgPool {
  gap_dim : list nat;
  gap_keepdim : bool
}.

Definition GlobalAvgPool1d_init (dim : nat) (keepdim : bool) : GlobalAvgPool :=
  {| gap_dim := [dim]; gap_keepdim := keepdim |}.

Definition GlobalAvgPool1d_forward (self : GlobalAvgPool) (x : Tensor R)
    (mask : option (Tensor R)) : res (Tensor R) :=
  match mask with
  | Some mask =>
      xm <- tmul x mask ;;
      s <- tsum (gap_dim self) (gap_keepdim self) xm ;;
      c <- count_nonzero (gap_dim self) mask ;;
      tdiv s (to_float c)
  | None => tmean (gap_dim self) (gap_keepdim self) x
  end.

Definition GlobalAvgPool2d_init (dim : list nat) (keepdim : bool) : GlobalAvgPool :=
  {| gap_dim := dim; gap_keepdim := keepdim |}.

Definition GlobalAvgPool2d_forward (self : GlobalAvgPool) (x : Tensor R)
    (mask : option (Tensor R)) : res (Tensor R) :=
  match mask with
  | Some mask =>
      xm <- tmul x mask ;;
      s <- tsum (gap_dim self) (gap_keepdim self) xm ;;
      c <- count_nonzero (gap_dim self) mask ;;
      tdiv s (to_float c)
  | None => tmean (gap_dim self) (gap_keepdim self) x
  end.

Record GlobalAvgPool3d : Type := mkGlobalAvgPool3d {
  gap3_axis : list nat
}.

Definition GlobalAvgPool3d_init (axis : list nat) : GlobalAvgPool3d :=
  {| gap3_axis := axis |}.

Definition GlobalAvgPool3d_forward (self : GlobalAvgPool3d) (x : Tensor R)
    (mask : option (Tensor R)) : res (Tensor R) :=
  tmean (gap3_axis self) false x.

End Torch.

(** ** Integer scalars

    The model run on integers: values a floating tensor represents exactly,
    with sums and products that are exact too. *)

#[export] Instance ZScalar : Scalar Z := {
  rzero := 0;
  radd := Z.add;
  rmul := Z.mul;
  rdiv := Z.div;
  rofZ := fun z => z;
  rnonzero := fun z => negb (z =? 0)
}.

(** On integers every order of accumulation gives the same sum: both
    kernels add the products from the first to the last. *)
#[export] Instance ZKernels : @Kernels Z := {
  matmul_dot := fun _ _ _ xs ws => rsum (map2 rmul xs ws);
  linear_dot := fun _ _ _ xs ws b =>
    match b with
    | Some b => radd (rsum (map2 rmul xs ws)) b
    | None => rsum (map2 rmul xs ws)
    end
}.

Definition of_list1 {A : Type} (d : A) (l : list A) : Tensor A :=
  mkTensor [zlen l] (fun idx => znth d l (hd 0 idx)).

Definition of_list2 {A : Type} (d : A) (l : list (list A)) : Tensor A :=
  mkTensor [zlen l; zlen (hd [] l)]
    (fun idx => znth d (znth [] l (hd 0 idx)) (hd 0 (tl idx))).

Definition of_list3 {A : Type} (d : A) (l : list (list (list A))) : Tensor A :=
  mkTensor [zlen l; zlen (hd [] l); zlen (hd [] (hd [] l))]
    (fun idx => znth d (znth [] (znth [] l (hd 0 idx)) (hd 0 (tl idx)))
                  (hd 0 (tl (tl idx)))).

(** The elements of a tensor in row-major order. *)
Definition to_list {A : Type} (t : Tensor A) : list A :=
  map (get t) (all_indices (size t)).

(** The size and the elements of a result. *)
Definition observe {A : Type} (m : res (Tensor A)) : res (list Z * list A) :=
  t <- m ;; Ok (size t, to_list t).

(** ** Single-precision scalars

    IEEE 754 binary32 with rounding to nearest even, the default element
    type of the runtime: an instance on which addition is not associative. *)

#[export] Instance Float32Scalar : Scalar spec_float := {
  rzero := S754_zero false;
  radd := SFadd 24 128;
  rmul := SFmul 24 128;
  rdiv := SFdiv 24 128;
  rofZ := fun z => binary_normalize 24 128 z 0 false;
  rnonzero := fun x => match x with S754_zero _ => false | _ => true end
}.

(** Two kernels on binary32 that differ in the order of their additions:
    the batched product adds the products from the first to the last, the
    linear kernel from the last to the first and then the bias. *)
#[export] Instance Float32Kernels : @Kernels spec_float := {
  matmul_dot := fun _ _ _ xs ws => rsum (map2 rmul xs ws);
  linear_dot := fun _ _ _ xs ws b =>
    match b with
    | Some b => radd (rsum (rev (map2 rmul xs ws))) b
    | None => rsum (rev (map2 rmul xs ws))
    end
}.

(** The binary32 value of an integer. *)
Definition f32 (z : Z) : spec_float := binary_normalize 24 128 z 0 false.

(** One expert whose weight row [2^24, 1, 1] makes the order of the sum
    visible, with bias [1]. *)
Definition switch_f32 : SwitchLinear :=
  SwitchLinear_init 1 3 1 true
    (fun _ => (get (of_list2 (f32 0) [[f32 16777216; f32 1; f32 1]]),
               get (of_list1 (f32 0) [f32 1]))).

Definition switch_f32_input : Tensor spec_float :=
  of_list2 (f32 0) [[f32 1; f32 1; f32 1]].

(** A generator that counts its draws, and a broadcast in a world of one
    participant. *)
#[export] Instance ZSampler : @Sampler Z := {
  rng := Z;
  normal_values := fun g sz => (fun idx => g + hd 0 idx, g + 1);
  broadcast_values := fun t => get t
}.

(** A stand-in for the recurrent primitive, enough to run [LSTM.forward]:
    the output is the input scaled by the sum of the first elements of the
    weight list, the final states are the initial ones. *)
#[export] Instance ZRecurrent : @Recurrent Z := {
  VF_lstm := fun input _ hx weight _ _ _ _ _ _ =>
    Ok (mkTensor (size input)
          (fun idx => get input idx
                      * fold_right Z.add 0 (map (fun w => get w [0; 0]) weight))
        :: hx);
  check_forward_args := fun _ _ _ _ _ _ _ _ => Ok tt
}.

(** Two experts of two inputs and two outputs, with and without bias. *)
Definition demo_experts (k : Z) : (list Z -> Z) * (list Z -> Z) :=
  (get (of_list2 0 (znth [] [[[1; 2]; [3; 4]]; [[5; 6]; [7; 8]]] k)),
   get (of_list1 0 (znth [] [[10; 20]; [30; 40]] k))).

Definition switch_demo : SwitchLinear := SwitchLinear_init 2 2 2 true demo_experts.

Definition switch_no_bias : SwitchLinear := SwitchLinear_init 2 2 2 false demo_experts.

Definition switch_input : Tensor Z := of_list2 0 [[1; 1]; [1; 0]; [0; 1]].

(** A linear layer of two inputs and two outputs, a noise tensor for it and
    the layer holding that noise with magnitude 3. *)
Definition demo_linear : Linear :=
  Linear_init 2 2 true (get (of_list2 0 [[1; 2]; [3; 4]])) (get (of_list1 0 [10; 20])).

Definition demo_noise : Tensor Z := of_list2 0 [[1; 0]; [0; 1]].

Definition demo_linear_noisy : Linear :=
  Linear_with_noise demo_linear (Some demo_noise) (Some 3).

(** A bidirectional recurrent layer of two layers (four groups), whose
    tensors hold 100 * layer + 10 * direction + their rank in the group. *)
Definition demo_lstm_init (layer direction : Z)
    : (list Z -> Z) * (list Z -> Z) * (list Z -> Z) * (list Z -> Z) :=
  (fun _ => 100 * layer + 10 * direction + 1,
   fun _ => 100 * layer + 10 * direction + 2,
   fun _ => 100 * layer + 10 * direction + 3,
   fun _ => 100 * layer + 10 * direction + 4).

Definition demo_lstm : LSTM := LSTM_init_vn (LSTM_init 1 1 2 false true demo_lstm_init) 3.

Definition demo_groups : list (@lstm_group Z) := lstm_groups 1 1 2 true demo_lstm_init.

Definition demo_pairs : list (@lstm_group Z * (Tensor Z * Tensor Z)) :=
  map (fun g => (g, (mkTensor (size (weight_ih g)) (fun _ => 1),
                     mkTensor (size (weight_hh g)) (fun _ => 2)))) demo_groups.

Definition demo_lstm_noisy : LSTM :=
  LSTM_with_noise demo_lstm (Some (noise_list (map snd demo_pairs))) (Some 3).

(** An embedding table of three rows of two elements. *)
Definition demo_embedding : Embedding :=
  {| emb_num_embeddings := 3;
     emb_embedding_dim := 2;
     emb_padding_idx := None;
     emb_weight := of_list2 0 [[1; 2]; [3; 4]; [5; 6]];
     emb_noise := None;
     emb_vn_std := None;
     emb_training := true |}.

Definition demo_table_noise : Tensor Z := of_list2 0 [[1; 1]; [0; 0]; [2; 2]].

Definition demo_embedding_noisy : Embedding :=
  Embedding_with_noise demo_embedding (Some demo_table_noise) (Some 3).

(** Convolutions of one channel with a kernel of ones and no bias value. *)
Definition ones : list Z -> Z := fun _ => 1.
Definition zeros : list Z -> Z := fun _ => 0.

Definition demo_conv (kernel_size dilation : Z) (pre_padding : module) : Conv :=
  {| conv_super :=
       {| nnc_in_channels := 1;
          nnc_out_channels := 1;
          nnc_kernel_size := [kernel_size];
          nnc_stride := [1];
          nnc_padding := [0];
          nnc_dilation := [dilation];
          nnc_transposed := false;
          nnc_output_padding := [0];
          nnc_groups := 1;
          nnc_padding_mode := "zeros";
          conv_weight := mkTensor [1; 1; kernel_size] ones;
          conv_bias := Some (mkTensor [1] zeros) |};
     pre_padding := pre_padding;
     input_permute := Identity;
     output_permute := Identity |}.

(** [Conv1d(1, 1, 3, padding="causal")] and [Conv1d(1, 1, 3, padding="same")] *)
Definition causal_layer : Conv := demo_conv 3 1 (ConstantPad [2; 0]).
Definition same_layer : Conv := demo_conv 3 1 (ConstantPad [1; 1]).

(** [Conv1d(1, 1, 2, dilation=2, padding="causal")] and
    [Conv1d(1, 1, 3, dilation=2, padding="same")] *)
Definition dilated_causal_layer : Conv := demo_conv 2 2 (ConstantPad [1; 0]).
Definition dilated_same_layer : Conv := demo_conv 3 2 (ConstantPad [1; 1]).

(** A volume of size (1, 1, 1, 1, 3) and a mask that hides its last
    element. *)
Definition demo_volume : Tensor Z :=
  mkTensor [1; 1; 1; 1; 3] (fun idx => znth 0 [2; 4; 9] (nth 4 idx 0)).

Definition demo_mask : Tensor Z :=
  mkTensor [1; 1; 1; 1; 3] (fun idx => znth 0 [1; 1; 0] (nth 4 idx 0)).


(** ** Tensor manipulation layers *)

(** The number of elements of a tensor of size [sz]. *)
Definition prod (sz : list Z) : Z := fold_right Z.mul 1 sz.

(** [t.numel()] *)
Definition numel {A : Type} (t : Tensor A) : Z := prod (size t).

(** The row-major offset of the index [idx] in a tensor of size [sz]. *)
Fixpoint ravel (sz idx : list Z) : Z :=
  match sz, idx with
  | _ :: sz', i :: idx' => i * prod sz' + ravel sz' idx'
  | _, _ => 0
  end.

(** The index at the row-major offset [n] of a tensor of size [sz]. *)
Fixpoint unravel (sz : list Z) (n : Z) : list Z :=
  match sz with
  | [] => []
  | _ :: sz' => n / prod sz' :: unravel sz' (n mod prod sz')
  end.

(** The dimension [dim] of a tensor of rank [r], counted from the end when
    it is negative; a tensor of rank 0 is taken as one of rank 1. *)
Definition wrap_dim (r : nat) (dim : Z) : res nat :=
  let n := Z.max (Z.of_nat r) 1 in
  if (- n <=? dim) && (dim <? n) then
    Ok (Z.to_nat (if dim <? 0 then dim + n else dim))
  else Raise IndexError.

(** The size a [reshape] to [shape] gives a tensor of [n] elements: one
    entry may be -1 and is inferred from the others. *)
Definition infer_size (shape : list Z) (n : Z) : res (list Z) :=
  if existsb (fun d => d <? -1) shape then Raise RuntimeError
  else if (1 <? length (filter (Z.eqb (-1)) shape))%nat then Raise RuntimeError
  else
    let newsize := prod (filter (fun d => 0 <=? d) shape) in
    let infer := existsb (Z.eqb (-1)) shape in
    if (n =? newsize) || (infer && (0 <? newsize) && (n mod newsize =? 0)) then
      if infer then
        if newsize =? 0 then Raise RuntimeError
        else Ok (map (fun d => if d =? -1 then n / newsize else d) shape)
      else Ok shape
    else Raise RuntimeError.

(** [x.reshape(shape)]: the elements of [x] in row-major order, under the
    new size. *)
Definition reshape {A : Type} (shape : list Z) (x : Tensor A) : res (Tensor A) :=
  sz <- infer_size shape (numel x) ;;
  Ok (mkTensor sz (fun idx => get x (unravel (size x) (ravel sz idx)))).

(** [x.flatten(start_dim, end_dim)] *)
Definition flatten {A : Type} (start_dim end_dim : Z) (x : Tensor A) : res (Tensor A) :=
  s <- wrap_dim (rank x) start_dim ;;
  e <- wrap_dim (rank x) end_dim ;;
  if (e <? s)%nat then Raise RuntimeError
  else if (rank x =? 0)%nat then reshape [1] x
  else if (s =? e)%nat then Ok x
  else
    reshape (firstn s (size x)
             ++ prod (firstn (e - s + 1) (skipn s (size x)))
             :: skipn (e + 1) (size x)) x.

(** *** [Flatten] *)

Record Flatten : Type := mkFlatten {
  fl_start_dim : Z;
  fl_end_dim : Z
}.

(** [Flatten(start_dim=1, end_dim=-1)] *)
Definition Flatten_init (start_dim end_dim : Z) : Flatten :=
  {| fl_start_dim := start_dim; fl_end_dim := end_dim |}.

Definition Flatten_forward {A : Type} (self : Flatten) (x : Tensor A) : res (Tensor A) :=
  flatten (fl_start_dim self) (fl_end_dim self) x.

(** *** [Transpose] *)

Record Transpose : Type := mkTranspose {
  tr_dim0 : Z;
  tr_dim1 : Z
}.

Definition Transpose_init (dim0 dim1 : Z) : Transpose :=
  {| tr_dim0 := dim0; tr_dim1 := dim1 |}.

(** [x.transpose(dim0, dim1)] for dimensions that may count from the end. *)
Definition tensor_transpose {A : Type} (dim0 dim1 : Z) (x : Tensor A) : res (Tensor A) :=
  d0 <- wrap_dim (rank x) dim0 ;;
  d1 <- wrap_dim (rank x) dim1 ;;
  if (d0 =? d1)%nat then Ok x else transpose d0 d1 x.

Definition Transpose_forward {A : Type} (self : Transpose) (x : Tensor A) : res (Tensor A) :=
  tensor_transpose (tr_dim0 self) (tr_dim1 self) x.

(** *** [Reshape] *)

Record Reshape : Type := mkReshape {
  rs_shape : list Z;
  rs_include_batch : bool
}.

(** [Reshape(shape, include_batch=True)] *)
Definition Reshape_init (shape : list Z) (include_batch : bool) : Reshape :=
  {| rs_shape := shape; rs_include_batch := include_batch |}.

Definition Reshape_forward {A : Type} (self : Reshape) (x : Tensor A) : res (Tensor A) :=
  if rs_include_batch self then reshape (rs_shape self) x
  else reshape (firstn 1 (size x) ++ rs_shape self) x.

(** *** [Unsqueeze] *)

Record Unsqueeze : Type := mkUnsqueeze {
  unsq_dim : Z
}.

Definition Unsqueeze_init (dim : Z) : Unsqueeze := {| unsq_dim := dim |}.

(** [x.unsqueeze(dim)] for a dimension that may count from the end. *)
Definition tensor_unsqueeze {A : Type} (dim : Z) (x : Tensor A) : res (Tensor A) :=
  d <- wrap_dim (S (rank x)) dim ;;
  unsqueeze d x.

Definition Unsqueeze_forward {A : Type} (self : Unsqueeze) (x : Tensor A) : res (Tensor A) :=
  tensor_unsqueeze (unsq_dim self) x.

(** Two tensors with the same size and the same elements. *)
Definition tensor_eq {A : Type} (x y : Tensor A) : Prop :=
  size x = size y /\
  forall idx, in_bounds (size x) idx = true -> get x idx = get y idx.

(** A tensor size holds no negative entry. *)
Definition valid_size (sz : list Z) : Prop := Forall (fun s => 0 <= s) sz.

(** ** Statements about the layers *)

Section LayerStatements.

Context {R : Type} {scalar : Scalar R}.

(** On every tensor of rank [r], [m_out] applied after [m_in] gives back
    the tensor. *)
Definition undoes (m_in m_out : module) (r : nat) : Prop :=
  forall x : Tensor R, rank x = r ->
    exists y z,
      module_forward m_in x = Ok y /\ module_forward m_out y = Ok z /\ tensor_eq z x.

End LayerStatements.

(** ** [GlobalMaxPool2d] *)

(** The maximum of two scalars, as the runtime computes it. *)
Class MaxScalar (R : Type) : Type := {
  rmax : R -> R -> R
}.

Section MaxPool.

Context {R : Type} {scalar : Scalar R} {maxscalar : MaxScalar R}.

(** [t.amax(dim=dims, keepdim=keepdim)]: a reduced dimension of size 0
    leaves nothing to take the maximum of. *)
Definition amax (dims : list nat) (keepdim : bool) (t : Tensor R) : res (Tensor R) :=
  if forallb (fun d => (d <? rank t)%nat) dims then
    if existsb (fun d => nth d (size t) 0 =? 0) dims then Raise IndexError
    else reduce (fun l => fold_left rmax (tl l) (hd rzero l)) dims keepdim t
  else Raise IndexError.

Record GlobalMaxPool2d : Type := mkGlobalMaxPool2d {
  gmp_dim : list nat;
  gmp_keepdim : bool
}.

(** [GlobalMaxPool2d(dim=(2, 3), keepdim=False)] *)
Definition GlobalMaxPool2d_init (dim : list nat) (keepdim : bool) : GlobalMaxPool2d :=
  {| gmp_dim := dim; gmp_keepdim := keepdim |}.

Definition GlobalMaxPool2d_forward (self : GlobalMaxPool2d) (x : Tensor R)
    (output_dict : bool) : res (Tensor R) :=
  amax (gmp_dim self) (gmp_keepdim self) x.

End MaxPool.

#[export] Instance ZMaxScalar : MaxScalar Z := {
  rmax := Z.max
}.

(** ** [Upsample3d] *)

Section Upsample.

Context {R : Type} {scalar : Scalar R}.

(** A Python number. *)
Inductive py_num : Type :=
| PyInt (n : Z)
| PyFloat (f : R).

(** [float(v)] *)
Definition py_float (v : py_num) : R :=
  match v with
  | PyInt n => rofZ n
  | PyFloat f => f
  end.

(** The scale factor as the caller may pass it: an int, a float, a list or
    a tuple of numbers, or [None]. *)
Inductive py_arg : Type :=
| ArgInt (n : Z)
| ArgFloat (f : R)
| ArgList (l : list py_num)
| ArgTuple (l : list py_num)
| ArgNone.

(** The attribute [scale_factor] of [torch.nn.Upsample]: [None], one
    float for every dimension or a tuple of floats. *)
Inductive scale_attr : Type :=
| NoScale
| ScaleAll (f : R)
| ScaleEach (l : list R).

Record nn_Upsample : Type := mk_nn_Upsample {
  up_scale_factor : scale_attr;
  up_mode : string
}.

(** [torch.nn.Upsample(scale_factor=scale_factor)]: the factors of a tuple
    are converted one by one; anything else is converted as one number
    unless it is zero, empty or [None]. *)
Definition nn_Upsample_init (scale_factor : py_arg) : res nn_Upsample :=
  sf <- match scale_factor with
        | ArgTuple l => Ok (ScaleEach (map py_float l))
        | ArgInt n => Ok (if n =? 0 then NoScale else ScaleAll (rofZ n))
        | ArgFloat f => Ok (if rnonzero f then ScaleAll f else NoScale)
        | ArgList [] => Ok NoScale
        | ArgList (_ :: _) => Raise TypeError
        | ArgNone => Ok NoScale
        end ;;
  Ok {| up_scale_factor := sf; up_mode := "nearest" |}.

Definition Upsample3d_init (scale_factor : py_arg) : res nn_Upsample :=
  (* Assert *)
  scale_factor <-
    match scale_factor with
    | ArgInt n => Ok (ArgTuple [PyInt n; PyInt n; PyInt n])
    | ArgList l => py_assert (length l =? 3)%nat ;;; Ok scale_factor
    | ArgTuple l => py_assert (length l =? 3)%nat ;;; Ok scale_factor
    | ArgFloat _ => Raise AssertionError
    | ArgNone => Raise AssertionError
    end ;;
  (* Init *)
  nn_Upsample_init scale_factor.

End Upsample.

(** ** The layer dictionary *)

(** The classes of the module and the classes of the runtime it lists. *)
Inductive layer_class : Type :=
| cls_SwitchLinear | cls_Linear
| cls_Conv1d | cls_Conv2d | cls_Conv3d
| cls_ConvTranspose1d | cls_ConvTranspose2d | cls_ConvTranspose3d
| cls_LSTM | cls_Embedding | cls_Dropout | cls_Upsample3d
| cls_Flatten | cls_Transpose | cls_Permute | cls_Reshape | cls_Unsqueeze
| cls_GlobalAvgPool1d | cls_GlobalAvgPool2d | cls_GlobalMaxPool2d | cls_GlobalAvgPool3d
| nn_MaxPool1d | nn_MaxPool2d | nn_MaxPool3d.

(** [cls.__name__] *)
Definition class_name (c : layer_class) : string :=
  match c with
  | cls_SwitchLinear => "SwitchLinear" | cls_Linear => "Linear"
  | cls_Conv1d => "Conv1d" | cls_Conv2d => "Conv2d" | cls_Conv3d => "Conv3d"
  | cls_ConvTranspose1d => "ConvTranspose1d"
  | cls_ConvTranspose2d => "ConvTranspose2d"
  | cls_ConvTranspose3d => "ConvTranspose3d"
  | cls_LSTM => "LSTM" | cls_Embedding => "Embedding" | cls_Dropout => "Dropout"
  | cls_Upsample3d => "Upsample3d"
  | cls_Flatten => "Flatten" | cls_Transpose => "Transpose" | cls_Permute => "Permute"
  | cls_Reshape => "Reshape" | cls_Unsqueeze => "Unsqueeze"
  | cls_GlobalAvgPool1d => "GlobalAvgPool1d" | cls_GlobalAvgPool2d => "GlobalAvgPool2d"
  | cls_GlobalMaxPool2d => "GlobalMaxPool2d" | cls_GlobalAvgPool3d => "GlobalAvgPool3d"
  | nn_MaxPool1d => "MaxPool1d" | nn_MaxPool2d => "MaxPool2d" | nn_MaxPool3d => "MaxPool3d"
  end.

(** The classes the module defines itself. *)
Definition module_classes : list layer_class :=
  [cls_SwitchLinear; cls_Linear; cls_Conv1d; cls_Conv2d; cls_Conv3d;
   cls_ConvTranspose1d; cls_ConvTranspose2d; cls_ConvTranspose3d;
   cls_LSTM; cls_Embedding; cls_Dropout; cls_Upsample3d;
   cls_Flatten; cls_Transpose; cls_Permute; cls_Reshape; cls_Unsqueeze;
   cls_GlobalAvgPool1d; cls_GlobalAvgPool2d; cls_GlobalMaxPool2d; cls_GlobalAvgPool3d].

Definition layer_dict : list (string * layer_class) :=
  [("Linear", cls_Linear);

   ("Conv1d", cls_Conv1d);
   ("Conv2d", cls_Conv2d);
   ("Conv3d", cls_Conv3d);

   ("ConvTranspose1d", cls_ConvTranspose1d);
   ("ConvTranspose2d", cls_ConvTranspose2d);
   ("ConvTranspose3d", cls_ConvTranspose3d);

   ("MaxPool1d", nn_MaxPool1d);
   ("MaxPool2d", nn_MaxPool2d);
   ("MaxPool3d", nn_MaxPool3d);

   ("Dropout", cls_Dropout);

   ("Flatten", cls_Flatten);
   ("Transpose", cls_Transpose);
   ("Permute", cls_Permute);
   ("Reshape", cls_Reshape);
   ("Unsqueeze", cls_Unsqueeze);
   ("GlobalAvgPool1d", cls_GlobalAvgPool1d);
   ("GlobalAvgPool2d", cls_GlobalAvgPool2d);
   ("GlobalAvgPool3d", cls_GlobalAvgPool3d);
   ("GlobalMaxPool2d", cls_GlobalMaxPool2d)]%string.

(** [layer_dict[name]]; a name that is no key raises [KeyError], here
    [None]. *)
Fixpoint dict_lookup {V : Type} (d : list (string * V)) (name : string) : option V :=
  match d with
  | [] => None
  | (k, v) :: d' => if String.eqb k name then Some v else dict_lookup d' name
  end.

(** * Proofs *)

Unset Implicit Arguments.

(** ** Sequences *)

Lemma zlen_map {A B : Type} (f : A -> B) (l : list A) : zlen (map f l) = zlen l.
Proof. unfold zlen. now rewrite length_map. Qed.

Lemma in_zrange (n k : Z) : In k (zrange n) <-> 0 <= k < n.
Proof.
  unfold zrange. rewrite in_map_iff. split.
  - intros [q [<- Hq]]. apply in_seq in Hq. lia.
  - intros Hk. exists (Z.to_nat k). split; [lia|]. apply in_seq. lia.
Qed.

Lemma nth_error_zrange (n k : Z) :
  0 <= k < n -> nth_error (zrange n) (Z.to_nat k) = Some k.
Proof.
  intros Hk. unfold zrange.
  rewrite nth_error_map, nth_error_seq.
  destruct (Nat.ltb_spec (Z.to_nat k) (Z.to_nat n)) as [_|Hge]; [|lia].
  simpl. f_equal. lia.
Qed.

Lemma py_getitem_nonneg {A : Type} (l : list A) (i : Z) (a : A) :
  0 <= i -> nth_error l (Z.to_nat i) = Some a -> py_getitem l i = Ok a.
Proof.
  intros Hi Hnth. unfold py_getitem.
  assert (Hlt : (Z.to_nat i < length l)%nat) by (apply nth_error_Some; congruence).
  destruct (Z.ltb_spec i 0) as [Hneg|_]; [lia|].
  destruct (Z.leb_spec 0 i) as [_|Hneg]; [|lia].
  destruct (Z.ltb_spec i (zlen l)) as [_|Hge]; [|unfold zlen in Hge; lia].
  simpl. now rewrite Hnth.
Qed.

Lemma py_getitem_map_zrange {A : Type} (f : Z -> A) (n i : Z) :
  0 <= i < n -> py_getitem (map f (zrange n)) i = Ok (f i).
Proof.
  intros Hi. apply py_getitem_nonneg; [lia|].
  rewrite nth_error_map, nth_error_zrange by lia. reflexivity.
Qed.

Lemma mapM_ok_map {A B : Type} (f : A -> res B) (g : A -> B) (l : list A) :
  Forall (fun a => f a = Ok (g a)) l -> mapM f l = Ok (map g l).
Proof.
  induction 1 as [|a l Ha _ IH]; simpl; [reflexivity|].
  now rewrite Ha, IH.
Qed.

Lemma list_eqb_refl (a : list Z) : list_eqb a a = true.
Proof. unfold list_eqb. destruct (list_eq_dec Z.eq_dec a a); congruence. Qed.

(** ** Sizes and broadcasting *)

Lemma bshape_rev_same (a : list Z) : bshape_rev a a = Ok a.
Proof.
  induction a as [|x a IH]; simpl; [reflexivity|].
  now rewrite IH, Z.eqb_refl.
Qed.

Lemma broadcast_shapes_same (a : list Z) : broadcast_shapes a a = Ok a.
Proof.
  unfold broadcast_shapes. rewrite bshape_rev_same. simpl. now rewrite rev_involutive.
Qed.

Lemma in_bounds_length (sz idx : list Z) :
  in_bounds sz idx = true -> length idx = length sz.
Proof.
  revert idx. induction sz as [|s sz IH]; intros [|i idx]; simpl; try discriminate; auto.
  rewrite !andb_true_iff. intros [_ Hb]. f_equal. auto.
Qed.

Lemma map2_bidx_in_bounds (sz idx : list Z) :
  in_bounds sz idx = true ->
  map2 (fun s i => if s =? 1 then 0 else i) sz idx = idx.
Proof.
  revert idx. induction sz as [|s sz IH]; intros [|i idx]; simpl; try discriminate; auto.
  rewrite !andb_true_iff. intros [[H0 Hs] Hb].
  rewrite IH by assumption. f_equal.
  destruct (Z.eqb_spec s 1); lia.
Qed.

Lemma bidx_in_bounds (sz idx : list Z) :
  in_bounds sz idx = true -> bidx sz idx = idx.
Proof.
  intros Hb. unfold bidx.
  rewrite (in_bounds_length _ _ Hb), Nat.sub_diag. simpl.
  now apply map2_bidx_in_bounds.
Qed.

Section TorchFacts.

Context {R : Type} {scalar : Scalar R}.

Lemma binop_same_size (f : R -> R -> R) (a b : Tensor R) :
  size a = size b ->
  binop f a b =
  Ok (mkTensor (size a)
        (fun idx => f (get a (bidx (size a) idx)) (get b (bidx (size b) idx)))).
Proof.
  intros Hs. unfold binop. rewrite <- Hs, broadcast_shapes_same. reflexivity.
Qed.

Lemma stack_same_size (t0 : Tensor R) (ts : list (Tensor R)) (sz : list Z) :
  Forall (fun t => size t = sz) (t0 :: ts) ->
  stack (t0 :: ts) =
  Ok (mkTensor (zlen (t0 :: ts) :: sz)
        (fun idx => match idx with
                    | [] => rzero
                    | i :: idx' => get (znth t0 (t0 :: ts) i) idx'
                    end)).
Proof.
  intros Hall. unfold stack.
  assert (Hsz : size t0 = sz) by now inversion Hall.
  replace (forallb (fun t => list_eqb (size t) (size t0)) (t0 :: ts)) with true.
  - now rewrite Hsz.
  - symmetry. apply forallb_forall. intros t Ht.
    rewrite Forall_forall in Hall. rewrite (Hall t Ht), Hsz. apply list_eqb_refl.
Qed.

Lemma stack_py_some (ts : list (Tensor R)) : stack_py (map Some ts) = stack ts.
Proof.
  unfold stack_py. rewrite (mapM_ok_map _ (fun o => match o with Some t => t | None => mkTensor [] (fun _ => rzero) end)).
  - simpl. rewrite map_map. now rewrite map_id.
  - apply Forall_forall. intros o Ho. apply in_map_iff in Ho. destruct Ho as [t [<- _]]. reflexivity.
Qed.

Lemma stack_map_same_size {A : Type} (f : A -> Tensor R) (l : list A) (d : A) (sz : list Z) :
  l <> [] -> (forall a, size (f a) = sz) ->
  stack (map f l) =
  Ok (mkTensor (zlen l :: sz)
        (fun idx => match idx with
                    | [] => rzero
                    | i :: idx' => get (znth (f (hd d l)) (map f l) i) idx'
                    end)).
Proof.
  intros Hne Hsz. destruct l as [|a l]; [congruence|].
  cbn [map hd]. rewrite (stack_same_size _ _ sz).
  - rewrite <- (map_cons f), zlen_map. reflexivity.
  - rewrite <- (map_cons f). apply Forall_forall. intros t Ht.
    apply in_map_iff in Ht. destruct Ht as [k [<- _]]. apply Hsz.
Qed.

Lemma znth_map {A B : Type} (f : A -> B) (l : list A) (d : A) (d' : B) (i : Z) :
  0 <= i < zlen l -> znth d' (map f l) i = f (znth d l i).
Proof.
  intros Hi. unfold znth. rewrite (nth_indep _ d' (f d)).
  - apply map_nth.
  - rewrite length_map. unfold zlen in Hi. lia.
Qed.


Lemma py_getitem_in {A : Type} (l : list A) (i : Z) (a : A) :
  py_getitem l i = Ok a -> In a l.
Proof.
  unfold py_getitem. destruct (_ && _); [|discriminate].
  destruct (nth_error l _) as [a'|] eqn:Hn; [|discriminate].
  intros [= <-]. eapply nth_error_In; eauto.
Qed.

End TorchFacts.

(** ** [SwitchLinear] *)

Section SwitchLinearFacts.

Context {R : Type} {scalar : Scalar R} {kernels : @Kernels R}.

(** C1 (as amended).  For a [SwitchLinear] built with [bias=True], a batch
    [x] of [N] examples and [N] expert indices all in range, [forward]
    returns a tensor of size (N, out_features), and the expert
    [experts[indices[i]]] applied alone to the example [x[i]] returns one
    of size (out_features).  The element [j] of row [i] and the element
    [j] of the expert's result are made of the same operands: the example
    [x[i]], the row [j] of that expert's weight and the element [j] of its
    bias.  [forward] adds the bias to what the kernel of the batched
    product makes of the two rows; the expert hands all three to the
    linear kernel.  So the two elements are equal exactly when the two
    kernels agree on these operands. *)
Theorem SwitchLinear_forward_row ne in_f out_f init (x : Tensor R) indices N i :
  size x = [N; in_f] -> zlen indices = N ->
  Forall (fun idx => 0 <= idx < ne) indices ->
  0 <= i < N ->
  let self := SwitchLinear_init ne in_f out_f true init in
  exists out e y w b,
    SwitchLinear_forward self x indices = Ok out /\
    size out = [N; out_f] /\
    py_getitem (experts self) (znth 0 indices i) = Ok e /\
    nnl_weight e = w /\ nnl_bias e = Some b /\
    nn_Linear_forward e (select0 i x) = Ok y /\
    size y = [out_f] /\
    forall j, 0 <= j < out_f ->
      let xs := map (fun k => get x [i; k]) (zrange in_f) in
      let ws := map (fun k => get w [j; k]) (zrange in_f) in
      let batched :=
        radd (matmul_dot [N; 1; in_f] [N; in_f; out_f] [i; 0; j] xs ws) (get b [j]) in
      let alone := linear_dot [in_f] [out_f; in_f] [j] xs ws (Some (get b [j])) in
      get out [i; j] = batched /\
      get y [j] = alone /\
      (get out [i; j] = get y [j] <-> batched = alone).
Proof.
  intros Hx HN Hidx Hi self.
  destruct x as [sx gx]. simpl in Hx. subst sx.
  set (E := fun k => nn_Linear_init in_f out_f true (fst (init k)) (snd (init k))).
  assert (Hget : forall idx, 0 <= idx < ne -> py_getitem (experts self) idx = Ok (E idx)).
  { intros idx Hr. unfold self, SwitchLinear_init. simpl. now apply py_getitem_map_zrange. }
  assert (Hne : indices <> []).
  { intros ->. unfold zlen in HN. simpl in HN. lia. }
  assert (Hin : 0 <= znth 0 indices i < ne).
  { rewrite Forall_forall in Hidx. apply Hidx. unfold znth. apply nth_In. unfold zlen in HN. lia. }
  unfold SwitchLinear_forward.
  rewrite (mapM_ok_map _ (fun idx => nnl_weight (E idx))).
  2:{ eapply Forall_impl; [|exact Hidx]. intros a Ha. simpl. now rewrite Hget. }
  rewrite (mapM_ok_map _ (fun idx => nnl_bias (E idx))).
  2:{ eapply Forall_impl; [|exact Hidx]. intros a Ha. simpl. now rewrite Hget. }
  cbn [bind].
  set (B := fun idx => mkTensor [out_f] (snd (init idx))).
  replace (map (fun idx => nnl_bias (E idx)) indices) with (map Some (map B indices))
    by (rewrite map_map; reflexivity).
  rewrite stack_py_some.
  rewrite (stack_map_same_size _ _ 0 [out_f; in_f] Hne) by reflexivity.
  rewrite (stack_map_same_size _ _ 0 [out_f] Hne) by reflexivity.
  rewrite HN.
  eexists. exists (E (znth 0 indices i)). eexists.
  exists (nnl_weight (E (znth 0 indices i))), (B (znth 0 indices i)).
  split.
  { cbn. unfold matmul, matmul_operands, bmm_operands. cbn. rewrite !Z.eqb_refl.
    rewrite broadcast_shapes_same. cbn.
    unfold tadd. rewrite binop_same_size by reflexivity. cbn. reflexivity. }
  split; [reflexivity|].
  split; [now apply Hget|].
  split; [reflexivity|]. split; [reflexivity|].
  split.
  { unfold nn_Linear_forward, F_linear. cbn. unfold matmul_operands, bmm_operands. cbn.
    rewrite !Z.eqb_refl. cbn. rewrite broadcast_shapes_same. cbn. reflexivity. }
  split; [reflexivity|].
  intros j Hj. cbv zeta.
  assert (HiN : (if N =? 1 then 0 else i) = i) by (destruct (Z.eqb_spec N 1); lia).
  assert (Hjo : (if out_f =? 1 then 0 else j) = j) by (destruct (Z.eqb_spec out_f 1); lia).
  cbn. rewrite !HiN, !Hjo.
  rewrite !(znth_map _ _ 0 _) by lia. unfold B. cbn [get].
  split; [reflexivity|]. split; [reflexivity|]. reflexivity.
Qed.

(** C10.  A [SwitchLinear] built with [bias=False] has no forward path:
    whatever the batch and the indices, [forward] raises; so a [forward]
    that returns was called on a module built with [bias=True]. *)
Theorem SwitchLinear_forward_needs_bias ne in_f out_f init (x : Tensor R) indices :
  raises (SwitchLinear_forward (SwitchLinear_init ne in_f out_f false init) x indices) /\
  forall bias,
    is_ok (SwitchLinear_forward (SwitchLinear_init ne in_f out_f bias init) x indices) = true ->
    bias = true.
Proof.
  assert (Hraise : raises (SwitchLinear_forward
                             (SwitchLinear_init ne in_f out_f false init) x indices)).
  { set (self := SwitchLinear_init ne in_f out_f false init).
    assert (Hnone : forall e, In e (experts self) -> nnl_bias e = None).
    { intros e He. unfold self, SwitchLinear_init in He. simpl in He.
      apply in_map_iff in He. destruct He as [k [<- _]]. reflexivity. }
    unfold SwitchLinear_forward.
    destruct (mapM _ indices) as [ws|e] eqn:Hws; [|now exists e].
    cbn [bind].
    destruct (stack ws) as [w|e] eqn:Hst; [|now exists e].
    cbn [bind].
    destruct indices as [|i0 indices'].
    { simpl in Hws. injection Hws as <-. cbn in Hst. discriminate Hst. }
    cbn [mapM] in Hws.
    destruct (py_getitem (experts self) i0) as [e0|e] eqn:Hg;
      [|cbn [bind] in Hws; discriminate Hws].
    clear Hws. set (f := fun index => _).
    assert (Hf : f i0 = Ok None).
    { unfold f. rewrite Hg. simpl. f_equal. apply Hnone. eapply py_getitem_in; eauto. }
    simpl mapM. rewrite Hf. cbn [bind].
    destruct (mapM f indices') as [bs|e]; cbn [bind]; [|now exists e].
    exists TypeError. reflexivity. }
  split; [exact Hraise|].
  intros [|] Hok; [reflexivity|].
  destruct Hraise as [e He]. rewrite He in Hok. discriminate Hok.
Qed.

End SwitchLinearFacts.


(** ** Synaptic noise: [Linear], [LSTM], [Embedding] *)

Lemma py_range_from_zero (n : nat) (s : Z) :
  0 < s -> py_range 0 (Z.of_nat n * s) s = map (fun k => Z.of_nat k * s) (seq 0 n).
Proof.
  intros Hs. unfold py_range, zrange.
  replace ((Z.of_nat n * s - 0 + s - 1) / s) with (Z.of_nat n).
  - rewrite Nat2Z.id, map_map. reflexivity.
  - apply Z.div_unique with (r := s - 1); lia.
Qed.

Lemma length_flat_map_const {A B : Type} (f : A -> list B) (c : nat) (l : list A) :
  (forall a, length (f a) = c) -> length (flat_map f l) = (c * length l)%nat.
Proof.
  intros Hc. induction l as [|a l IH]; simpl; [lia|].
  rewrite length_app, Hc, IH. lia.
Qed.

Lemma getitem_flat_map {A B : Type} (f : A -> list B) (c : nat)
    (pre : list A) (x : A) (suf : list A) (r : nat) (b : B) :
  (forall a, length (f a) = c) ->
  nth_error (f x) r = Some b ->
  py_getitem (flat_map f (pre ++ x :: suf)) (Z.of_nat (c * length pre + r)) = Ok b.
Proof.
  intros Hc Hr. apply py_getitem_nonneg; [lia|].
  rewrite Nat2Z.id, flat_map_app. cbn [flat_map].
  rewrite nth_error_app2; rewrite (length_flat_map_const f c pre Hc); [|lia].
  replace (c * length pre + r - c * length pre)%nat with r by lia.
  rewrite nth_error_app1; [assumption|].
  apply nth_error_Some. congruence.
Qed.

Lemma map_fst_combine {A B : Type} (l : list A) (l' : list B) :
  length l = length l' -> map fst (combine l l') = l.
Proof.
  revert l'. induction l as [|a l IH]; intros [|b l'] Hlen; simpl in *; try discriminate;
    [reflexivity|].
  f_equal. apply IH. lia.
Qed.

Lemma map_snd_combine {A B : Type} (l : list A) (l' : list B) :
  length l = length l' -> map snd (combine l l') = l'.
Proof.
  revert l'. induction l as [|a l IH]; intros [|b l'] Hlen; simpl in *; try discriminate;
    [reflexivity|].
  f_equal. apply IH. lia.
Qed.

Lemma nth_error_combine {A B : Type} (l : list A) (l' : list B) (k : nat) (a : A) (b : B) :
  nth_error l k = Some a -> nth_error l' k = Some b ->
  nth_error (combine l l') k = Some (a, b).
Proof.
  revert l l'. induction k as [|k IH]; intros [|x l] [|y l'] Ha Hb; simpl in *;
    try discriminate.
  - now injection Ha as ->; injection Hb as ->.
  - now apply IH.
Qed.

Section NoiseFacts.

Context {R : Type} {scalar : Scalar R} {kernels : @Kernels R} {sampler : @Sampler R}
  {recurrent : @Recurrent R}.

Lemma tadd_same_size (a b : Tensor R) :
  size b = size a ->
  exists c, tadd a b = Ok c /\ size c = size a /\
    forall idx, in_bounds (size a) idx = true -> get c idx = radd (get a idx) (get b idx).
Proof.
  intros Hs. unfold tadd. rewrite binop_same_size by congruence.
  eexists. split; [reflexivity|]. split; [reflexivity|].
  intros idx Hb. cbn [get]. rewrite Hs. now rewrite bidx_in_bounds.
Qed.

(** C2.  In evaluation mode the stored noise has no influence: for each of
    [Linear], [LSTM] and [Embedding] with the training flag off, two runs
    of [forward] on the same input that differ only in the stored noise
    samples and magnitude return the same result, and so does a run after
    [sample_synaptic_noise] compared with a run before it. *)
Theorem eval_forward_ignores_noise (lin : Linear) (lstm : LSTM) (emb : Embedding) :
  lin_training lin = false -> lstm_training lstm = false -> emb_training emb = false ->
  (forall n1 v1 n2 v2 x,
     Linear_forward (Linear_with_noise lin n1 v1) x
     = Linear_forward (Linear_with_noise lin n2 v2) x) /\
  (forall d g x,
     Linear_forward (fst (Linear_sample_synaptic_noise lin d g)) x = Linear_forward lin x) /\
  (forall n1 v1 n2 v2 input hx,
     LSTM_forward (LSTM_with_noise lstm n1 v1) input hx
     = LSTM_forward (LSTM_with_noise lstm n2 v2) input hx) /\
  (forall d g lstm' g' input hx,
     LSTM_sample_synaptic_noise lstm d g = Ok (lstm', g') ->
     LSTM_forward lstm' input hx = LSTM_forward lstm input hx) /\
  (forall n1 v1 n2 v2 input,
     Embedding_forward (Embedding_with_noise emb n1 v1) input
     = Embedding_forward (Embedding_with_noise emb n2 v2) input) /\
  (forall d g input,
     Embedding_forward (fst (Embedding_sample_synaptic_noise emb d g)) input
     = Embedding_forward emb input).
Proof.
  intros Hlin Hlstm Hemb.
  assert (HL : forall n v x, Linear_forward (Linear_with_noise lin n v) x
                             = F_linear x (nnl_weight (lin_super lin)) (nnl_bias (lin_super lin))).
  { intros n v x. unfold Linear_forward. cbn [Linear_with_noise lin_noise lin_training lin_super lin_vn_std].
    rewrite Hlin. now destruct n. }
  assert (HW : forall n v, LSTM_weight (LSTM_with_noise lstm n v) = Ok (flat_weights lstm)).
  { intros n v. unfold LSTM_weight. cbn. rewrite Hlstm. now destruct n. }
  assert (HW0 : LSTM_weight lstm = Ok (flat_weights lstm)).
  { unfold LSTM_weight. rewrite Hlstm. now destruct (lstm_noises lstm). }
  assert (HS : forall n v input hx, LSTM_forward (LSTM_with_noise lstm n v) input hx
                                    = LSTM_forward lstm input hx).
  { intros n v input hx. unfold LSTM_forward. rewrite HW, HW0. reflexivity. }
  assert (HE : forall n v input, Embedding_forward (Embedding_with_noise emb n v) input
                                 = F_embedding input (emb_weight emb)).
  { intros n v input. unfold Embedding_forward. cbn. rewrite Hemb. now destruct n. }
  repeat split.
  - intros. now rewrite !HL.
  - intros d g x. unfold Linear_sample_synaptic_noise.
    destruct (torch_normal _ g) as [noise g']. cbn [fst]. rewrite HL.
    unfold Linear_forward. rewrite Hlin. now destruct (lin_noise lin).
  - intros. now rewrite !HS.
  - intros d g lstm' g' input hx Hs. unfold LSTM_sample_synaptic_noise in Hs.
    destruct (sample_loop _ _ _ _) as [[noises g1]|e]; [|discriminate Hs].
    cbn in Hs. injection Hs as <- _. apply HS.
  - intros. now rewrite !HE.
  - intros d g input. unfold Embedding_sample_synaptic_noise.
    destruct (torch_normal _ g) as [noise g']. cbn [fst]. rewrite HE.
    unfold Embedding_forward. rewrite Hemb. now destruct (emb_noise emb).
Qed.


Lemma getitem_group (pre : list (@lstm_group R)) (g : @lstm_group R) (suf : list (@lstm_group R))
    (r : nat) (i : Z) (a : Tensor R) :
  nth_error (group_weights g) r = Some a ->
  i = Z.of_nat (length pre) * 4 + Z.of_nat r ->
  py_getitem (flat_map group_weights (pre ++ g :: suf)) i = Ok a.
Proof.
  intros Hr ->.
  replace (Z.of_nat (length pre) * 4 + Z.of_nat r) with (Z.of_nat (4 * length pre + r)) by lia.
  now apply getitem_flat_map.
Qed.

Lemma getitem_noise (pre : list (Tensor R * Tensor R)) (n : Tensor R * Tensor R)
    (suf : list (Tensor R * Tensor R)) (r : nat) (i : Z) (a : Tensor R) :
  nth_error [fst n; snd n] r = Some a ->
  i = Z.of_nat (length pre) * 2 + Z.of_nat r ->
  py_getitem (noise_list (pre ++ n :: suf)) i = Ok a.
Proof.
  intros Hr ->. unfold noise_list.
  replace (Z.of_nat (length pre) * 2 + Z.of_nat r) with (Z.of_nat (2 * length pre + r)) by lia.
  now apply getitem_flat_map.
Qed.

Lemma sample_loop_groups (suf pre : list (@lstm_group R)) (acc : list (Tensor R)) (g : rng) :
  exists ns g',
    sample_loop (flat_map group_weights (pre ++ suf))
      (map (fun k => Z.of_nat k * 4) (seq (length pre) (length suf))) acc g
    = Ok (acc ++ noise_list ns, g') /\
    Forall2 sized_like suf ns.
Proof.
  revert pre acc g. induction suf as [|x suf IH]; intros pre acc g.
  - exists [], g. simpl. rewrite app_nil_r. split; [reflexivity|constructor].
  - cbn [length seq map sample_loop].
    rewrite (getitem_group pre x suf 0%nat _ (weight_ih x)) by (reflexivity || lia).
    cbn [bind].
    unfold torch_normal at 1. destruct (normal_values g (size (weight_ih x))) as [v0 g1].
    rewrite (getitem_group pre x suf 1%nat _ (weight_hh x)) by (reflexivity || lia).
    cbn [bind].
    unfold torch_normal at 1. destruct (normal_values g1 (size (weight_hh x))) as [v1 g2].
    specialize (IH (pre ++ [x]) (acc ++ [mkTensor (size (weight_ih x)) v0;
                                         mkTensor (size (weight_hh x)) v1]) g2).
    rewrite <- app_assoc in IH. cbn [app] in IH.
    rewrite length_app in IH. cbn [length] in IH.
    replace (length pre + 1)%nat with (S (length pre)) in IH by lia.
    destruct IH as [ns [g' [IH Hsz]]].
    exists ((mkTensor (size (weight_ih x)) v0, mkTensor (size (weight_hh x)) v1) :: ns), g'.
    split.
    + rewrite IH. rewrite <- app_assoc. reflexivity.
    + constructor; [split; reflexivity|assumption].
Qed.

Lemma noise_loop_groups (m : R) (suf pre : list (@lstm_group R * (Tensor R * Tensor R)))
    (acc : list (Tensor R)) :
  noise_loop (flat_map group_weights (map fst (pre ++ suf)))
    (noise_list (map snd (pre ++ suf))) (Some m)
    (map (fun k => Z.of_nat k * 2) (seq (length pre) (length suf))) acc
  = (ws <- mapM (perturb_group m) suf ;; Ok (acc ++ concat ws)).
Proof.
  revert pre acc. induction suf as [|[x n] suf IH]; intros pre acc.
  - simpl. now rewrite app_nil_r.
  - cbn [length seq map noise_loop mapM].
    rewrite !map_app. cbn [map fst snd].
    assert (Hlen1 : length (map fst pre) = length pre) by apply length_map.
    assert (Hlen2 : length (map snd pre) = length pre) by apply length_map.
    rewrite (getitem_group (map fst pre) x (map fst suf) 0%nat _ (weight_ih x))
      by (reflexivity || lia).
    rewrite (getitem_noise (map snd pre) n (map snd suf) 0%nat _ (fst n))
      by (reflexivity || lia).
    cbn [bind vn_scale perturb_group].
    destruct (tadd (weight_ih x) (scale m (fst n))) as [p0|e]; cbn [bind]; [|reflexivity].
    rewrite (getitem_group (map fst pre) x (map fst suf) 1%nat _ (weight_hh x))
      by (reflexivity || lia).
    rewrite (getitem_noise (map snd pre) n (map snd suf) 1%nat _ (snd n))
      by (reflexivity || lia).
    cbn [bind vn_scale].
    destruct (tadd (weight_hh x) (scale m (snd n))) as [p1|e]; cbn [bind]; [|reflexivity].
    rewrite (getitem_group (map fst pre) x (map fst suf) 2%nat _ (bias_ih x))
      by (reflexivity || lia).
    rewrite (getitem_group (map fst pre) x (map fst suf) 3%nat _ (bias_hh x))
      by (reflexivity || lia).
    cbn [bind].
    specialize (IH (pre ++ [(x, n)]) (acc ++ [p0; p1; bias_ih x; bias_hh x])).
    rewrite <- !app_assoc in IH. cbn [app] in IH.
    rewrite !map_app in IH. cbn [map fst snd] in IH.
    rewrite length_app in IH. cbn [length] in IH.
    replace (length pre + 1)%nat with (S (length pre)) in IH by lia.
    rewrite IH.
    destruct (mapM (perturb_group m) suf) as [ws|e]; cbn [bind concat]; [|reflexivity].
    now rewrite <- app_assoc.
Qed.

Lemma perturb_group_ok (m : R) (g : @lstm_group R) (n : Tensor R * Tensor R) :
  sized_like g n ->
  exists p0 p1,
    perturb_group m (g, n) = Ok [p0; p1; bias_ih g; bias_hh g] /\
    tadd (weight_ih g) (scale m (fst n)) = Ok p0 /\
    tadd (weight_hh g) (scale m (snd n)) = Ok p1.
Proof.
  intros [Hs0 Hs1].
  destruct (tadd_same_size (weight_ih g) (scale m (fst n)) Hs0) as [p0 [Hp0 _]].
  destruct (tadd_same_size (weight_hh g) (scale m (snd n)) Hs1) as [p1 [Hp1 _]].
  exists p0, p1. cbn [perturb_group]. rewrite Hp0, Hp1. now repeat split.
Qed.

Lemma perturbed_weights_ok (m : R) (gns : list (@lstm_group R * (Tensor R * Tensor R))) :
  Forall (fun gn => sized_like (fst gn) (snd gn)) gns ->
  exists ws, perturbed_weights m gns = Ok ws.
Proof.
  unfold perturbed_weights.
  induction 1 as [|[g n] gns Hs _ [ws IH]]; [now exists []|].
  cbn [fst snd] in Hs.
  destruct (perturb_group_ok m _ _ Hs) as [p0 [p1 [Hp _]]].
  cbn [mapM]. rewrite Hp. cbn [bind].
  destruct (mapM (perturb_group m) gns) as [wss|e]; [|discriminate IH].
  eexists. reflexivity.
Qed.

Lemma Forall2_combine {A B : Type} (P : A -> B -> Prop) (l : list A) (l' : list B) :
  Forall2 P l l' -> Forall (fun p => P (fst p) (snd p)) (combine l l').
Proof. induction 1; simpl; constructor; assumption. Qed.

(** In training mode, with the noise list laid out group by group, the loop
    of [forward] computes the perturbed weight list of the specification. *)
Lemma LSTM_weight_training (self : LSTM) (m : R)
    (gns : list (@lstm_group R * (Tensor R * Tensor R))) :
  lstm_training self = true ->
  flat_weights self = flat_map group_weights (map fst gns) ->
  lstm_noises self = Some (noise_list (map snd gns)) ->
  lstm_vn_std self = Some m ->
  LSTM_weight self = perturbed_weights m gns.
Proof.
  intros Htr Hflat Hnoise Hm. unfold LSTM_weight. rewrite Hnoise, Htr, Hm, Hflat.
  replace (zlen (noise_list (map snd gns))) with (Z.of_nat (length gns) * 2).
  2:{ unfold zlen, noise_list. rewrite (length_flat_map_const _ 2) by reflexivity.
      rewrite length_map. lia. }
  rewrite py_range_from_zero by lia.
  apply (noise_loop_groups m gns [] []).
Qed.

Lemma perturbed_weights_positions (m : R) (gns : list (@lstm_group R * (Tensor R * Tensor R)))
    (ws : list (Tensor R)) (k : nat) (g : lstm_group) (n : Tensor R * Tensor R) :
  perturbed_weights m gns = Ok ws ->
  nth_error gns k = Some (g, n) ->
  exists p0 p1,
    tadd (weight_ih g) (scale m (fst n)) = Ok p0 /\
    tadd (weight_hh g) (scale m (snd n)) = Ok p1 /\
    nth_error ws (4 * k) = Some p0 /\
    nth_error ws (4 * k + 1) = Some p1 /\
    nth_error ws (4 * k + 2) = Some (bias_ih g) /\
    nth_error ws (4 * k + 3) = Some (bias_hh g).
Proof.
  unfold perturbed_weights.
  revert ws k. induction gns as [|[g0 n0] gns IH]; intros ws k Hws Hk.
  - destruct k; discriminate Hk.
  - cbn [mapM] in Hws. cbn [perturb_group] in Hws.
    destruct (tadd (weight_ih g0) (scale m (fst n0))) as [p0|e] eqn:Hp0; [|discriminate Hws].
    destruct (tadd (weight_hh g0) (scale m (snd n0))) as [p1|e] eqn:Hp1; [|discriminate Hws].
    cbn [bind] in Hws.
    destruct (mapM (perturb_group m) gns) as [wss|e] eqn:Hwss; [|discriminate Hws].
    cbn [bind concat app] in Hws. injection Hws as <-.
    destruct k as [|k].
    + injection Hk as -> ->. exists p0, p1. now repeat split.
    + cbn [nth_error] in Hk.
      destruct (IH (concat wss) k eq_refl Hk) as [q0 [q1 [Hq0 [Hq1 [Hn0 [Hn1 [Hn2 Hn3]]]]]]].
      exists q0, q1.
      replace (4 * S k)%nat with (S (S (S (S (4 * k))))) by lia.
      now repeat split.
Qed.

Lemma LSTM_forward_weight (a b : LSTM) :
  LSTM_weight a = LSTM_weight b ->
  lstm_input_size a = lstm_input_size b ->
  lstm_hidden_size a = lstm_hidden_size b ->
  lstm_num_layers a = lstm_num_layers b ->
  lstm_batch_first a = lstm_batch_first b ->
  lstm_bidirectional a = lstm_bidirectional b ->
  lstm_bias a = lstm_bias b ->
  lstm_dropout a = lstm_dropout b ->
  lstm_training a = lstm_training b ->
  forall input hx, LSTM_forward a input hx = LSTM_forward b input hx.
Proof.
  intros HW E1 E2 E3 E4 E5 E6 E7 E8 input hx. unfold LSTM_forward.
  now rewrite HW, E1, E2, E3, E4, E5, E6, E7, E8.
Qed.

(** C6.  For a recurrent layer of any number of (layer, direction) groups in
    training mode with magnitude [m]: [sample_synaptic_noise] returns, with
    one pair of noise tensors per group, each of the size of the group's
    two weights, in the order of the flattened list; and the weight list
    [ws] that [forward] hands to the primitive is, group by group,
    [weight_ih + m * n], [weight_hh + m * n'], [bias_ih], [bias_hh]: the
    biases are the original tensors at their original positions.  On a
    padded and on a packed sequence alike, [forward] is the one call of
    [_VF.lstm] on the input, the initial state and this list [ws], after
    the argument check and before the hidden state is put back in order. *)
Theorem LSTM_noise_alignment (self : LSTM) (groups : list lstm_group) (m : R)
    (distributed : bool) (g : rng) :
  flat_weights self = flat_map group_weights groups ->
  lstm_vn_std self = Some m ->
  lstm_training self = true ->
  exists self' g' ns ws,
    LSTM_sample_synaptic_noise self distributed g = Ok (self', g') /\
    lstm_noises self' = Some (noise_list ns) /\
    Forall2 sized_like groups ns /\
    LSTM_weight self' = Ok ws /\
    perturbed_weights m (combine groups ns) = Ok ws /\
    (forall k grp n,
       nth_error groups k = Some grp -> nth_error ns k = Some n ->
       exists p0 p1,
         tadd (weight_ih grp) (scale m (fst n)) = Ok p0 /\
         tadd (weight_hh grp) (scale m (snd n)) = Ok p1 /\
         nth_error ws (4 * k) = Some p0 /\
         nth_error ws (4 * k + 1) = Some p1 /\
         nth_error ws (4 * k + 2) = Some (bias_ih grp) /\
         nth_error ws (4 * k + 3) = Some (bias_hh grp)) /\
    (forall input hx,
       LSTM_forward self' input hx
       = LSTM_forward (LSTM_with_noise (LSTM_with_weights self ws) None (Some m)) input hx) /\
    (forall x hx,
       LSTM_forward self' (Padded x) hx
       = (n <- tensor_size x (if lstm_batch_first self then 0 else 1)%nat ;;
          let zeros := torch_zeros [lstm_num_layers self
                                    * (if lstm_bidirectional self then 2 else 1);
                                    n; lstm_hidden_size self] in
          let hx0 := match hx with
                     | Some (h, c) => [h; c]
                     | None => [zeros; zeros]
                     end in
          check_forward_args (lstm_input_size self) (lstm_hidden_size self)
            (lstm_num_layers self) (lstm_batch_first self) (lstm_bidirectional self)
            x hx0 None ;;;
          result <- VF_lstm x None hx0 ws (lstm_bias self) (lstm_num_layers self)
                      (lstm_dropout self) true (lstm_bidirectional self)
                      (Some (lstm_batch_first self)) ;;
          output <- py_getitem result 0 ;;
          Ok (Padded output, tl result))) /\
    (forall p hx,
       LSTM_forward self' (Packed p) hx
       = (n <- match size (ps_batch_sizes p) with
               | n :: _ => if 0 <? n then Ok (get (ps_batch_sizes p) [0])
                           else Raise IndexError
               | [] => Raise IndexError
               end ;;
          let zeros := torch_zeros [lstm_num_layers self
                                    * (if lstm_bidirectional self then 2 else 1);
                                    n; lstm_hidden_size self] in
          hx0 <- match hx with
                 | Some (h, c) => permute_hidden [h; c] (ps_sorted_indices p)
                 | None => Ok [zeros; zeros]
                 end ;;
          check_forward_args (lstm_input_size self) (lstm_hidden_size self)
            (lstm_num_layers self) (lstm_batch_first self) (lstm_bidirectional self)
            (ps_data p) hx0 (Some (ps_batch_sizes p)) ;;;
          result <- VF_lstm (ps_data p) (Some (ps_batch_sizes p)) hx0 ws (lstm_bias self)
                      (lstm_num_layers self) (lstm_dropout self) true
                      (lstm_bidirectional self) None ;;
          output <- py_getitem result 0 ;;
          hidden <- permute_hidden (tl result) (ps_unsorted_indices p) ;;
          Ok (Packed (mkPackedSequence output (ps_batch_sizes p) (ps_sorted_indices p)
                        (ps_unsorted_indices p)), hidden))).
Proof.
  intros Hflat Hm Htr.
  destruct (sample_loop_groups groups [] [] g) as [ns0 [g' [Hloop Hsz0]]].
  cbn [app length] in Hloop.
  set (ns := if distributed
             then map (fun n => (dist_broadcast (fst n), dist_broadcast (snd n))) ns0
             else ns0).
  assert (Hns : (if distributed then map dist_broadcast (noise_list ns0) else noise_list ns0)
                = noise_list ns).
  { unfold ns. destruct distributed; [|reflexivity].
    unfold noise_list. rewrite !flat_map_concat_map, concat_map, !map_map. reflexivity. }
  assert (Hsz : Forall2 sized_like groups ns).
  { unfold ns. destruct distributed; [|assumption].
    clear -Hsz0. induction Hsz0 as [|x n l l' [Ha Hb] _ IH]; constructor; [|assumption].
    split; assumption. }
  assert (Hlen : length ns = length groups) by (symmetry; eapply Forall2_length; eauto).
  set (self' := LSTM_with_noise self (Some (noise_list ns)) (lstm_vn_std self)).
  destruct (perturbed_weights_ok m _ (Forall2_combine _ _ _ Hsz)) as [ws Hws].
  assert (HW : LSTM_weight self' = Ok ws).
  { rewrite <- Hws. apply LSTM_weight_training; cbn [LSTM_with_noise lstm_training
      flat_weights lstm_noises lstm_vn_std]; try assumption.
    - now rewrite map_fst_combine by lia.
    - now rewrite map_snd_combine by lia. }
  exists self', g', ns, ws.
  split.
  { unfold LSTM_sample_synaptic_noise. rewrite Hflat.
    replace (zlen (flat_map group_weights groups)) with (Z.of_nat (length groups) * 4).
    2:{ unfold zlen. rewrite (length_flat_map_const _ 4) by reflexivity. lia. }
    rewrite py_range_from_zero by lia. rewrite Hloop. cbn [bind].
    rewrite Hns. reflexivity. }
  split; [reflexivity|].
  split; [assumption|].
  split; [assumption|].
  split; [assumption|].
  split; [|split; [|split]].
  - intros k grp n Hg Hn.
    eapply perturbed_weights_positions; [exact Hws|]. now apply nth_error_combine.
  - apply LSTM_forward_weight; try reflexivity.
    rewrite HW. reflexivity.
  - intros x hx. unfold LSTM_forward. rewrite HW.
    cbn [self' LSTM_with_noise lstm_input_size lstm_hidden_size lstm_num_layers
         lstm_batch_first lstm_bidirectional lstm_bias lstm_dropout lstm_training].
    rewrite Htr.
    destruct (tensor_size x _) as [n|e]; [|reflexivity]. cbn [bind].
    destruct hx as [[h c]|]; cbn [bind permute_hidden];
      destruct (check_forward_args _ _ _ _ _ _ _ _); cbn [bind]; try reflexivity;
      destruct (VF_lstm _ _ _ _ _ _ _ _ _ _) as [result|e]; cbn [bind]; try reflexivity;
      destruct (py_getitem result 0); reflexivity.
  - intros p hx. unfold LSTM_forward. rewrite HW.
    cbn [self' LSTM_with_noise lstm_input_size lstm_hidden_size lstm_num_layers
         lstm_batch_first lstm_bidirectional lstm_bias lstm_dropout lstm_training].
    rewrite Htr.
    destruct (match size (ps_batch_sizes p) with [] => _ | _ :: _ => _ end) as [n|e];
      [|reflexivity].
    cbn [bind].
    destruct hx as [[h c]|]; cbn [bind];
      [destruct (permute_hidden [h; c] (ps_sorted_indices p)) as [hx0|e]; [|reflexivity]|];
      cbn [bind];
      destruct (check_forward_args _ _ _ _ _ _ _ _); cbn [bind]; try reflexivity;
      destruct (VF_lstm _ _ _ _ _ _ _ _ _ _) as [result|e]; cbn [bind]; try reflexivity;
      destruct (py_getitem result 0); cbn [bind]; try reflexivity;
      destruct (permute_hidden _ _); reflexivity.
Qed.

(** Sampling stores a noise tensor of the size of the weight and leaves the
    magnitude, the parameters and the training flag as they are. *)
Lemma Linear_sample_synaptic_noise_sized (self : Linear) (distributed : bool) (g : rng) :
  exists e,
    fst (Linear_sample_synaptic_noise self distributed g)
    = Linear_with_noise self (Some e) (lin_vn_std self) /\
    size e = size (nnl_weight (lin_super self)).
Proof.
  unfold Linear_sample_synaptic_noise, torch_normal.
  destruct (normal_values g _) as [v g']. cbn [fst].
  eexists. split; [reflexivity|]. now destruct distributed.
Qed.

Lemma Embedding_sample_synaptic_noise_sized (self : Embedding) (distributed : bool)
    (g : rng) :
  exists e,
    fst (Embedding_sample_synaptic_noise self distributed g)
    = Embedding_with_noise self (Some e) (emb_vn_std self) /\
    size e = size (emb_weight self).
Proof.
  unfold Embedding_sample_synaptic_noise, torch_normal.
  destruct (normal_values g _) as [v g']. cbn [fst].
  eexists. split; [reflexivity|]. now destruct distributed.
Qed.

End NoiseFacts.


(** ** Convolutions: padding modes *)

(** ** Indices *)

Lemma in_bounds_nth (sz idx : list Z) :
  in_bounds sz idx = true <->
  length idx = length sz /\
  forall k, (k < length sz)%nat -> 0 <= nth k idx 0 < nth k sz 0.
Proof.
  revert idx. induction sz as [|s sz IH]; intros [|i idx]; simpl.
  - split; [intros _; split; [reflexivity|intros k Hk; lia]|reflexivity].
  - split; [discriminate|intros [Hl _]; discriminate].
  - split; [discriminate|intros [Hl _]; discriminate].
  - rewrite !andb_true_iff, IH, Z.leb_le, Z.ltb_lt. split.
    + intros [Hi [Hl Hk]]. split; [now f_equal|].
      intros [|k] Hlt; [assumption|]. apply Hk. lia.
    + intros [Hl Hk]. split; [apply (Hk 0%nat); lia|].
      split; [now injection Hl|]. intros k Hlt. apply (Hk (S k)). lia.
Qed.

Lemma all_indices_in_bounds (sz idx : list Z) :
  In idx (all_indices sz) -> in_bounds sz idx = true.
Proof.
  revert idx. induction sz as [|s sz IH]; intros idx Hin; simpl in Hin.
  - destruct Hin as [<-|[]]. reflexivity.
  - apply in_flat_map in Hin. destruct Hin as [i [Hi Hin]].
    apply in_map_iff in Hin. destruct Hin as [idx' [<- Hin]].
    apply in_zrange in Hi. simpl.
    rewrite (IH _ Hin), andb_true_r. apply andb_true_iff. split; [apply Z.leb_le|apply Z.ltb_lt]; lia.
Qed.

Lemma in_bounds3_inv (s0 s1 s2 : Z) (idx : list Z) :
  in_bounds [s0; s1; s2] idx = true ->
  exists a b c, idx = [a; b; c] /\ 0 <= a < s0 /\ 0 <= b < s1 /\ 0 <= c < s2.
Proof.
  intros Hb. pose proof (in_bounds_length _ _ Hb) as Hl.
  destruct idx as [|a [|b [|c [|]]]]; try discriminate Hl.
  cbn [in_bounds] in Hb. rewrite !andb_true_iff, !Z.leb_le, !Z.ltb_lt in Hb.
  exists a, b, c. repeat split; lia.
Qed.

Lemma length_map2 {A B C : Type} (f : A -> B -> C) (la : list A) (lb : list B) :
  length (map2 f la lb) = Nat.min (length la) (length lb).
Proof.
  revert lb. induction la as [|a la IH]; intros [|b lb]; simpl; auto.
Qed.

Lemma nth_map2 {A B C : Type} (f : A -> B -> C) (la : list A) (lb : list B)
    (k : nat) (da : A) (db : B) (dc : C) :
  (k < length la)%nat -> (k < length lb)%nat ->
  nth k (map2 f la lb) dc = f (nth k la da) (nth k lb db).
Proof.
  revert la lb. induction k as [|k IH]; intros [|a la] [|b lb] Ha Hb; simpl in *; try lia.
  - reflexivity.
  - apply IH; lia.
Qed.

Section ConvFacts.

Context {R : Type} {scalar : Scalar R}.

Lemma rsum_map_ext {A : Type} (f g : A -> R) (l : list A) :
  (forall a, In a l -> f a = g a) -> rsum (map f l) = rsum (map g l).
Proof. intros Hfg. f_equal. now apply map_ext_in. Qed.

(** Padding reads the input at the index shifted by the left amounts. *)
Lemma constant_pad_inv (padding : list Z) (x xp : Tensor R) :
  constant_pad padding x = Ok xp ->
  let dp := dim_pads (rank x) padding in
  size xp = map2 (fun s p => s + fst p + snd p) (size x) dp /\
  forall idx, get xp idx =
              if in_bounds (size x) (map2 (fun i p => i - fst p) idx dp)
              then get x (map2 (fun i p => i - fst p) idx dp) else rzero.
Proof.
  unfold constant_pad. destruct (_ && _); [|discriminate].
  destruct (forallb _ _); [|discriminate].
  intros [= <-]. split; reflexivity.
Qed.

Lemma constant_pad_size_only (padding : list Z) (x x' xp : Tensor R) :
  size x = size x' ->
  constant_pad padding x = Ok xp ->
  exists xp', constant_pad padding x' = Ok xp' /\ size xp' = size xp.
Proof.
  intros Hs. unfold constant_pad, rank. rewrite <- Hs.
  destruct (_ && _); [|discriminate].
  destruct (forallb _ _); [|discriminate].
  intros [= <-]. eexists. split; reflexivity.
Qed.

Lemma length_dim_pads (r : nat) (padding : list Z) :
  (length (pad_pairs padding) <= r)%nat -> length (dim_pads r padding) = r.
Proof.
  intros Hle. unfold dim_pads. rewrite length_app, repeat_length, length_rev. lia.
Qed.

(** Padding keeps agreement, shifted by the left amount of the dimension. *)
Lemma constant_pad_agree (padding : list Z) (x x' xp xp' : Tensor R) (dim : nat) (t : Z) :
  agree_upto dim t x x' ->
  constant_pad padding x = Ok xp ->
  constant_pad padding x' = Ok xp' ->
  (dim < rank x)%nat ->
  forall idx,
    nth dim idx 0 - fst (nth dim (dim_pads (rank x) padding) (0, 0)) <= t ->
    get xp idx = get xp' idx.
Proof.
  intros [Hs Hag] Hp Hp' Hdim idx Ht.
  assert (Hlen : length (dim_pads (rank x) padding) = rank x).
  { apply length_dim_pads. unfold constant_pad in Hp.
    destruct (Nat.even _); [|discriminate Hp]. simpl in Hp.
    destruct (Nat.leb_spec (length (pad_pairs padding)) (rank x)); [assumption|discriminate Hp]. }
  destruct (constant_pad_inv _ _ _ Hp) as [_ Hg].
  destruct (constant_pad_inv _ _ _ Hp') as [_ Hg'].
  rewrite Hg, Hg'. unfold rank in *. rewrite <- Hs.
  set (src := map2 _ idx _).
  destruct (in_bounds (size x) src) eqn:Hb; [|reflexivity].
  apply Hag; [assumption|].
  pose proof (in_bounds_length _ _ Hb) as Hl.
  unfold src in Hl. rewrite length_map2, Hlen in Hl.
  unfold src. rewrite (nth_map2 _ _ _ _ 0 (0, 0) 0) by lia. exact Ht.
Qed.


Lemma F_conv_inv (x weight : Tensor R) (bias : option (Tensor R))
    (stride dilation : list Z) (groups : Z) (y : Tensor R) :
  F_conv x weight bias stride dilation groups = Ok y ->
  exists n c sp o cg ks osp,
    size x = n :: c :: sp /\ size weight = o :: cg :: ks /\
    conv_out_size sp ks stride dilation = Ok osp /\
    y = mkTensor (n :: o :: osp)
          (conv_value x weight bias stride dilation groups o cg ks).
Proof.
  unfold F_conv.
  destruct (size x) as [|n [|c sp]] eqn:Hx; try discriminate.
  destruct (size weight) as [|o [|cg ks]] eqn:Hw; try discriminate.
  destruct (_ && _); [|discriminate].
  destruct (conv_out_size sp ks stride dilation) as [osp|e] eqn:Ho; [|discriminate].
  intros [= <-]. exists n, c, sp, o, cg, ks, osp. repeat split; assumption.
Qed.

Lemma F_conv_size_only (x x' weight : Tensor R) (bias : option (Tensor R))
    (stride dilation : list Z) (groups : Z) (y : Tensor R) :
  size x = size x' ->
  F_conv x weight bias stride dilation groups = Ok y ->
  exists y', F_conv x' weight bias stride dilation groups = Ok y' /\ size y' = size y.
Proof.
  intros Hs. unfold F_conv. rewrite <- Hs.
  destruct (size x) as [|n [|c sp]]; try discriminate.
  destruct (size weight) as [|o [|cg ks]]; try discriminate.
  destruct (_ && _); [|discriminate].
  destruct (conv_out_size sp ks stride dilation) as [osp|e]; [|discriminate].
  intros [= <-]. eexists. split; reflexivity.
Qed.

(** The receptive field along the first spatial dimension: the output at
    position [p] reads the input at positions up to
    [p * stride + (k - 1) * dilation]. *)
Lemma F_conv_agree (x x' weight : Tensor R) (bias : option (Tensor R))
    (s0 d0 k0 : Z) (st dl : list Z) (groups : Z) (y y' : Tensor R) (T : Z) :
  size x = size x' ->
  (forall idx, nth 2 idx 0 <= T -> get x idx = get x' idx) ->
  nth 2 (size weight) 0 = k0 ->
  0 <= d0 ->
  F_conv x weight bias (s0 :: st) (d0 :: dl) groups = Ok y ->
  F_conv x' weight bias (s0 :: st) (d0 :: dl) groups = Ok y' ->
  forall idx, nth 2 idx 0 * s0 + (k0 - 1) * d0 <= T -> get y idx = get y' idx.
Proof.
  intros Hs Hag Hk Hd Hy Hy' idx Ht.
  destruct (F_conv_inv _ _ _ _ _ _ _ Hy) as (n & c & sp & o & cg & ks & osp & Hx & Hw & Ho & ->).
  assert (Hks : exists ks0, ks = k0 :: ks0).
  { rewrite Hw in Hk. cbn [nth] in Hk.
    destruct sp, ks as [|k ks0]; try discriminate Ho. exists ks0.
    cbn [nth] in Hk. now subst k. }
  destruct Hks as [ks0 ->]. clear Hk.
  destruct (F_conv_inv _ _ _ _ _ _ _ Hy') as (n' & c' & sp' & o' & cg' & ks' & osp' & Hx' & Hw' & _ & ->).
  rewrite Hw in Hw'. injection Hw' as <- <- <-.
  cbn [get]. unfold conv_value.
  assert (Hsum : forall oc b pos g,
             hd 0 pos * s0 + (k0 - 1) * d0 <= T ->
             rsum (map (fun ci => rmul (get weight (oc :: ci))
                                   (get x (b :: g * cg + hd 0 ci
                                             :: conv_src pos (tl ci) (s0 :: st) (d0 :: dl))))
                       (all_indices (cg :: k0 :: ks0)))
             = rsum (map (fun ci => rmul (get weight (oc :: ci))
                                     (get x' (b :: g * cg + hd 0 ci
                                                :: conv_src pos (tl ci) (s0 :: st) (d0 :: dl))))
                         (all_indices (cg :: k0 :: ks0)))).
  { intros oc b pos g Hpos. apply rsum_map_ext. intros ci Hci. f_equal. apply Hag.
    apply all_indices_in_bounds in Hci.
    destruct ci as [|ch [|kp0 kp]]; simpl in Hci; try discriminate.
    - rewrite andb_false_r in Hci. discriminate.
    - rewrite !andb_true_iff, Z.leb_le, !Z.ltb_lt in Hci.
      destruct Hci as [_ [[Hk0 Hk1] _]]. rewrite Z.leb_le in Hk0.
      cbn [tl]. destruct pos as [|p0 pos']; cbn [conv_src nth hd] in *; nia. }
  assert (Hpos : hd 0 (tl (tl idx)) * s0 + (k0 - 1) * d0 <= T).
  { destruct idx as [|a [|b0 [|p0 rest]]]; cbn [tl hd nth] in *; assumption. }
  rewrite (Hsum _ _ _ _ Hpos). reflexivity.
Qed.

End ConvFacts.

Lemma nth_map_in_range {A B : Type} (f : A -> B) (l : list A) (k : nat) (d : A) (d' : B) :
  (k < length l)%nat -> nth k (map f l) d' = f (nth k l d).
Proof.
  intros Hk. rewrite (nth_indep _ d' (f d)) by (rewrite length_map; lia).
  apply map_nth.
Qed.

Lemma index_of_spec (k : nat) (dims : list nat) :
  existsb (Nat.eqb k) dims = true ->
  (index_of k dims < length dims)%nat /\ nth (index_of k dims) dims 0%nat = k.
Proof.
  induction dims as [|d dims IH]; simpl; [discriminate|].
  rewrite Nat.eqb_sym.
  destruct (Nat.eqb_spec d k) as [->|Hne]; simpl.
  - intros _. split; [lia|reflexivity].
  - intros Hex. destruct (IH Hex) as [Hlt Hnth]. split; [lia|assumption].
Qed.

Section PermuteFacts.

Context {A : Type}.

Lemma permute_inv (dims : list nat) (x xp : Tensor A) :
  permute dims x = Ok xp ->
  length dims = rank x /\
  (forall k, (k < rank x)%nat -> existsb (Nat.eqb k) dims = true) /\
  xp = mkTensor (map (fun d => nth d (size x) 0) dims)
         (fun idx => get x (permuted_index dims idx)).
Proof.
  unfold permute.
  destruct (Nat.eqb_spec (length dims) (rank x)) as [Hlen|]; [|discriminate].
  destruct (forallb _ _) eqn:Hall; [|discriminate].
  intros [= <-]. split; [assumption|]. split; [|reflexivity].
  intros k Hk. rewrite forallb_forall in Hall. apply Hall. apply in_seq. lia.
Qed.

Lemma permute_size_only {B : Type} (dims : list nat) (x xp : Tensor A) (x' : Tensor B) :
  size x = size x' ->
  permute dims x = Ok xp ->
  exists xp', permute dims x' = Ok xp' /\ size xp' = size xp.
Proof.
  intros Hs. unfold permute, rank. rewrite <- Hs.
  destruct (_ && _); [|discriminate].
  intros [= <-]. eexists. split; reflexivity.
Qed.

Lemma nth_permuted_index (dims : list nat) (idx : list Z) (m : nat) :
  (m < length dims)%nat ->
  nth m (permuted_index dims idx) 0 = nth (index_of m dims) idx 0.
Proof.
  intros Hm. unfold permuted_index.
  rewrite (nth_map_in_range _ _ _ 0%nat) by (rewrite length_seq; lia).
  rewrite seq_nth by lia. reflexivity.
Qed.

Lemma permute_in_bounds (dims : list nat) (x xp : Tensor A) (idx : list Z) :
  permute dims x = Ok xp ->
  in_bounds (size xp) idx = true ->
  in_bounds (size x) (permuted_index dims idx) = true.
Proof.
  intros Hp Hb. destruct (permute_inv _ _ _ Hp) as [Hlen [Hex ->]].
  cbn [size] in Hb. apply in_bounds_nth in Hb. destruct Hb as [Hl Hk].
  rewrite length_map in Hl, Hk.
  apply in_bounds_nth. unfold rank in *. split.
  - unfold permuted_index. rewrite length_map, length_seq. assumption.
  - intros k Hlt. rewrite nth_permuted_index by lia.
    destruct (index_of_spec k dims (Hex k Hlt)) as [Hi Hn].
    specialize (Hk _ Hi).
    rewrite (nth_map_in_range _ _ _ 0%nat) in Hk by lia.
    rewrite Hn in Hk. exact Hk.
Qed.

End PermuteFacts.

Section CausalFacts.

Context {R : Type} {scalar : Scalar R}.

Lemma conv_out_size_length (sp ks stride dilation osp : list Z) :
  conv_out_size sp ks stride dilation = Ok osp ->
  length sp = length ks /\ length stride = length ks.
Proof.
  revert ks stride dilation osp.
  induction sp as [|l sp IH]; intros [|k ks] [|s st] [|d dl] osp; simpl; try discriminate.
  - intros _. split; reflexivity.
  - destruct (conv_out_len l k s d); simpl; [|discriminate].
    destruct (conv_out_size sp ks st dl) eqn:Ho; simpl; [|discriminate].
    intros _. destruct (IH _ _ _ _ Ho) as [Ha Hb]. simpl. rewrite Ha, Hb. split; reflexivity.
Qed.

Lemma module_forward_size_only (m : module) (x x' y : Tensor R) :
  size x = size x' ->
  module_forward m x = Ok y ->
  exists y', module_forward m x' = Ok y' /\ size y' = size y.
Proof.
  intros Hs. destruct m as [|padding|dims]; cbn [module_forward].
  - intros [= <-]. exists x'. split; [reflexivity|congruence].
  - now apply constant_pad_size_only.
  - now apply permute_size_only.
Qed.

Lemma native_pad_zero (padding : list Z) (x : Tensor R) :
  forallb (Z.eqb 0) padding = true -> native_pad padding x = Ok x.
Proof. intros Hz. unfold native_pad. now rewrite Hz. Qed.

Lemma constant_pad_rank (padding : list Z) (x xp : Tensor R) :
  constant_pad padding x = Ok xp -> rank xp = rank x.
Proof.
  intros Hp. pose proof (constant_pad_inv _ _ _ Hp) as [Hs _].
  unfold rank. rewrite Hs, length_map2, length_dim_pads; [unfold rank; lia|].
  unfold constant_pad in Hp. destruct (Nat.even _); [|discriminate Hp]. simpl in Hp.
  destruct (Nat.leb_spec (length (pad_pairs padding)) (rank x)); [assumption|discriminate Hp].
Qed.

Lemma Conv_forward_causal (self : Conv) (padding : list Z) (td : nat) (st dl : list Z)
    (x x' y : Tensor R) (t : Z) :
  pre_padding self = ConstantPad padding ->
  forallb (Z.eqb 0) (nnc_padding (conv_super self)) = true ->
  nnc_stride (conv_super self) = 1 :: st ->
  nnc_dilation (conv_super self) = 1 :: dl ->
  fst (nth 2 (dim_pads (rank (conv_weight (conv_super self))) padding) (0, 0))
  = nth 2 (size (conv_weight (conv_super self))) 0 - 1 ->
  causal_layout (input_permute self) (output_permute self) td ->
  agree_upto td t x x' ->
  Conv_forward self x = Ok y ->
  exists y',
    Conv_forward self x' = Ok y' /\ size y' = size y /\
    forall idx, nth td idx 0 <= t -> get y idx = get y' idx.
Proof.
  intros Hpre Hzero Hst Hdl Hleft Hlay [Hsz Hag] Hfw.
  unfold Conv_forward in *. rewrite Hpre in *. cbn [module_forward] in *.
  unfold nn_Conv_forward in *. rewrite Hst, Hdl in *.
  destruct (module_forward (input_permute self) x) as [x1|e] eqn:H1; [|discriminate Hfw].
  cbn [bind] in Hfw.
  destruct (constant_pad padding x1) as [x2|e] eqn:H2; [|discriminate Hfw].
  cbn [bind] in Hfw. rewrite native_pad_zero in Hfw by assumption. cbn [bind] in Hfw.
  destruct (F_conv x2 _ _ _ _ _) as [y0|e] eqn:H3; [|discriminate Hfw].
  cbn [bind] in Hfw.
  destruct (module_forward_size_only _ _ _ _ Hsz H1) as [x1' [H1' Hs1]].
  destruct (constant_pad_size_only _ _ _ _ (eq_sym Hs1) H2) as [x2' [H2' Hs2]].
  destruct (F_conv_size_only _ _ _ _ _ _ _ _ (eq_sym Hs2) H3) as [y0' [H3' Hs3]].
  destruct (module_forward_size_only _ _ _ _ (eq_sym Hs3) Hfw) as [y' [H4' Hs4]].
  exists y'. rewrite H1'. cbn [bind]. rewrite H2'. cbn [bind].
  rewrite native_pad_zero by assumption. cbn [bind]. rewrite H3'. cbn [bind].
  split; [assumption|]. split; [assumption|].
  (* the rank of the padded input is the rank of the weight *)
  destruct (F_conv_inv _ _ _ _ _ _ _ H3) as (n & c & sp & o & cg & ks & osp & Hx2 & Hw & Ho & _).
  destruct (conv_out_size_length _ _ _ _ _ Ho) as [Hlsp Hlst].
  assert (Hrank : rank x1 = rank (conv_weight (conv_super self))).
  { rewrite <- (constant_pad_rank _ _ _ H2). unfold rank. rewrite Hx2, Hw. simpl. lia. }
  assert (Hr3 : (2 < rank x1)%nat).
  { rewrite Hrank. unfold rank. rewrite Hw. simpl in *. lia. }
  (* agreement after the input permutation *)
  assert (Hag1 : agree_upto 2 t x1 x1').
  { split; [congruence|].
    destruct Hlay as [[Hin [_ ->]]|(din & dout & Hin & _ & Htd & Hio & _)];
      rewrite Hin in H1, H1'; cbn [module_forward] in H1, H1'.
    - injection H1 as <-. injection H1' as <-. assumption.
    - intros idx Hb Ht. pose proof (permute_in_bounds _ _ _ _ H1 Hb) as Hb'.
      destruct (permute_inv _ _ _ H1) as [_ [_ ->]].
      destruct (permute_inv _ _ _ H1') as [_ [_ ->]]. cbn [get].
      apply Hag; [assumption|]. rewrite nth_permuted_index, Hio by assumption. exact Ht. }
  (* agreement after padding and after the convolution *)
  assert (Hag3 : forall idx, nth 2 idx 0 <= t -> get y0 idx = get y0' idx).
  { intros idx Ht.
    refine (F_conv_agree x2 x2' _ _ 1 1 (nth 2 (size (conv_weight (conv_super self))) 0)
              st dl _ y0 y0' (t + (nth 2 (size (conv_weight (conv_super self))) 0 - 1))
              _ _ eq_refl _ H3 H3' idx _); [congruence| |lia|lia].
    intros I HI. apply (constant_pad_agree padding x1 x1' x2 x2' 2 t Hag1 H2 H2' Hr3).
    rewrite Hrank, Hleft. lia. }
  (* the output permutation *)
  destruct Hlay as [[_ [Hout ->]]|(din & dout & _ & Hout & _ & _ & Hl2 & Hoi)];
    rewrite Hout in Hfw, H4'; cbn [module_forward] in Hfw, H4'.
  - injection Hfw as <-. injection H4' as <-. assumption.
  - destruct (permute_inv _ _ _ Hfw) as [_ [_ ->]].
    destruct (permute_inv _ _ _ H4') as [_ [_ ->]]. cbn [get].
    intros idx Ht. apply Hag3. rewrite nth_permuted_index, Hoi by assumption. exact Ht.
Qed.

End CausalFacts.

Section CausalLayers.

Context {R : Type} {scalar : Scalar R}.

Lemma nn_ConvNd_init_inv (nd : nat) (tr : bool) (in_c out_c : Z)
    (ks st pad dl op : int_or_tuple) (groups : Z) (bias : bool) (pm : string)
    (w0 b0 : list Z -> R) (super : nn_ConvNd) :
  nn_ConvNd_init nd tr in_c out_c ks st pad dl op groups bias pm w0 b0 = Ok super ->
  super =
  {| nnc_in_channels := in_c;
     nnc_out_channels := out_c;
     nnc_kernel_size := ntuple nd ks;
     nnc_stride := ntuple nd st;
     nnc_padding := ntuple nd pad;
     nnc_dilation := ntuple nd dl;
     nnc_transposed := tr;
     nnc_output_padding := ntuple nd op;
     nnc_groups := groups;
     nnc_padding_mode := pm;
     conv_weight :=
       mkTensor (if tr then in_c :: out_c / groups :: ntuple nd ks
                 else out_c :: in_c / groups :: ntuple nd ks) w0;
     conv_bias := if bias then Some (mkTensor [out_c] b0) else None |}.
Proof.
  unfold nn_ConvNd_init.
  destruct (groups <=? 0); [discriminate|].
  destruct (negb _); [discriminate|].
  destruct (negb _); [discriminate|].
  destruct (negb _); [discriminate|].
  now intros [= <-].
Qed.

Lemma hd_cons_inv (l : list Z) : hd 0 l = 1 -> exists l', l = 1 :: l'.
Proof. destruct l as [|a l']; simpl; [lia|]. intros ->. now exists l'. Qed.

(** C4 (as amended).  For [Conv1d] and [Conv3d] built with mode causal,
    with stride 1 and dilation 1 along the first spatial dimension, the
    pre-padding of that dimension is left = k - 1, right = 0, and the
    output at positions up to [t] along it is the same for two inputs that
    agree at all positions up to [t]: it does not depend on the input at
    positions greater than [t].  The dimension is number 2 of the index, or
    number 1 when the layer is channels last. *)
Theorem causal_conv_no_future_leakage (in_c out_c : Z) (ks st dl : int_or_tuple)
    (groups : Z) (bias : bool) (pm : string) (cl : bool) (w0 b0 : list Z -> R)
    (self : Conv) (x x' y : Tensor R) (t : Z) :
  (Conv1d_init in_c out_c ks st dl groups bias pm "causal" cl w0 b0 = Ok self /\
   length (ntuple 1 ks) = 1%nat) \/
  (Conv3d_init in_c out_c ks st dl groups bias pm "causal" cl w0 b0 = Ok self /\
   length (ntuple 3 ks) = 3%nat) ->
  hd 0 (nnc_stride (conv_super self)) = 1 ->
  hd 0 (nnc_dilation (conv_super self)) = 1 ->
  agree_upto (if cl then 1 else 2) t x x' ->
  Conv_forward self x = Ok y ->
  (exists rest,
     pre_padding self
     = ConstantPad (rest ++ [hd 0 (nnc_kernel_size (conv_super self)) - 1; 0])) /\
  exists y',
    Conv_forward self x' = Ok y' /\ size y' = size y /\
    forall idx, nth (if cl then 1 else 2) idx 0 <= t -> get y idx = get y' idx.
Proof.
  intros Hinit Hs Hd Hag Hfw.
  destruct (hd_cons_inv _ Hs) as [st' Hst]. destruct (hd_cons_inv _ Hd) as [dl' Hdl].
  destruct Hinit as [[Hinit Hk]|[Hinit Hk]].
  - unfold Conv1d_init in Hinit.
    destruct (nn_ConvNd_init _ _ _ _ _ _ _ _ _ _ _ _ _ _) as [super|e] eqn:Hsup;
      [|discriminate Hinit].
    apply nn_ConvNd_init_inv in Hsup.
    destruct (ntuple 1 ks) as [|k [|]] eqn:Hks; try discriminate Hk.
    subst super. cbn in Hinit. injection Hinit as <-.
    cbn [conv_super nnc_kernel_size hd pre_padding].
    split; [now exists []|].
    eapply Conv_forward_causal with (padding := [k - 1; 0]); try eassumption;
      try reflexivity.
    destruct cl; [right|left]; cbn.
    + exists [0; 2; 1]%nat, [0; 2; 1]%nat. repeat split; try reflexivity; simpl; lia.
    + repeat split.
  - unfold Conv3d_init in Hinit.
    destruct (nn_ConvNd_init _ _ _ _ _ _ _ _ _ _ _ _ _ _) as [super|e] eqn:Hsup;
      [|discriminate Hinit].
    apply nn_ConvNd_init_inv in Hsup.
    destruct (ntuple 3 ks) as [|k0 [|k1 [|k2 [|]]]] eqn:Hks; try discriminate Hk.
    subst super. cbn in Hinit. injection Hinit as <-.
    cbn [conv_super nnc_kernel_size hd pre_padding].
    split; [now exists [k2 / 2; (k2 - 1) / 2; k1 / 2; (k1 - 1) / 2]|].
    eapply Conv_forward_causal
      with (padding := [k2 / 2; (k2 - 1) / 2; k1 / 2; (k1 - 1) / 2; k0 - 1; 0]);
      try eassumption; try reflexivity.
    destruct cl; [right|left]; cbn.
    + exists [0; 4; 1; 2; 3]%nat, [0; 2; 3; 4; 1]%nat. repeat split; try reflexivity; simpl; lia.
    + repeat split.
Qed.

End CausalLayers.

Lemma half_sum (k : Z) : k / 2 + (k - 1) / 2 = k - 1.
Proof. Z.div_mod_to_equations. lia. Qed.

Lemma pad_pairs_same (ks : list Z) :
  pad_pairs (flat_map (fun k => [k / 2; (k - 1) / 2]) ks)
  = map (fun k => (k / 2, (k - 1) / 2)) ks.
Proof. induction ks as [|k ks IH]; simpl; [reflexivity|]. now rewrite IH. Qed.

Lemma dim_pads_same (ks : list Z) :
  dim_pads (2 + length ks) (same_padding ks)
  = (0, 0) :: (0, 0) :: map (fun k => (k / 2, (k - 1) / 2)) ks.
Proof.
  unfold dim_pads, same_padding. rewrite pad_pairs_same, length_map, length_rev.
  replace (2 + length ks - length ks)%nat with 2%nat by lia.
  rewrite <- map_rev, rev_involutive. reflexivity.
Qed.

Lemma conv_out_len_unit (l k o : Z) :
  conv_out_len l k 1 1 = Ok o -> o = l - k + 1.
Proof.
  unfold conv_out_len. destruct (_ && _); [|discriminate].
  intros Heq. assert (Ho : o = (l - 1 * (k - 1) - 1) / 1 + 1) by congruence.
  rewrite Z.mul_1_l, Z.div_1_r in Ho. lia.
Qed.

Lemma conv_out_size_same (sp ks st dl osp : list Z) :
  Forall (eq 1) st -> Forall (eq 1) dl ->
  conv_out_size (map2 (fun s p => s + fst p + snd p) sp
                   (map (fun k => (k / 2, (k - 1) / 2)) ks)) ks st dl = Ok osp ->
  length sp = length ks ->
  osp = sp.
Proof.
  revert ks st dl osp.
  induction sp as [|l sp IH]; intros [|k ks] st dl osp Hst Hdl Ho Hlen;
    simpl in Hlen; try discriminate.
  - destruct st, dl; simpl in Ho; try discriminate. now injection Ho as <-.
  - destruct st as [|s st], dl as [|d dl]; cbn [conv_out_size map2 map] in Ho;
      try discriminate.
    inversion Hst as [|? ? <- Hst']; subst. inversion Hdl as [|? ? <- Hdl']; subst.
    destruct (conv_out_len _ k 1 1) as [o|e] eqn:Hol; [|discriminate Ho].
    cbn [bind] in Ho.
    destruct (conv_out_size _ ks st dl) as [os|e] eqn:Hos; [|discriminate Ho].
    cbn [bind] in Ho. injection Ho as <-.
    rewrite (IH ks st dl os Hst' Hdl' Hos) by lia.
    apply conv_out_len_unit in Hol. cbn [fst snd] in Hol.
    f_equal. pose proof (half_sum k). lia.
Qed.

Section SameFacts.

Context {R : Type} {scalar : Scalar R}.

(** With the padding of mode same, stride 1 and dilation 1, the padded
    convolution keeps the spatial size. *)
Lemma same_padded_conv_size (weight : Tensor R) (bias : option (Tensor R))
    (st dl : list Z) (groups : Z) (x1 x2 y0 : Tensor R) (o cg : Z) (ks : list Z) :
  size weight = o :: cg :: ks ->
  Forall (eq 1) st -> Forall (eq 1) dl ->
  constant_pad (same_padding ks) x1 = Ok x2 ->
  F_conv x2 weight bias st dl groups = Ok y0 ->
  exists n c sp, size x1 = n :: c :: sp /\ size y0 = n :: o :: sp.
Proof.
  intros Hw Hst Hdl Hp Hc.
  destruct (F_conv_inv _ _ _ _ _ _ _ Hc)
    as (n & c & sp2 & o' & cg' & ks' & osp & Hx2 & Hw' & Ho & ->).
  rewrite Hw in Hw'. injection Hw' as <- <- <-.
  destruct (conv_out_size_length _ _ _ _ _ Ho) as [Hlsp _].
  pose proof (constant_pad_rank _ _ _ Hp) as Hrank.
  destruct (constant_pad_inv _ _ _ Hp) as [Hs2 _]. cbn zeta in Hs2.
  assert (Hr : rank x1 = (2 + length ks)%nat).
  { rewrite <- Hrank. unfold rank. rewrite Hx2. simpl. lia. }
  rewrite Hr, dim_pads_same in Hs2.
  unfold rank in Hr.
  destruct (size x1) as [|n1 [|c1 sp]]; simpl in Hr; try lia.
  rewrite Hx2 in Hs2. cbn [map2 fst snd] in Hs2. injection Hs2 as -> -> ->.
  exists n1, c1, sp. split; [reflexivity|]. cbn [size].
  rewrite (conv_out_size_same sp ks st dl osp Hst Hdl Ho) by lia.
  f_equal. lia.
Qed.

End SameFacts.

Section SameLayers.

Context {R : Type} {scalar : Scalar R}.

(** The stages of [Conv.forward] when it returns. *)
Lemma Conv_forward_inv (self : Conv) (x y : Tensor R) :
  Conv_forward self x = Ok y ->
  exists x1 x2 x3 y0,
    module_forward (input_permute self) x = Ok x1 /\
    module_forward (pre_padding self) x1 = Ok x2 /\
    native_pad (nnc_padding (conv_super self)) x2 = Ok x3 /\
    F_conv x3 (conv_weight (conv_super self)) (conv_bias (conv_super self))
      (nnc_stride (conv_super self)) (nnc_dilation (conv_super self))
      (nnc_groups (conv_super self)) = Ok y0 /\
    module_forward (output_permute self) y0 = Ok y.
Proof.
  unfold Conv_forward, nn_Conv_forward.
  destruct (module_forward (input_permute self) x) as [x1|e] eqn:E1; [|discriminate].
  cbn [bind].
  destruct (module_forward (pre_padding self) x1) as [x2|e] eqn:E2; [|discriminate].
  cbn [bind].
  destruct (native_pad _ x2) as [x3|e] eqn:E3; [|discriminate]. cbn [bind].
  destruct (F_conv x3 _ _ _ _ _) as [y0|e] eqn:E4; [|discriminate]. cbn [bind].
  intros Hy. exists x1, x2, x3, y0. repeat split; assumption.
Qed.

(** A layer whose pre-padding is that of mode same for its kernel, with no
    native padding, stride 1 and dilation 1, keeps the spatial size; [cl]
    tells which of the two layouts its permutations implement. *)
Lemma Conv_forward_same (self : Conv) (cl : bool) (o cg : Z) (ks : list Z)
    (x y : Tensor R) :
  size (conv_weight (conv_super self)) = o :: cg :: ks ->
  pre_padding self = ConstantPad (same_padding ks) ->
  forallb (Z.eqb 0) (nnc_padding (conv_super self)) = true ->
  Forall (eq 1) (nnc_stride (conv_super self)) ->
  Forall (eq 1) (nnc_dilation (conv_super self)) ->
  (cl = false /\ input_permute self = Identity /\ output_permute self = Identity) \/
  (cl = true /\
   ((length ks = 1%nat /\ input_permute self = Permute [0; 2; 1]%nat /\
     output_permute self = Permute [0; 2; 1]%nat) \/
    (length ks = 2%nat /\ input_permute self = Permute [0; 3; 1; 2]%nat /\
     output_permute self = Permute [0; 2; 3; 1]%nat) \/
    (length ks = 3%nat /\ input_permute self = Permute [0; 4; 1; 2; 3]%nat /\
     output_permute self = Permute [0; 2; 3; 4; 1]%nat))) ->
  Conv_forward self x = Ok y ->
  spatial_size cl (size y) = spatial_size cl (size x).
Proof.
  intros Hw Hpre Hzero Hst Hdl Hlay Hfw.
  destruct (Conv_forward_inv _ _ _ Hfw) as (x1 & x2 & x3 & y0 & H1 & H2 & H3 & H4 & H5).
  rewrite native_pad_zero in H3 by assumption. injection H3 as <-.
  rewrite Hpre in H2. cbn [module_forward] in H2.
  destruct (same_padded_conv_size _ _ _ _ _ _ _ _ _ _ _ Hw Hst Hdl H2 H4)
    as (n & c & sp & Hx1 & Hy0).
  assert (Hlen : length sp = length ks).
  { destruct (F_conv_inv _ _ _ _ _ _ _ H4)
      as (n' & c' & sp2 & o' & cg' & ks' & osp & Hx2 & Hw' & Ho & ->).
    rewrite Hw in Hw'. injection Hw' as <- <- <-.
    cbn [size] in Hy0. injection Hy0 as _ ->.
    destruct (conv_out_size_length _ _ _ _ _ Ho) as [Hl _].
    pose proof (constant_pad_rank _ _ _ H2) as Hr. unfold rank in Hr.
    rewrite Hx2, Hx1 in Hr. simpl in Hr. lia. }
  destruct Hlay as [(-> & Hin & Hout)|[-> Hlay]].
  - rewrite Hin in H1. rewrite Hout in H5. cbn [module_forward] in H1, H5.
    injection H1 as <-. injection H5 as <-. rewrite Hx1, Hy0. reflexivity.
  - destruct Hlay as [(Hk & Hin & Hout)|[(Hk & Hin & Hout)|(Hk & Hin & Hout)]];
      rewrite Hin in H1; rewrite Hout in H5; cbn [module_forward] in H1, H5;
      destruct (permute_inv _ _ _ H1) as [Hr1 [_ ->]];
      destruct (permute_inv _ _ _ H5) as [_ [_ ->]];
      cbn [size] in Hx1 |- *; rewrite Hy0; rewrite Hk in Hlen;
      unfold rank in Hr1; cbn [length] in Hr1.
    + destruct (size x) as [|a [|b [|d [|]]]]; try discriminate Hr1.
      cbn in Hx1. injection Hx1 as <- <- <-. reflexivity.
    + destruct (size x) as [|a [|b [|d [|e [|]]]]]; try discriminate Hr1.
      cbn in Hx1. injection Hx1 as <- <- <-. reflexivity.
    + destruct (size x) as [|a [|b [|d [|e [|f [|]]]]]]; try discriminate Hr1.
      cbn in Hx1. injection Hx1 as <- <- <-. reflexivity.
Qed.

(** C5 (as amended).  For [Conv1d], [Conv2d] and [Conv3d] built with mode
    same, with stride 1 and dilation 1, the pre-padding is left = k // 2,
    right = (k - 1) // 2 per dimension and the spatial size of the output
    of [forward] equals the spatial size of its input. *)
Theorem same_conv_keeps_length (in_c out_c : Z) (ks st dl : int_or_tuple)
    (groups : Z) (bias : bool) (pm : string) (cl : bool) (w0 b0 : list Z -> R)
    (self : Conv) (x y : Tensor R) :
  (Conv1d_init in_c out_c ks st dl groups bias pm "same" cl w0 b0 = Ok self /\
   length (ntuple 1 ks) = 1%nat) \/
  (Conv2d_init in_c out_c ks st dl groups bias pm "same" cl w0 b0 = Ok self /\
   length (ntuple 2 ks) = 2%nat) \/
  (Conv3d_init in_c out_c ks st dl groups bias pm "same" cl w0 b0 = Ok self /\
   length (ntuple 3 ks) = 3%nat) ->
  Forall (eq 1) (nnc_stride (conv_super self)) ->
  Forall (eq 1) (nnc_dilation (conv_super self)) ->
  Conv_forward self x = Ok y ->
  pre_padding self = ConstantPad (same_padding (nnc_kernel_size (conv_super self))) /\
  spatial_size cl (size y) = spatial_size cl (size x).
Proof.
  intros Hinit Hst Hdl Hfw.
  destruct Hinit as [[Hinit Hk]|[[Hinit Hk]|[Hinit Hk]]].
  - unfold Conv1d_init in Hinit.
    destruct (nn_ConvNd_init _ _ _ _ _ _ _ _ _ _ _ _ _ _) as [super|e] eqn:Hsup;
      [|discriminate Hinit].
    apply nn_ConvNd_init_inv in Hsup.
    destruct (ntuple 1 ks) as [|k [|]] eqn:Hks; try discriminate Hk.
    subst super. cbn in Hinit. injection Hinit as <-.
    split; [reflexivity|].
    eapply Conv_forward_same with (ks := [k]); try eassumption; try reflexivity.
    destruct cl; [right; split; [reflexivity|left]|left]; cbn; auto.
  - unfold Conv2d_init in Hinit.
    destruct (nn_ConvNd_init _ _ _ _ _ _ _ _ _ _ _ _ _ _) as [super|e] eqn:Hsup;
      [|discriminate Hinit].
    apply nn_ConvNd_init_inv in Hsup.
    destruct (ntuple 2 ks) as [|k0 [|k1 [|]]] eqn:Hks; try discriminate Hk.
    subst super. cbn in Hinit. injection Hinit as <-.
    split; [reflexivity|].
    eapply Conv_forward_same with (ks := [k0; k1]); try eassumption; try reflexivity.
    destruct cl; [right; split; [reflexivity|right; left]|left]; cbn; auto.
  - unfold Conv3d_init in Hinit.
    destruct (nn_ConvNd_init _ _ _ _ _ _ _ _ _ _ _ _ _ _) as [super|e] eqn:Hsup;
      [|discriminate Hinit].
    apply nn_ConvNd_init_inv in Hsup.
    destruct (ntuple 3 ks) as [|k0 [|k1 [|k2 [|]]]] eqn:Hks; try discriminate Hk.
    subst super. cbn in Hinit. injection Hinit as <-.
    split; [reflexivity|].
    eapply Conv_forward_same with (ks := [k0; k1; k2]); try eassumption; try reflexivity.
    destruct cl; [right; split; [reflexivity|right; right]|left]; cbn; auto.
Qed.

End SameLayers.

Section Totality.

Context {R : Type} {scalar : Scalar R}.

Lemma nn_ConvNd_init_groups (nd : nat) (tr : bool) (in_c out_c : Z)
    (ks st pad dl op : int_or_tuple) (groups : Z) (bias : bool) (pm : string)
    (w0 b0 : list Z -> R) (super : nn_ConvNd) :
  nn_ConvNd_init nd tr in_c out_c ks st pad dl op groups bias pm w0 b0 = Ok super ->
  0 < groups /\ in_c mod groups = 0 /\ out_c mod groups = 0.
Proof.
  unfold nn_ConvNd_init.
  destruct (Z.leb_spec groups 0); [discriminate|].
  destruct (Z.eqb_spec (in_c mod groups) 0); [|discriminate].
  destruct (Z.eqb_spec (out_c mod groups) 0); [|discriminate].
  intros _. repeat split; assumption.
Qed.

(** In mode same with stride 1 and dilation 1, [Conv1d.forward] returns on
    every batch of the layer's channel count and of positive length, with
    an output of that length. *)
Lemma Conv1d_same_forward_total (in_c out_c : Z) (ks st dl : int_or_tuple)
    (groups : Z) (bias : bool) (pm : string) (w0 b0 : list Z -> R)
    (self : Conv) (k n l : Z) (x : Tensor R) :
  Conv1d_init in_c out_c ks st dl groups bias pm "same" false w0 b0 = Ok self ->
  ntuple 1 ks = [k] -> ntuple 1 st = [1] -> ntuple 1 dl = [1] ->
  0 < k -> 0 <= n -> 0 <= in_c -> 0 < l ->
  size x = [n; in_c; l] ->
  exists y, Conv1d_forward self x = Ok y /\ size y = [n; out_c; l].
Proof.
  intros Hinit Hks Hst Hdl Hk Hn Hc Hl Hx.
  unfold Conv1d_init in Hinit.
  destruct (nn_ConvNd_init _ _ _ _ _ _ _ _ _ _ _ _ _ _) as [super|e] eqn:Hsup;
    [|discriminate Hinit].
  destruct (nn_ConvNd_init_groups _ _ _ _ _ _ _ _ _ _ _ _ _ _ _ Hsup) as (Hg & Hin & Hout).
  apply nn_ConvNd_init_inv in Hsup. subst super.
  rewrite Hks, Hst, Hdl in Hinit. cbn in Hinit. injection Hinit as <-.
  destruct x as [sx gx]. cbn [size] in Hx. subst sx.
  pose proof (half_sum k) as Hhalf.
  assert (Hcg : in_c + 0 + 0 = in_c / groups * groups).
  { rewrite (Z.div_mod in_c groups) at 1 by lia. rewrite Hin. lia. }
  unfold Conv1d_forward, Conv_forward, nn_Conv_forward.
  cbn [input_permute pre_padding output_permute conv_super module_forward bind
       nnc_padding nnc_stride nnc_dilation nnc_groups conv_weight conv_bias].
  unfold constant_pad.
  cbn [length pad_pairs rank size Nat.even Nat.leb andb dim_pads Nat.sub repeat rev app
       map2 fst snd forallb].
  replace (0 <=? n + 0 + 0) with true by (symmetry; apply Z.leb_le; lia).
  replace (0 <=? in_c + 0 + 0) with true by (symmetry; apply Z.leb_le; lia).
  replace (0 <=? l + k / 2 + (k - 1) / 2) with true by (symmetry; apply Z.leb_le; lia).
  cbn [andb bind native_pad forallb Z.eqb].
  unfold F_conv. cbn [size].
  replace (0 <? groups) with true by (symmetry; apply Z.ltb_lt; lia).
  replace (in_c + 0 + 0 =? in_c / groups * groups) with true
    by (symmetry; apply Z.eqb_eq; exact Hcg).
  replace (out_c mod groups =? 0) with true by (symmetry; apply Z.eqb_eq; exact Hout).
  replace (match (if bias then Some (mkTensor [out_c] b0) else None) with
           | Some b => list_eqb (size b) [out_c]
           | None => true
           end) with true by (destruct bias; [cbn; now rewrite list_eqb_refl|reflexivity]).
  cbn [andb conv_out_size].
  assert (Hlen : conv_out_len (l + k / 2 + (k - 1) / 2) k 1 1 = Ok l).
  { unfold conv_out_len. rewrite Z.mul_1_l, Z.div_1_r.
    replace (0 <? k) with true by (symmetry; apply Z.ltb_lt; lia).
    replace (0 <=? l + k / 2 + (k - 1) / 2 - (k - 1) - 1) with true
      by (symmetry; apply Z.leb_le; lia).
    cbn [Z.ltb Z.compare andb]. f_equal. lia. }
  rewrite Hlen. cbn [bind]. eexists. split; [reflexivity|].
  cbn [size]. f_equal. lia.
Qed.

End Totality.

(** ** Transposed convolutions *)

Section TransposeFacts.

Context {R : Type} {scalar : Scalar R}.

(** C7.  No [ConvTranspose1d] can be built.  Once the wrapped constructor
    has returned, the loop that is to set the native padding to
    dilation * (k - 1) assigns to an item of [self.padding], which is a
    tuple: the constructor raises, with [TypeError] for an int kernel size
    and an int dilation, before it looks at the padding mode, so that no
    pre-padding is set and no [forward] runs.  [ConvTranspose2d] and
    [ConvTranspose3d] are built, with the caller's native padding and no
    padding mode. *)
Theorem ConvTranspose1d_init_raises (in_c out_c : Z) (ks st op : int_or_tuple)
    (groups : Z) (bias : bool) (dl : int_or_tuple) (pm mode : string) (cl : bool)
    (w0 b0 : list Z -> R) :
  raises (ConvTranspose1d_init in_c out_c ks st op groups bias dl pm mode cl w0 b0) /\
  (forall k d,
     ConvTranspose1d_init in_c out_c (Int k) st op groups bias (Int d) pm mode cl w0 b0
     = match nn_ConvNd_init 1 true in_c out_c (Int k) st (Int 0) (Int d) op groups bias pm
               w0 b0 with
       | Ok _ => Raise TypeError
       | Raise e => Raise e
       end) /\
  (forall pad self2,
     ConvTranspose2d_init in_c out_c ks st pad op groups bias dl pm cl w0 b0 = Ok self2 ->
     nnc_padding (ct_super self2) = ntuple 2 pad) /\
  (forall pad self3,
     ConvTranspose3d_init in_c out_c ks st pad op groups bias dl pm cl w0 b0 = Ok self3 ->
     nnc_padding (ct_super self3) = ntuple 3 pad).
Proof.
  split; [|split; [|split]].
  - unfold ConvTranspose1d_init.
    destruct (nn_ConvNd_init _ _ _ _ _ _ _ _ _ _ _ _ _ _) as [super|e] eqn:Hsup;
      [|now exists e].
    apply nn_ConvNd_init_inv in Hsup. subst super. cbn [bind nnc_padding nnc_dilation
      nnc_kernel_size ntuple repeat].
    change (zrange (zlen [0])) with [0]. cbn [padding_loop].
    destruct (py_getitem (ntuple 1 dl) 0) as [d|e]; [|now exists e]. cbn [bind].
    destruct (py_getitem (ntuple 1 ks) 0) as [k|e]; [|now exists e].
    cbn [bind tuple_setitem]. now exists TypeError.
  - intros k d. unfold ConvTranspose1d_init.
    destruct (nn_ConvNd_init _ _ _ _ _ _ _ _ _ _ _ _ _ _) as [super|e] eqn:Hsup;
      [|reflexivity].
    apply nn_ConvNd_init_inv in Hsup. subst super. reflexivity.
  - intros pad self2 H2. unfold ConvTranspose2d_init in H2.
    destruct (nn_ConvNd_init _ _ _ _ _ _ _ _ _ _ _ _ _ _) as [super|e] eqn:Hsup;
      [|discriminate H2].
    apply nn_ConvNd_init_inv in Hsup. subst super. cbn in H2. injection H2 as <-.
    reflexivity.
  - intros pad self3 H3. unfold ConvTranspose3d_init in H3.
    destruct op as [o3|]; [|discriminate H3]. destruct st as [s3|]; [|discriminate H3].
    cbn [bind] in H3.
    destruct (nn_ConvNd_init _ _ _ _ _ _ _ _ _ _ _ _ _ _) as [super|e] eqn:Hsup;
      [|discriminate H3].
    apply nn_ConvNd_init_inv in Hsup. subst super. cbn in H3. injection H3 as <-.
    reflexivity.
Qed.

End TransposeFacts.

(** ** Construction-time checks *)

Section ConstructionFacts.

Context {R : Type} {scalar : Scalar R}.

Lemma bind_raises {A B : Type} (m : res A) (k : A -> res B) :
  (forall a, m = Ok a -> raises (k a)) -> raises (bind m k).
Proof.
  intros Hk. destruct m as [a|e]; [now apply Hk|now exists e].
Qed.

Lemma py_assert_false_raises {B : Type} (k : unit -> res B) :
  raises (bind (py_assert false) k).
Proof. now exists AssertionError. Qed.

(** C8 (as amended).  A padding mode outside valid, same, causal makes the
    constructors of [Conv1d], [Conv3d] and [ConvTranspose1d] raise, and those
    three modes other than valid and same make the constructor of [Conv2d]
    raise: no layer is built.  [ConvTranspose2d] and [ConvTranspose3d] take
    no padding mode, and [ConvTranspose3d] replaces the caller's
    [output_padding] by min(output_padding, stride - 1). *)
Theorem conv_mode_checked_at_construction (in_c out_c : Z)
    (ks st dl op pad : int_or_tuple) (groups : Z) (bias : bool) (pm mode : string)
    (cl : bool) (w0 b0 : list Z -> R) :
  py_in mode ["valid"; "same"; "causal"]%string = false ->
  raises (Conv1d_init in_c out_c ks st dl groups bias pm mode cl w0 b0) /\
  raises (Conv2d_init in_c out_c ks st dl groups bias pm mode cl w0 b0) /\
  raises (Conv2d_init in_c out_c ks st dl groups bias pm "causal" cl w0 b0) /\
  raises (Conv3d_init in_c out_c ks st dl groups bias pm mode cl w0 b0) /\
  raises (ConvTranspose1d_init in_c out_c ks st op groups bias dl pm mode cl w0 b0) /\
  (forall o s self,
     ConvTranspose3d_init in_c out_c ks (Int s) pad (Int o) groups bias dl pm cl w0 b0
     = Ok self ->
     nnc_output_padding (ct_super self) = repeat (Z.min o (s - 1)) 3).
Proof.
  intros Hmode.
  assert (Hmode2 : py_in mode ["valid"; "same"]%string = false).
  { unfold py_in in *. cbn [existsb] in *.
    destruct (String.eqb mode "valid"); [discriminate Hmode|].
    destruct (String.eqb mode "same"); [discriminate Hmode|]. reflexivity. }
  repeat split.
  - unfold Conv1d_init. apply bind_raises. intros super _.
    rewrite Hmode. apply py_assert_false_raises.
  - unfold Conv2d_init. apply bind_raises. intros super _.
    rewrite Hmode2. apply py_assert_false_raises.
  - unfold Conv2d_init. apply bind_raises. intros super _.
    apply py_assert_false_raises.
  - unfold Conv3d_init. apply bind_raises. intros super _.
    rewrite Hmode. apply py_assert_false_raises.
  - unfold ConvTranspose1d_init. apply bind_raises. intros super _.
    apply bind_raises. intros native _.
    rewrite Hmode. apply py_assert_false_raises.
  - intros o s self Hinit. unfold ConvTranspose3d_init in Hinit. cbn [bind] in Hinit.
    destruct (nn_ConvNd_init _ _ _ _ _ _ _ _ _ _ _ _ _ _) as [super|e] eqn:Hsup;
      [|discriminate Hinit].
    apply nn_ConvNd_init_inv in Hsup. subst super. cbn in Hinit. injection Hinit as <-.
    reflexivity.
Qed.

(** [GlobalAvgPool3d.forward] does not look at its mask. *)
Lemma GlobalAvgPool3d_forward_ignores_mask (self : GlobalAvgPool3d) (x : Tensor R)
    (mask : option (Tensor R)) :
  GlobalAvgPool3d_forward self x mask = tmean (gap3_axis self) false x.
Proof. reflexivity. Qed.

(** With a mask [GlobalAvgPool1d] and [GlobalAvgPool2d] divide the sum of
    the masked input by the count of the mask, without one they take the
    mean. *)
Lemma GlobalAvgPool_forward_masked (self : GlobalAvgPool) (x mask : Tensor R) :
  GlobalAvgPool1d_forward self x (Some mask)
  = (xm <- tmul x mask ;;
     s <- tsum (gap_dim self) (gap_keepdim self) xm ;;
     c <- count_nonzero (gap_dim self) mask ;;
     tdiv s (to_float c)) /\
  GlobalAvgPool2d_forward self x (Some mask) = GlobalAvgPool1d_forward self x (Some mask) /\
  GlobalAvgPool1d_forward self x None = tmean (gap_dim self) (gap_keepdim self) x /\
  GlobalAvgPool2d_forward self x None = tmean (gap_dim self) (gap_keepdim self) x.
Proof. repeat split. Qed.

End ConstructionFacts.

(** C1 fails as stated, for every module: on a module built with
    [bias=False] the batched [forward] raises although each expert, applied
    alone, returns. *)
Lemma SwitchLinear_forward_no_bias_counterexample :
  SwitchLinear_forward switch_no_bias switch_input [1; 0; 1] = Raise TypeError /\
  exists e,
    py_getitem (experts switch_no_bias) 1 = Ok e /\
    observe (nn_Linear_forward e (select0 0 switch_input)) = Ok ([2], [11; 15]).
Proof.
  split; [reflexivity|].
  eexists. split; reflexivity.
Qed.

Lemma SwitchLinear_forward_row_witness :
  exists out e y w b,
    SwitchLinear_forward switch_demo switch_input [1; 0; 1] = Ok out /\
    size out = [3; 2] /\
    py_getitem (experts switch_demo) (znth 0 [1; 0; 1] 0) = Ok e /\
    nnl_weight e = w /\ nnl_bias e = Some b /\
    nn_Linear_forward e (select0 0 switch_input) = Ok y /\
    size y = [2] /\
    forall j, 0 <= j < 2 ->
      let xs := map (fun k => get switch_input [0; k]) (zrange 2) in
      let ws := map (fun k => get w [j; k]) (zrange 2) in
      let batched := radd (matmul_dot [3; 1; 2] [3; 2; 2] [0; 0; j] xs ws) (get b [j]) in
      let alone := linear_dot [2] [2; 2] [j] xs ws (Some (get b [j])) in
      get out [0; j] = batched /\
      get y [j] = alone /\
      (get out [0; j] = get y [j] <-> batched = alone).
Proof.
  apply (SwitchLinear_forward_row (R := Z) 2 2 2 demo_experts switch_input [1; 0; 1] 3 0).
  - reflexivity.
  - reflexivity.
  - repeat constructor; lia.
  - lia.
Defined.

Lemma eval_forward_ignores_noise_witness :
  Linear_forward (Linear_train demo_linear_noisy false) (of_list2 0 [[1; 1]])
  = Linear_forward (Linear_train demo_linear false) (of_list2 0 [[1; 1]]) /\
  LSTM_forward (LSTM_train demo_lstm_noisy false) (Padded (of_list3 0 [[[5]]])) None
  = LSTM_forward (LSTM_train demo_lstm false) (Padded (of_list3 0 [[[5]]])) None /\
  Embedding_forward (Embedding_train demo_embedding_noisy false) (of_list1 0 [2; 0])
  = Embedding_forward (Embedding_train demo_embedding false) (of_list1 0 [2; 0]).
Proof.
  destruct (eval_forward_ignores_noise (R := Z)
              (Linear_train demo_linear false) (LSTM_train demo_lstm false)
              (Embedding_train demo_embedding false) eq_refl eq_refl eq_refl)
    as [HL [_ [HS [_ [HE _]]]]].
  split; [|split].
  - exact (HL (Some demo_noise) (Some 3) None None (of_list2 0 [[1; 1]])).
  - exact (HS (Some (noise_list (map snd demo_pairs))) (Some 3) None (Some 3)
              (Padded (of_list3 0 [[[5]]])) None).
  - exact (HE (Some demo_table_noise) (Some 3) None None (of_list1 0 [2; 0])).
Defined.


Lemma LSTM_noise_alignment_witness :
  exists self' g' ns ws,
    LSTM_sample_synaptic_noise (sampler := ZSampler) demo_lstm false 7 = Ok (self', g') /\
    lstm_noises self' = Some (noise_list ns) /\
    Forall2 sized_like demo_groups ns /\
    LSTM_weight self' = Ok ws /\
    perturbed_weights 3 (combine demo_groups ns) = Ok ws /\
    LSTM_forward self' (Padded (of_list3 0 [[[5]]])) None
    = (let zeros := torch_zeros [4; 1; 1] in
       check_forward_args 1 1 2 false true (of_list3 0 [[[5]]]) [zeros; zeros] None ;;;
       result <- VF_lstm (of_list3 0 [[[5]]]) None [zeros; zeros] ws true 2 0 true true
                   (Some false) ;;
       output <- py_getitem result 0 ;;
       Ok (Padded output, tl result)).
Proof.
  destruct (LSTM_noise_alignment (sampler := ZSampler) demo_lstm demo_groups 3 false 7
              eq_refl eq_refl eq_refl)
    as [self' [g' [ns [ws [Hs [Hn [Hsz [HW [Hws [_ [_ [Hpad _]]]]]]]]]]]].
  exists self', g', ns, ws. repeat split; try assumption.
  exact (Hpad (of_list3 0 [[[5]]]) None).
Defined.

(** The weight list a two-layer bidirectional layer hands to the
    primitive after sampling: draws 7, 8, ... scaled by 3 perturb the two
    weights of each of the four groups, the biases keep their values. *)
Example demo_lstm_weight_run :
  (r <- LSTM_sample_synaptic_noise (sampler := ZSampler) demo_lstm false 7 ;;
   ws <- LSTM_weight (fst r) ;;
   Ok (map (fun w => get w [0; 0]) ws))
  = Ok [1 + 3 * 7; 2 + 3 * 8; 3; 4;
        11 + 3 * 9; 12 + 3 * 10; 13; 14;
        101 + 3 * 11; 102 + 3 * 12; 103; 104;
        111 + 3 * 13; 112 + 3 * 14; 113; 114].
Proof. vm_compute. reflexivity. Qed.

(** C4 fails as stated, for every forward convolution in mode causal: with
    dilation 2 the left padding k - 1 = 1 is too short, and the output at
    position 0 reads the input at position 1. *)
Lemma causal_conv_dilation_counterexample :
  Conv1d_init 1 1 (Int 2) (Int 1) (Int 2) 1 true "zeros" "causal" false ones zeros
  = Ok dilated_causal_layer /\
  agree_upto 2 0 (of_list3 0 [[[0; 0; 0]]]) (of_list3 0 [[[0; 1; 0]]]) /\
  observe (Conv1d_forward dilated_causal_layer (of_list3 0 [[[0; 0; 0]]]))
  = Ok ([1; 1; 2], [0; 0]) /\
  observe (Conv1d_forward dilated_causal_layer (of_list3 0 [[[0; 1; 0]]]))
  = Ok ([1; 1; 2], [1; 0]).
Proof.
  split; [reflexivity|]. split; [|split; reflexivity].
  split; [reflexivity|].
  intros idx Hb Ht.
  destruct (in_bounds3_inv _ _ _ _ Hb) as (a & b & c & -> & Ha & Hb' & Hc).
  cbn [nth] in Ht. cbn in Ha, Hb', Hc.
  assert (a = 0) by lia. assert (b = 0) by lia. assert (c = 0) by lia.
  subst. reflexivity.
Qed.

Lemma causal_conv_no_future_leakage_witness :
  exists y y',
    Conv_forward causal_layer (of_list3 0 [[[0; 0; 1; 0; 0]]]) = Ok y /\
    Conv_forward causal_layer (of_list3 0 [[[0; 0; 1; 7; 7]]]) = Ok y' /\
    forall idx, nth 2 idx 0 <= 2 -> get y idx = get y' idx.
Proof.
  assert (Hag : agree_upto 2 2 (of_list3 0 [[[0; 0; 1; 0; 0]]])
                           (of_list3 0 [[[0; 0; 1; 7; 7]]])).
  { split; [reflexivity|]. intros idx Hb Ht.
    destruct (in_bounds3_inv _ _ _ _ Hb) as (a & b & c & -> & Ha & Hb' & Hc).
    cbn [nth] in Ht. cbn in Ha, Hb', Hc.
    assert (a = 0) by lia. assert (b = 0) by lia.
    assert (Hc' : c = 0 \/ c = 1 \/ c = 2) by lia.
    subst. destruct Hc' as [->|[->| ->]]; reflexivity. }
  assert (Hy : exists y, Conv_forward causal_layer (of_list3 0 [[[0; 0; 1; 0; 0]]]) = Ok y)
    by (eexists; reflexivity).
  destruct Hy as [y Hy].
  destruct (causal_conv_no_future_leakage (R := Z) 1 1 (Int 3) (Int 1) (Int 1) 1 true "zeros"
              false ones zeros causal_layer
              (of_list3 0 [[[0; 0; 1; 0; 0]]]) (of_list3 0 [[[0; 0; 1; 7; 7]]]) y 2
              (or_introl (conj eq_refl eq_refl)) eq_refl eq_refl Hag Hy)
    as [_ [y' [Hy' [_ Hget]]]].
  exists y, y'. repeat split; assumption.
Defined.

(** The scenario of the specification: kernel [1, 1, 1], no bias value, mode
    causal, input [0, 0, 1, 0, 0]. *)
Example causal_layer_run :
  Conv1d_init 1 1 (Int 3) (Int 1) (Int 1) 1 true "zeros" "causal" false ones zeros
  = Ok causal_layer /\
  observe (Conv1d_forward causal_layer (of_list3 0 [[[0; 0; 1; 0; 0]]]))
  = Ok ([1; 1; 5], [0; 0; 1; 1; 1]).
Proof. split; reflexivity. Qed.

(** C5 fails as stated, for any dilation: with kernel size 3 and dilation 2
    the padding of mode same adds 2 positions where the dilated kernel
    spans 5, and an input of length 6 gives an output of length 4. *)
Lemma same_conv_dilation_counterexample :
  Conv1d_init 1 1 (Int 3) (Int 1) (Int 2) 1 true "zeros" "same" false ones zeros
  = Ok dilated_same_layer /\
  observe (Conv1d_forward dilated_same_layer (of_list3 0 [[[1; 2; 3; 4; 5; 6]]]))
  = Ok ([1; 1; 4], [6; 9; 12; 8]).
Proof. split; reflexivity. Qed.

Lemma same_conv_keeps_length_witness :
  exists y,
    Conv_forward same_layer (of_list3 0 [[[1; 2; 3; 4; 5; 6]]]) = Ok y /\
    spatial_size false (size y) = [6].
Proof.
  assert (Hy : exists y, Conv_forward same_layer (of_list3 0 [[[1; 2; 3; 4; 5; 6]]]) = Ok y)
    by (eexists; reflexivity).
  destruct Hy as [y Hy]. exists y. split; [assumption|].
  apply (same_conv_keeps_length (R := Z) 1 1 (Int 3) (Int 1) (Int 1) 1 true "zeros"
           false ones zeros same_layer (of_list3 0 [[[1; 2; 3; 4; 5; 6]]]) y
           (or_introl (conj eq_refl eq_refl))).
  - repeat constructor.
  - repeat constructor.
  - assumption.
Defined.

(** [ConvTranspose1d(1, 1, 3, padding=mode)] raises [TypeError] in each of
    its three modes, and outside them too: the assignment to the tuple
    comes before the assertion on the mode.  [ConvTranspose2d(1, 1, 3)] is
    built, with native padding 0 where dilation * (k - 1) = 2. *)
Example ConvTranspose1d_init_run :
  ConvTranspose1d_init 1 1 (Int 3) (Int 1) (Int 0) 1 true (Int 1) "zeros" "valid" false
    ones zeros = Raise TypeError /\
  ConvTranspose1d_init 1 1 (Int 3) (Int 1) (Int 0) 1 true (Int 1) "zeros" "same" false
    ones zeros = Raise TypeError /\
  ConvTranspose1d_init 1 1 (Int 3) (Int 1) (Int 0) 1 true (Int 1) "zeros" "causal" false
    ones zeros = Raise TypeError /\
  ConvTranspose1d_init 1 1 (Int 3) (Int 1) (Int 0) 1 true (Int 1) "zeros" "full" false
    ones zeros = Raise TypeError /\
  exists self,
    ConvTranspose2d_init 1 1 (Int 3) (Int 1) (Int 0) (Int 0) 1 true (Int 1) "zeros" false
      ones zeros = Ok self /\
    nnc_kernel_size (ct_super self) = [3; 3] /\
    nnc_dilation (ct_super self) = [1; 1] /\
    nnc_padding (ct_super self) = [0; 0].
Proof.
  repeat (split; [reflexivity|]).
  eexists. repeat split; reflexivity.
Qed.

(** C8 fails as stated, for every constructor of the family:
    [ConvTranspose3d] built with [output_padding=3] and [stride=2] is built
    without error, holding [output_padding] 1. *)
Lemma ConvTranspose3d_output_padding_counterexample :
  exists self,
    ConvTranspose3d_init 1 1 (Int 3) (Int 2) (Int 0) (Int 3) 1 true (Int 1) "zeros" false
      ones zeros = Ok self /\
    nnc_output_padding (ct_super self) = [1; 1; 1].
Proof. eexists. split; reflexivity. Qed.

Lemma conv_mode_checked_at_construction_witness :
  raises (Conv1d_init 1 1 (Int 3) (Int 1) (Int 1) 1 true "zeros" "circular" false ones zeros).
Proof.
  exact (proj1 (conv_mode_checked_at_construction (R := Z) 1 1 (Int 3) (Int 1) (Int 1)
                  (Int 0) (Int 0) 1 true "zeros" "circular" false ones zeros eq_refl)).
Defined.

(** C9 does not hold of [GlobalAvgPool3d]: given a mask that hides the
    element 9 of the volume [2, 4, 9], its [forward] returns the plain mean
    15 / 3 = 5, where the masked average that [GlobalAvgPool2d] computes
    over the same dimensions is 6 / 2 = 3. *)
Theorem GlobalAvgPool3d_mask_run :
  observe (GlobalAvgPool3d_forward (GlobalAvgPool3d_init [2; 3; 4]%nat) demo_volume
             (Some demo_mask))
  = Ok ([1; 1], [5]) /\
  observe (GlobalAvgPool3d_forward (GlobalAvgPool3d_init [2; 3; 4]%nat) demo_volume None)
  = Ok ([1; 1], [5]) /\
  observe (GlobalAvgPool2d_forward (GlobalAvgPool2d_init [2; 3; 4]%nat false) demo_volume
             (Some demo_mask))
  = Ok ([1; 1], [3]).
Proof. repeat split; reflexivity. Qed.

Example GlobalAvgPool1d_mask_run :
  observe (GlobalAvgPool1d_forward (GlobalAvgPool1d_init 1 false)
             (of_list3 0 [[[2; 4]; [6; 8]; [100; 200]]])
             (Some (of_list3 0 [[[1]; [1]; [0]]])))
  = Ok ([1; 2], [4; 6]).
Proof. reflexivity. Qed.

Example same_layer_run :
  Conv1d_init 1 1 (Int 3) (Int 1) (Int 1) 1 true "zeros" "same" false ones zeros
  = Ok same_layer /\
  observe (Conv1d_forward same_layer (of_list3 0 [[[1; 2; 3; 4; 5; 6]]]))
  = Ok ([1; 1; 6], [3; 6; 9; 12; 15; 11]).
Proof. split; reflexivity. Qed.

Example demo_layers_built :
  Embedding_init 3 2 None (get (of_list2 0 [[1; 2]; [3; 4]; [5; 6]])) = Ok demo_embedding /\
  flat_weights demo_lstm = flat_map group_weights demo_groups /\
  lin_noise (fst (Linear_sample_synaptic_noise (sampler := ZSampler) demo_linear false 7))
  = Some (mkTensor [2; 2] (fun idx => 7 + hd 0 idx)).
Proof. repeat split; reflexivity. Qed.

Example switch_demo_run :
  observe (SwitchLinear_forward switch_demo switch_input [1; 0; 1])
  = Ok ([3; 2], [41; 55; 11; 23; 36; 48]).
Proof. reflexivity. Qed.

(** Binary32 addition is not associative: the theorems above use no law of
    the scalar operations, and hold of it as they hold of the integers. *)
Example float32_add_not_associative :
  radd (radd (f32 16777216) (f32 1)) (f32 1) = f32 16777216 /\
  radd (f32 16777216) (radd (f32 1) (f32 1)) = f32 16777218.
Proof. split; vm_compute; reflexivity. Qed.

(** On binary32, with a batched product that adds from the first product
    and a linear kernel that adds from the last, [forward] and the expert
    alone differ on the same example: 2^24 against 2^24 + 4. *)
Example switch_f32_run :
  observe (SwitchLinear_forward switch_f32 switch_f32_input [0])
  = Ok ([1; 1], [f32 16777216]) /\
  (e <- py_getitem (experts switch_f32) 0 ;;
   observe (nn_Linear_forward e (select0 0 switch_f32_input)))
  = Ok ([1], [f32 16777220]).
Proof. split; vm_compute; reflexivity. Qed.

(** ** Row-major offsets *)

Lemma prod_nonneg (sz : list Z) : valid_size sz -> 0 <= prod sz.
Proof.
  induction 1 as [|s sz Hs _ IH]; simpl; [lia|]. now apply Z.mul_nonneg_nonneg.
Qed.

Lemma map_seq_shift (a k b : nat) :
  map Z.of_nat (seq (a + k) b) = map (fun r => Z.of_nat a + r) (map Z.of_nat (seq k b)).
Proof.
  revert k. induction b as [|b IH]; intros k; simpl; [reflexivity|].
  f_equal; [lia|]. rewrite <- IH. f_equal. f_equal. lia.
Qed.

Lemma zrange_add (a b : Z) :
  0 <= a -> 0 <= b -> zrange (a + b) = zrange a ++ map (fun r => a + r) (zrange b).
Proof.
  intros Ha Hb. unfold zrange.
  rewrite Z2Nat.inj_add, seq_app, map_app by lia. f_equal.
  rewrite <- (Nat.add_0_r (0 + Z.to_nat a)), map_seq_shift. simpl.
  apply map_ext. intros r. lia.
Qed.

Lemma zrange_blocks (s P : Z) :
  0 <= s -> 0 <= P ->
  flat_map (fun i => map (fun r => i * P + r) (zrange P)) (zrange s) = zrange (s * P).
Proof.
  intros Hs HP. rewrite <- (Z2Nat.id s Hs). clear Hs.
  induction (Z.to_nat s) as [|n IH].
  - reflexivity.
  - replace (Z.of_nat (S n)) with (Z.of_nat n + 1) by lia.
    rewrite (zrange_add (Z.of_nat n) 1) by lia.
    rewrite flat_map_app, IH.
    change (zrange 1) with [0]. cbn [flat_map map]. rewrite app_nil_r.
    replace ((Z.of_nat n + 1) * P) with (Z.of_nat n * P + P) by lia.
    rewrite zrange_add by lia. f_equal.
    apply map_ext. intros r. lia.
Qed.

Lemma ravel_all_indices (sz : list Z) :
  valid_size sz -> map (ravel sz) (all_indices sz) = zrange (prod sz).
Proof.
  induction 1 as [|s sz Hs Hv IH]; [reflexivity|].
  cbn [all_indices prod fold_right].
  rewrite <- zrange_blocks by (auto using prod_nonneg).
  rewrite flat_map_concat_map, concat_map, map_map, <- flat_map_concat_map.
  apply flat_map_ext. intros i.
  rewrite map_map. cbn [ravel]. fold (prod sz).
  rewrite <- IH, map_map. reflexivity.
Qed.

Lemma unravel_block (sz : list Z) (s i r : Z) :
  0 <= r < prod sz -> unravel (s :: sz) (i * prod sz + r) = i :: unravel sz r.
Proof.
  intros Hr. cbn [unravel]. f_equal.
  - rewrite Z.div_add_l by lia. rewrite Z.div_small by lia. lia.
  - f_equal. rewrite Z.add_comm, Z.mod_add by lia. apply Z.mod_small. lia.
Qed.

Lemma unravel_zrange (sz : list Z) :
  valid_size sz -> map (unravel sz) (zrange (prod sz)) = all_indices sz.
Proof.
  induction 1 as [|s sz Hs Hv IH]; [reflexivity|].
  cbn [all_indices prod fold_right]. fold (prod sz).
  rewrite <- zrange_blocks by (auto using prod_nonneg).
  rewrite flat_map_concat_map, concat_map, map_map, <- flat_map_concat_map.
  apply flat_map_ext. intros i.
  rewrite map_map, <- IH, map_map.
  apply map_ext_in. intros r Hr. apply in_zrange in Hr.
  now apply unravel_block.
Qed.

Lemma ravel_bound (sz idx : list Z) :
  in_bounds sz idx = true -> 0 <= ravel sz idx < prod sz.
Proof.
  revert idx. induction sz as [|s sz IH]; intros [|i idx]; simpl; try discriminate.
  - intros _. lia.
  - rewrite !andb_true_iff. intros [[H0 Hs] Hb]. fold (prod sz).
    specialize (IH idx Hb). nia.
Qed.

Lemma unravel_ravel (sz idx : list Z) :
  in_bounds sz idx = true -> unravel sz (ravel sz idx) = idx.
Proof.
  revert idx. induction sz as [|s sz IH]; intros [|i idx]; try discriminate.
  - reflexivity.
  - cbn [in_bounds]. rewrite !andb_true_iff. intros [[H0 Hs] Hb].
    cbn [ravel]. rewrite unravel_block by now apply ravel_bound.
    now rewrite IH.
Qed.

Lemma unravel_in_bounds (sz : list Z) (n : Z) :
  valid_size sz -> 0 <= n < prod sz -> in_bounds sz (unravel sz n) = true.
Proof.
  intros Hv. revert n. induction Hv as [|s sz Hs Hv IH]; intros n Hn; [reflexivity|].
  cbn [prod fold_right] in Hn. fold (prod sz) in Hn.
  cbn [unravel in_bounds].
  pose proof (prod_nonneg sz Hv) as HP.
  assert (HP' : 0 < prod sz) by nia.
  rewrite IH by (apply Z.mod_pos_bound; lia).
  rewrite andb_true_r. apply andb_true_iff. split.
  - apply Z.leb_le. apply Z.div_pos; lia.
  - apply Z.ltb_lt. apply Z.div_lt_upper_bound; lia.
Qed.

Lemma ravel_unravel (sz : list Z) (n : Z) :
  valid_size sz -> 0 <= n < prod sz -> ravel sz (unravel sz n) = n.
Proof.
  intros Hv. revert n. induction Hv as [|s sz Hs Hv IH]; intros n Hn.
  - simpl in *. lia.
  - cbn [prod fold_right] in Hn. fold (prod sz) in Hn.
    cbn [unravel ravel].
    pose proof (prod_nonneg sz Hv) as HP.
    assert (HP' : 0 < prod sz) by nia.
    rewrite IH by (apply Z.mod_pos_bound; lia).
    pose proof (Z.div_mod n (prod sz)). lia.
Qed.

(** ** [reshape] *)

Lemma prod_infer (q : Z) (shape : list Z) :
  existsb (fun d => d <? -1) shape = false ->
  prod (map (fun d => if d =? -1 then q else d) shape)
  = q ^ Z.of_nat (length (filter (Z.eqb (-1)) shape))
    * prod (filter (fun d => 0 <=? d) shape).
Proof.
  induction shape as [|d l IH]; intros Hx.
  - reflexivity.
  - cbn [existsb] in Hx. apply orb_false_iff in Hx. destruct Hx as [Hd Hl].
    apply Z.ltb_ge in Hd. specialize (IH Hl).
    cbn [map filter]. destruct (Z.eqb_spec d (-1)) as [->|Hne].
    + change (-1 =? -1) with true. change (0 <=? -1) with false. cbn iota.
      cbn [length prod fold_right].
      fold (prod (map (fun d => if d =? -1 then q else d) l)).
      rewrite IH, Nat2Z.inj_succ, Z.pow_succ_r by lia. ring.
    + destruct (Z.eqb_spec (-1) d) as [He|_]; [lia|].
      destruct (Z.leb_spec 0 d) as [_|Hlt]; [|lia].
      cbn [prod fold_right].
      fold (prod (map (fun d => if d =? -1 then q else d) l)).
      fold (prod (filter (fun d => 0 <=? d) l)).
      rewrite IH. ring.
Qed.

Lemma filter_nonneg_valid (sz : list Z) :
  valid_size sz -> filter (fun d => 0 <=? d) sz = sz.
Proof.
  induction 1 as [|s sz Hs _ IH]; simpl; [reflexivity|].
  destruct (Z.leb_spec 0 s); [|lia]. now rewrite IH.
Qed.

Lemma no_infer_valid (shape : list Z) :
  existsb (fun d => d <? -1) shape = false ->
  existsb (Z.eqb (-1)) shape = false -> valid_size shape.
Proof.
  induction shape as [|d l IH]; intros H1 H2; [constructor|].
  cbn [existsb] in H1, H2.
  apply orb_false_iff in H1. destruct H1 as [Hd Hl].
  apply orb_false_iff in H2. destruct H2 as [Hd' Hl'].
  apply Z.ltb_ge in Hd. apply Z.eqb_neq in Hd'.
  constructor; [lia|now apply IH].
Qed.

Lemma existsb_filter_length {A : Type} (f : A -> bool) (l : list A) :
  existsb f l = true -> (1 <= length (filter f l))%nat.
Proof.
  induction l as [|a l IH]; simpl; [discriminate|].
  destruct (f a); simpl; [lia|auto].
Qed.

Lemma infer_size_ok (shape sz : list Z) (n : Z) :
  0 <= n -> infer_size shape n = Ok sz ->
  valid_size sz /\ prod sz = n /\ length sz = length shape.
Proof.
  intros Hn. unfold infer_size.
  destruct (existsb (fun d => d <? -1) shape) eqn:Hlow; [discriminate|].
  destruct (1 <? length (filter (Z.eqb (-1)) shape))%nat eqn:Hcnt; [discriminate|].
  apply Nat.ltb_ge in Hcnt.
  set (NS := prod (filter (fun d => 0 <=? d) shape)).
  assert (HNS : 0 <= NS).
  { apply prod_nonneg. unfold valid_size. apply Forall_forall. intros d Hd.
    apply filter_In in Hd. destruct Hd as [_ Hd]. now apply Z.leb_le. }
  destruct (existsb (Z.eqb (-1)) shape) eqn:Hinf.
  - destruct (_ || _) eqn:Hc; [|discriminate].
    destruct (Z.eqb_spec NS 0) as [|Hnz]; [discriminate|].
    intros [= <-].
    assert (Hmod : n mod NS = 0).
    { apply orb_true_iff in Hc. destruct Hc as [Hc|Hc].
      - apply Z.eqb_eq in Hc. rewrite Hc. apply Z.mod_same. exact Hnz.
      - rewrite !andb_true_iff in Hc. destruct Hc as [_ Hc]. now apply Z.eqb_eq in Hc. }
    assert (Hone : length (filter (Z.eqb (-1)) shape) = 1%nat).
    { apply existsb_filter_length in Hinf. lia. }
    split; [|split].
    + unfold valid_size. apply Forall_forall. intros d Hd.
      apply in_map_iff in Hd. destruct Hd as [d0 [<- Hd0]].
      destruct (Z.eqb_spec d0 (-1)).
      * apply Z.div_pos; lia.
      * assert (Hge : (d0 <? -1) = false).
        { destruct (d0 <? -1) eqn:E; [|reflexivity].
          assert (existsb (fun d => d <? -1) shape = true)
            by (apply existsb_exists; eauto). congruence. }
        apply Z.ltb_ge in Hge. lia.
    + rewrite prod_infer by assumption. rewrite Hone. fold NS.
      change (Z.of_nat 1) with 1. rewrite Z.pow_1_r.
      pose proof (Z.div_mod n NS Hnz). lia.
    + apply length_map.
  - rewrite andb_false_l, orb_false_r.
    destruct (Z.eqb_spec n NS) as [->|]; [|discriminate].
    intros [= <-].
    pose proof (no_infer_valid shape Hlow Hinf) as Hv.
    split; [exact Hv|]. split; [|reflexivity].
    unfold NS. now rewrite filter_nonneg_valid.
Qed.

Lemma infer_size_valid (sz : list Z) :
  valid_size sz -> infer_size sz (prod sz) = Ok sz.
Proof.
  intros Hv. unfold infer_size.
  assert (Hlow : existsb (fun d => d <? -1) sz = false).
  { induction Hv as [|s sz Hs _ IH]; cbn [existsb]; [reflexivity|].
    rewrite IH, orb_false_r. apply Z.ltb_ge. lia. }
  assert (Hinf : filter (Z.eqb (-1)) sz = []).
  { clear Hlow. induction Hv as [|s sz Hs Hv IH]; cbn [filter]; [reflexivity|].
    destruct (Z.eqb_spec (-1) s); [lia|]. exact IH. }
  assert (Hex : existsb (Z.eqb (-1)) sz = false).
  { clear -Hv. induction Hv as [|s sz Hs _ IH]; cbn [existsb]; [reflexivity|].
    rewrite IH, orb_false_r. apply Z.eqb_neq. lia. }
  rewrite Hlow, Hinf, Hex, filter_nonneg_valid by assumption.
  cbn [length Nat.ltb Nat.leb]. now rewrite Z.eqb_refl.
Qed.

Section ReshapeFacts.

Context {A : Type}.

Lemma reshape_inv (shape : list Z) (x y : Tensor A) :
  reshape shape x = Ok y ->
  infer_size shape (numel x) = Ok (size y) /\
  get y = fun idx => get x (unravel (size x) (ravel (size y) idx)).
Proof.
  unfold reshape. destruct (infer_size shape (numel x)) as [sz|e]; [|discriminate].
  intros [= <-]. split; reflexivity.
Qed.

Lemma reshape_ok (shape : list Z) (x y : Tensor A) :
  valid_size (size x) -> reshape shape x = Ok y ->
  valid_size (size y) /\ numel y = numel x /\ length (size y) = length shape /\
  to_list y = to_list x.
Proof.
  intros Hv Hr. apply reshape_inv in Hr. destruct Hr as [Hsz Hget].
  apply infer_size_ok in Hsz; [|now apply prod_nonneg].
  destruct Hsz as [Hvy [Hp Hl]].
  split; [exact Hvy|]. split; [exact Hp|]. split; [exact Hl|].
  unfold to_list. rewrite Hget.
  rewrite <- (map_map (ravel (size y)) (fun n => get x (unravel (size x) n))).
  rewrite ravel_all_indices by assumption. rewrite Hp. unfold numel.
  rewrite <- (map_map (unravel (size x)) (get x)).
  now rewrite unravel_zrange.
Qed.

End ReshapeFacts.

Lemma infer_size_plain (shape sz : list Z) (n : Z) :
  ~ In (-1) shape -> infer_size shape n = Ok sz -> sz = shape /\ prod shape = n.
Proof.
  intros Hno. unfold infer_size.
  destruct (existsb (fun d => d <? -1) shape) eqn:Hlow; [discriminate|].
  destruct (1 <? length (filter (Z.eqb (-1)) shape))%nat; [discriminate|].
  assert (Hinf : existsb (Z.eqb (-1)) shape = false).
  { destruct (existsb (Z.eqb (-1)) shape) eqn:E; [|reflexivity].
    apply existsb_exists in E. destruct E as [d [Hd He]].
    apply Z.eqb_eq in He. subst d. contradiction. }
  rewrite Hinf, andb_false_l, orb_false_r.
  rewrite (filter_nonneg_valid shape (no_infer_valid shape Hlow Hinf)).
  destruct (Z.eqb_spec n (prod shape)); [|discriminate].
  intros [= <-]. split; congruence.
Qed.

(** ** [Reshape] *)

Section ReshapeLayer.

Context {A : Type}.

(** X1.  [Reshape.forward] moves no element: the result holds as many elements
    as the input, in the same row-major order, whatever the flag; and a
    requested shape without -1 is the size of the result. *)
Theorem Reshape_forward_keeps_order (self : Reshape) (x y : Tensor A) :
  valid_size (size x) ->
  Reshape_forward self x = Ok y ->
  valid_size (size y) /\ numel y = numel x /\ to_list y = to_list x /\
  (rs_include_batch self = true -> ~ In (-1) (rs_shape self) -> size y = rs_shape self).
Proof.
  intros Hv Hf. unfold Reshape_forward in Hf.
  destruct (rs_include_batch self) eqn:Hib.
  - destruct (reshape_ok _ x y Hv Hf) as [H1 [H2 [_ H4]]].
    repeat split; try assumption.
    intros _ Hno. apply reshape_inv in Hf. destruct Hf as [Hsz _].
    now apply infer_size_plain in Hsz.
  - destruct (reshape_ok _ x y Hv Hf) as [H1 [H2 [_ H4]]].
    repeat split; try assumption. discriminate.
Qed.

(** X2.  Reshaping back to the size of the input restores the input. *)
Theorem Reshape_round_trip (shape : list Z) (x y : Tensor A) :
  valid_size (size x) ->
  Reshape_forward (Reshape_init shape true) x = Ok y ->
  exists z,
    Reshape_forward (Reshape_init (size x) true) y = Ok z /\ tensor_eq z x.
Proof.
  intros Hv Hf. cbn in Hf.
  destruct (reshape_ok _ x y Hv Hf) as [Hvy [Hn _]].
  apply reshape_inv in Hf. destruct Hf as [_ Hget].
  cbn [Reshape_forward Reshape_init rs_include_batch rs_shape].
  unfold reshape. rewrite Hn. unfold numel. rewrite infer_size_valid by assumption.
  cbn [bind]. eexists. split; [reflexivity|].
  split; [reflexivity|]. cbn [size get]. intros idx Hb.
  rewrite Hget.
  pose proof (ravel_bound _ _ Hb) as Hr.
  rewrite ravel_unravel; [|assumption|unfold numel in Hn; lia].
  now rewrite unravel_ravel.
Qed.

End ReshapeLayer.

Lemma infer_size_batch (n R : Z) (shape sz : list Z) :
  0 < n -> infer_size (n :: shape) (n * R) = Ok sz ->
  exists sz', sz = n :: sz' /\ infer_size shape R = Ok sz'.
Proof.
  intros Hn. unfold infer_size. cbn [existsb filter].
  destruct (Z.ltb_spec n (-1)) as [|_]; [lia|].
  destruct (Z.eqb_spec (-1) n) as [|_]; [lia|].
  destruct (Z.leb_spec 0 n) as [_|]; [|lia].
  cbn [orb prod fold_right map]. fold (prod (filter (fun d => 0 <=? d) shape)).
  set (NS := prod (filter (fun d => 0 <=? d) shape)).
  destruct (Z.eqb_spec n (-1)) as [|_]; [lia|].
  destruct (existsb (fun d => d <? -1) shape); [discriminate|].
  destruct (1 <? length (filter (Z.eqb (-1)) shape))%nat; [discriminate|].
  assert (Heq : (n * R =? n * NS) = (R =? NS)).
  { destruct (Z.eqb_spec R NS) as [->|Hne]; [apply Z.eqb_refl|].
    apply Z.eqb_neq. nia. }
  assert (Hpos : (0 <? n * NS) = (0 <? NS)).
  { destruct (Z.ltb_spec 0 NS); [apply Z.ltb_lt|apply Z.ltb_ge]; nia. }
  assert (Hmod : 0 < NS -> ((n * R) mod (n * NS) =? 0) = (R mod NS =? 0)).
  { intros HNS. rewrite Z.mul_mod_distr_l by lia.
    destruct (Z.eqb_spec (R mod NS) 0) as [->|Hne]; [now rewrite Z.mul_0_r|].
    apply Z.eqb_neq. nia. }
  assert (Hz : (n * NS =? 0) = (NS =? 0)).
  { destruct (Z.eqb_spec NS 0) as [->|Hne]; [now rewrite Z.mul_0_r|].
    apply Z.eqb_neq. nia. }
  rewrite Heq, Hpos, Hz.
  destruct (existsb (Z.eqb (-1)) shape).
  - cbn [andb]. destruct (Z.ltb_spec 0 NS) as [HNS|HNS].
    + rewrite Hmod by assumption. cbn [andb].
      destruct (_ || _); [|discriminate].
      destruct (NS =? 0); [discriminate|].
      intros [= <-]. eexists. split; [reflexivity|].
      f_equal. apply map_ext. intros d.
      now rewrite Z.div_mul_cancel_l by lia.
    + cbn [andb]. rewrite !orb_false_r.
      destruct (R =? NS); [|discriminate].
      destruct (NS =? 0); [discriminate|].
      intros [= <-]. eexists. split; [reflexivity|].
      f_equal. apply map_ext. intros d.
      destruct (Z.eq_dec NS 0) as [->|Hne].
      * now rewrite Z.mul_0_r, !Z.div_0_r.
      * now rewrite Z.div_mul_cancel_l by lia.
  - cbn [andb]. rewrite !orb_false_r.
    destruct (R =? NS); [|discriminate].
    intros [= <-]. eexists. split; reflexivity.
Qed.

Section ReshapeBatch.

Context {A : Type}.

(** X3.  With [include_batch=False] the examples of a batch stay apart: the
    result keeps the batch dimension and its row [b] is the row [b] of the
    input, reshaped on its own. *)
Theorem Reshape_forward_keeps_examples (shape : list Z) (x y : Tensor A)
    (n : Z) (rest : list Z) (b : Z) :
  valid_size (size x) -> size x = n :: rest -> 0 <= b < n ->
  Reshape_forward (Reshape_init shape false) x = Ok y ->
  exists yb,
    Reshape_forward (Reshape_init shape true) (select0 b x) = Ok yb /\
    size y = n :: size yb /\
    forall idx, in_bounds (size yb) idx = true -> get y (b :: idx) = get yb idx.
Proof.
  intros Hv Hsz Hb Hf.
  cbn [Reshape_forward Reshape_init rs_include_batch rs_shape] in *.
  rewrite Hsz in Hf. cbn [firstn app] in Hf.
  apply reshape_inv in Hf. destruct Hf as [Hinf Hget].
  unfold numel in Hinf. rewrite Hsz in Hinf. cbn [prod fold_right] in Hinf.
  fold (prod rest) in Hinf.
  apply infer_size_batch in Hinf; [|lia].
  destruct Hinf as [sz' [Hy Hinf']].
  assert (Hvr : valid_size rest).
  { rewrite Hsz in Hv. now inversion Hv. }
  destruct (infer_size_ok _ _ _ (prod_nonneg _ Hvr) Hinf') as [_ [Hp _]].
  unfold reshape, numel. cbn [select0 size]. rewrite Hsz. cbn [tl].
  rewrite Hinf'. cbn [bind].
  eexists. split; [reflexivity|]. cbn [size get].
  split; [exact Hy|].
  intros idx Hidx. rewrite Hget, Hy, Hsz. cbn [ravel].
  pose proof (ravel_bound _ _ Hidx) as Hr.
  rewrite Hp. rewrite unravel_block by lia. reflexivity.
Qed.

End ReshapeBatch.

(** ** Dimensions counted from the end *)

Lemma wrap_dim_inv (r : nat) (dim : Z) (d : nat) :
  wrap_dim r dim = Ok d ->
  let n := Z.max (Z.of_nat r) 1 in
  - n <= dim < n /\ Z.of_nat d = (if dim <? 0 then dim + n else dim).
Proof.
  unfold wrap_dim. cbv zeta.
  destruct (Z.leb_spec (- Z.max (Z.of_nat r) 1) dim); [|discriminate].
  destruct (Z.ltb_spec dim (Z.max (Z.of_nat r) 1)); [|discriminate].
  cbn [andb]. intros [= <-]. split; [lia|].
  destruct (Z.ltb_spec dim 0); lia.
Qed.

Lemma wrap_dim_front (r : nat) (dim : Z) :
  0 <= dim < Z.max (Z.of_nat r) 1 -> wrap_dim r dim = Ok (Z.to_nat dim).
Proof.
  intros H. unfold wrap_dim.
  destruct (Z.leb_spec (- Z.max (Z.of_nat r) 1) dim); [|lia].
  destruct (Z.ltb_spec dim (Z.max (Z.of_nat r) 1)); [|lia].
  destruct (Z.ltb_spec dim 0); [lia|]. reflexivity.
Qed.

Lemma wrap_dim_back (r : nat) (dim : Z) :
  - Z.max (Z.of_nat r) 1 <= dim < 0 ->
  wrap_dim r dim = Ok (Z.to_nat (dim + Z.max (Z.of_nat r) 1)).
Proof.
  intros H. unfold wrap_dim.
  destruct (Z.leb_spec (- Z.max (Z.of_nat r) 1) dim); [|lia].
  destruct (Z.ltb_spec dim (Z.max (Z.of_nat r) 1)); [|lia].
  destruct (Z.ltb_spec dim 0); [|lia]. reflexivity.
Qed.

Lemma wrap_dim_out (r : nat) (dim : Z) :
  dim < - Z.max (Z.of_nat r) 1 \/ Z.max (Z.of_nat r) 1 <= dim ->
  wrap_dim r dim = Raise IndexError.
Proof.
  intros H. unfold wrap_dim.
  destruct (Z.leb_spec (- Z.max (Z.of_nat r) 1) dim);
    destruct (Z.ltb_spec dim (Z.max (Z.of_nat r) 1)); try reflexivity; lia.
Qed.

(** ** [Flatten] *)

Section FlattenLayer.

Context {A : Type}.

(** X4.  [Flatten.forward] moves no element, whatever the two dimensions: the
    result holds the elements of the input in the same row-major order. *)
Theorem Flatten_forward_keeps_order (self : Flatten) (x y : Tensor A) :
  valid_size (size x) ->
  Flatten_forward self x = Ok y ->
  valid_size (size y) /\ numel y = numel x /\ to_list y = to_list x.
Proof.
  intros Hv. unfold Flatten_forward, flatten.
  destruct (wrap_dim (rank x) (fl_start_dim self)) as [s|]; [|discriminate].
  destruct (wrap_dim (rank x) (fl_end_dim self)) as [e|]; [|discriminate].
  cbn [bind].
  destruct (e <? s)%nat; [discriminate|].
  destruct (rank x =? 0)%nat.
  - intros Hr. destruct (reshape_ok _ x y Hv Hr) as [H1 [H2 [_ H3]]]. auto.
  - destruct (s =? e)%nat.
    + intros [= <-]. auto.
    + intros Hr. destruct (reshape_ok _ x y Hv Hr) as [H1 [H2 [_ H3]]]. auto.
Qed.

(** X5.  With its default dimensions (1, -1), [Flatten] turns a batch of size
    (N, d1, ..., dk), k >= 1, into one of size (N, d1 * ... * dk) whose row
    [b] is the row [b] of the input in row-major order; on a tensor of rank
    0 or 1 it raises [IndexError]. *)
Theorem Flatten_default (x : Tensor A) :
  valid_size (size x) ->
  match size x with
  | n :: d :: rest =>
      exists y,
        Flatten_forward (Flatten_init 1 (-1)) x = Ok y /\
        size y = [n; prod (d :: rest)] /\
        forall b idx, 0 <= b < n -> in_bounds (d :: rest) idx = true ->
          get y [b; ravel (d :: rest) idx] = get x (b :: idx)
  | _ => Flatten_forward (Flatten_init 1 (-1)) x = Raise IndexError
  end.
Proof.
  intros Hv. unfold Flatten_forward, Flatten_init, flatten, rank.
  cbn [fl_start_dim fl_end_dim].
  destruct (size x) as [|n [|d rest]] eqn:Hsz.
  - reflexivity.
  - reflexivity.
  - rewrite wrap_dim_front by (cbn [length]; lia).
    rewrite wrap_dim_back by (cbn [length]; lia).
    cbn [bind].
    replace (Z.to_nat (-1 + Z.max (Z.of_nat (length (n :: d :: rest))) 1))
      with (S (length rest)) by (cbn [length]; lia).
    change (Z.to_nat 1) with 1%nat.
    destruct (Nat.ltb_spec (S (length rest)) 1) as [|_]; [lia|].
    cbn [length Nat.eqb].
    assert (Hvr : valid_size (d :: rest)) by (now inversion Hv).
    destruct rest as [|d' rest'].
    + cbn [length Nat.eqb]. exists x. split; [reflexivity|].
      split; [rewrite Hsz; cbn [prod fold_right]; now rewrite Z.mul_1_r|].
      intros b idx Hb Hidx. pose proof (in_bounds_length _ _ Hidx) as Hl.
      destruct idx as [|i [|? ?]]; try discriminate Hl.
      cbn [ravel prod fold_right]. now rewrite Z.mul_1_r, Z.add_0_r.
    + cbn [length Nat.eqb].
      replace (S (S (length rest')) - 1 + 1)%nat with (length (d :: d' :: rest'))
        by (cbn [length]; lia).
      rewrite (skipn_all2 (n := S (S (length rest')) + 1)) by (cbn [length]; lia).
      cbn [firstn skipn app]. rewrite firstn_all.
      set (sp := d :: d' :: rest') in *.
      unfold reshape, numel. rewrite Hsz.
      replace (prod (n :: sp)) with (prod [n; prod sp])
        by (cbn [prod fold_right]; fold (prod sp); lia).
      rewrite infer_size_valid.
      2:{ constructor; [now inversion Hv|]. constructor; [now apply prod_nonneg|constructor]. }
      cbn [bind]. eexists. split; [reflexivity|]. split; [reflexivity|].
      cbn [get]. intros b idx Hb Hidx.
      cbn [ravel prod fold_right]. fold (prod sp).
      pose proof (ravel_bound _ _ Hidx) as Hr.
      rewrite !Z.mul_1_r, Z.add_0_r.
      rewrite unravel_block by lia. now rewrite unravel_ravel.
Qed.

End FlattenLayer.

(** ** [Unsqueeze] *)

Lemma insert_at_cons {A : Type} (d : nat) (a b : A) (l : list A) :
  insert_at (S d) a (b :: l) = b :: insert_at d a l.
Proof. reflexivity. Qed.

Lemma remove_insert_at {A : Type} (d : nat) (a : A) (l : list A) :
  (d <= length l)%nat -> remove_at d (insert_at d a l) = l.
Proof.
  revert l. induction d as [|d IH]; intros l Hd.
  - reflexivity.
  - destruct l as [|b l]; [simpl in Hd; lia|].
    rewrite insert_at_cons. unfold remove_at. cbn [firstn skipn app].
    f_equal. apply IH. simpl in Hd. lia.
Qed.

Lemma map_flat_map {A B C : Type} (f : B -> C) (g : A -> list B) (l : list A) :
  map f (flat_map g l) = flat_map (fun a => map f (g a)) l.
Proof.
  induction l as [|a l IH]; simpl; [reflexivity|].
  now rewrite map_app, IH.
Qed.

Lemma all_indices_insert (d : nat) (sz : list Z) :
  (d <= length sz)%nat ->
  all_indices (insert_at d 1 sz) = map (insert_at d 0) (all_indices sz).
Proof.
  revert sz. induction d as [|d IH]; intros sz Hd.
  - unfold insert_at. cbn [firstn skipn app all_indices].
    change (zrange 1) with [0]. cbn [flat_map]. now rewrite app_nil_r.
  - destruct sz as [|s sz]; [simpl in Hd; lia|].
    rewrite insert_at_cons. cbn [all_indices].
    rewrite map_flat_map. apply flat_map_ext. intros i.
    rewrite IH by (simpl in Hd; lia). rewrite !map_map. reflexivity.
Qed.

Section UnsqueezeLayer.

Context {A : Type}.

(** X6.  [Unsqueeze.forward] returns exactly for a dimension between
    -(rank + 1) and rank; the result has one more dimension, of size 1, at
    that place (a negative dimension counts from the end of the result),
    and holds the elements of the input in the same row-major order. *)
Theorem Unsqueeze_forward_spec (self : Unsqueeze) (x : Tensor A) :
  let r := Z.of_nat (rank x) in
  let d := Z.to_nat (if unsq_dim self <? 0 then unsq_dim self + r + 1 else unsq_dim self) in
  if (- (r + 1) <=? unsq_dim self) && (unsq_dim self <=? r) then
    exists y,
      Unsqueeze_forward self x = Ok y /\
      size y = firstn d (size x) ++ 1 :: skipn d (size x) /\
      to_list y = to_list x
  else Unsqueeze_forward self x = Raise IndexError.
Proof.
  cbv zeta. unfold Unsqueeze_forward, tensor_unsqueeze.
  set (dim := unsq_dim self).
  destruct (Z.leb_spec (- (Z.of_nat (rank x) + 1)) dim) as [Hlo|Hlo];
    destruct (Z.leb_spec dim (Z.of_nat (rank x))) as [Hhi|Hhi]; cbn [andb];
    try (rewrite wrap_dim_out by lia; reflexivity).
  assert (Hw : wrap_dim (S (rank x)) dim
               = Ok (Z.to_nat (if dim <? 0 then dim + Z.of_nat (rank x) + 1 else dim))).
  { destruct (Z.ltb_spec dim 0).
    - rewrite wrap_dim_back by lia. do 2 f_equal. lia.
    - now rewrite wrap_dim_front by lia. }
  rewrite Hw. cbn [bind].
  set (d := Z.to_nat _).
  assert (Hd : (d <= rank x)%nat) by (unfold d; destruct (Z.ltb_spec dim 0); lia).
  unfold unsqueeze. destruct (Nat.leb_spec d (rank x)) as [_|]; [|lia].
  eexists. split; [reflexivity|]. split; [reflexivity|].
  unfold to_list. cbn [size get].
  rewrite all_indices_insert by exact Hd. rewrite map_map.
  apply map_ext_in. intros idx Hidx.
  apply all_indices_in_bounds, in_bounds_length in Hidx.
  rewrite remove_insert_at; [reflexivity|]. unfold rank in Hd. lia.
Qed.

End UnsqueezeLayer.

(** ** [Transpose] *)

Lemma length_swap_at {A : Type} (d : A) (i j : nat) (l : list A) :
  length (swap_at d i j l) = length l.
Proof. unfold swap_at. now rewrite length_map, length_seq. Qed.

Lemma nth_swap_at {A : Type} (d : A) (i j k : nat) (l : list A) :
  (k < length l)%nat ->
  nth k (swap_at d i j l) d
  = if Nat.eqb k i then nth j l d else if Nat.eqb k j then nth i l d else nth k l d.
Proof.
  intros Hk. unfold swap_at.
  rewrite (nth_map_in_range _ _ _ 0%nat) by (rewrite length_seq; lia).
  rewrite seq_nth by lia. reflexivity.
Qed.

Lemma swap_at_involutive {A : Type} (d : A) (i j : nat) (l : list A) :
  (i < length l)%nat -> (j < length l)%nat ->
  swap_at d i j (swap_at d i j l) = l.
Proof.
  intros Hi Hj. apply (nth_ext _ _ d d).
  - now rewrite !length_swap_at.
  - intros k Hk. rewrite !length_swap_at in Hk.
    rewrite nth_swap_at by (now rewrite length_swap_at).
    rewrite !nth_swap_at by assumption.
    rewrite !Nat.eqb_refl.
    destruct (Nat.eqb_spec k i) as [->|Hki].
    + destruct (Nat.eqb_spec j i) as [->|]; reflexivity.
    + destruct (Nat.eqb_spec k j) as [->|Hkj]; [|reflexivity].
      destruct (Nat.eqb_spec i j); reflexivity.
Qed.

Lemma swap_at_sym {A : Type} (d : A) (i j : nat) (l : list A) :
  swap_at d i j l = swap_at d j i l.
Proof.
  unfold swap_at. apply map_ext. intros k.
  destruct (Nat.eqb_spec k i) as [Hi|]; destruct (Nat.eqb_spec k j) as [Hj|];
    subst; reflexivity.
Qed.

Section TransposeLayer.

Context {A : Type}.

(** X7.  [Transpose] is its own inverse: a second pass through the layer is
    accepted whenever the first one was and returns the original tensor.
    The two dimensions may be given in either order. *)
Theorem Transpose_forward_involutive (self : Transpose) (x y : Tensor A) :
  Transpose_forward self x = Ok y ->
  (exists z, Transpose_forward self y = Ok z /\ tensor_eq z x) /\
  (exists y', Transpose_forward (Transpose_init (tr_dim1 self) (tr_dim0 self)) x = Ok y' /\
              tensor_eq y' y).
Proof.
  unfold Transpose_forward, tensor_transpose. cbn [Transpose_init tr_dim0 tr_dim1].
  destruct (wrap_dim (rank x) (tr_dim0 self)) as [d0|] eqn:H0; [|discriminate].
  destruct (wrap_dim (rank x) (tr_dim1 self)) as [d1|] eqn:H1; [|discriminate].
  cbn [bind].
  destruct (Nat.eqb_spec d0 d1) as [->|Hne].
  - intros [= <-]. rewrite H0, H1. cbn [bind]. rewrite Nat.eqb_refl.
    split; exists x; (split; [reflexivity|]); split; reflexivity.
  - unfold transpose.
    destruct (Nat.ltb_spec d0 (rank x)) as [Hd0|]; [|discriminate].
    destruct (Nat.ltb_spec d1 (rank x)) as [Hd1|]; [|discriminate].
    cbn [andb]. intros [= <-].
    assert (Hr : rank (mkTensor (swap_at 0 d0 d1 (size x))
                         (fun idx => get x (swap_at 0 d0 d1 idx))) = rank x).
    { unfold rank. cbn [size]. apply length_swap_at. }
    rewrite Hr, H0, H1. cbn [bind].
    destruct (Nat.eqb_spec d0 d1) as [|_]; [contradiction|].
    destruct (Nat.eqb_spec d1 d0) as [|_]; [congruence|].
    destruct (Nat.ltb_spec d0 (rank x)) as [_|]; [|lia].
    destruct (Nat.ltb_spec d1 (rank x)) as [_|]; [|lia].
    cbn [andb size get]. unfold rank in *. split.
    + eexists. split; [reflexivity|]. split.
      * cbn [size]. now apply swap_at_involutive.
      * cbn [size get]. intros idx Hb.
        rewrite swap_at_involutive in Hb by assumption.
        apply in_bounds_length in Hb.
        rewrite swap_at_involutive by lia. reflexivity.
    + eexists. split; [reflexivity|]. split.
      * cbn [size]. apply swap_at_sym.
      * cbn [size get]. intros idx _. now rewrite swap_at_sym.
Qed.

End TransposeLayer.

(** ** Channels last *)

Section ChannelsLast.

Context {R : Type} {scalar : Scalar R}.

Lemma undoes_rank3 : undoes (R := R) (Permute [0; 2; 1]%nat) (Permute [0; 2; 1]%nat) 3.
Proof.
  intros [sz g] Hr. unfold rank in Hr. cbn [size] in Hr.
  destruct sz as [|a [|b [|c [|]]]]; try discriminate Hr.
  eexists. eexists. split; [reflexivity|]. split; [reflexivity|].
  split; [reflexivity|]. cbn [size get]. intros idx Hb.
  apply in_bounds_length in Hb.
  destruct idx as [|i [|j [|k [|]]]]; try discriminate Hb. reflexivity.
Qed.

Lemma undoes_rank4 :
  undoes (R := R) (Permute [0; 3; 1; 2]%nat) (Permute [0; 2; 3; 1]%nat) 4.
Proof.
  intros [sz g] Hr. unfold rank in Hr. cbn [size] in Hr.
  destruct sz as [|a [|b [|c [|d [|]]]]]; try discriminate Hr.
  eexists. eexists. split; [reflexivity|]. split; [reflexivity|].
  split; [reflexivity|]. cbn [size get]. intros idx Hb.
  apply in_bounds_length in Hb.
  destruct idx as [|i [|j [|k [|l [|]]]]]; try discriminate Hb. reflexivity.
Qed.

Lemma undoes_rank5 :
  undoes (R := R) (Permute [0; 4; 1; 2; 3]%nat) (Permute [0; 2; 3; 4; 1]%nat) 5.
Proof.
  intros [sz g] Hr. unfold rank in Hr. cbn [size] in Hr.
  destruct sz as [|a [|b [|c [|d [|e [|]]]]]]; try discriminate Hr.
  eexists. eexists. split; [reflexivity|]. split; [reflexivity|].
  split; [reflexivity|]. cbn [size get]. intros idx Hb.
  apply in_bounds_length in Hb.
  destruct idx as [|i [|j [|k [|l [|m [|]]]]]]; try discriminate Hb. reflexivity.
Qed.

Ltac split_binds H :=
  repeat match type of H with
         | bind ?m _ = Ok _ =>
             let E := fresh "E" in
             destruct m eqn:E; cbn [bind] in H; [|discriminate H]
         end.

(** X8.  With [channels_last=True] the output permutation of every convolution
    layer undoes its input permutation: the result is laid out as the
    input is, (N, spatial..., C). *)
Theorem channels_last_layout_restored :
  (forall in_c out_c ks st dl groups bias pm padding (w0 b0 : list Z -> R) (c : Conv),
     Conv1d_init in_c out_c ks st dl groups bias pm padding true w0 b0 = Ok c ->
     undoes (input_permute c) (output_permute c) 3) /\
  (forall in_c out_c ks st dl groups bias pm padding (w0 b0 : list Z -> R) (c : Conv),
     Conv2d_init in_c out_c ks st dl groups bias pm padding true w0 b0 = Ok c ->
     undoes (input_permute c) (output_permute c) 4) /\
  (forall in_c out_c ks st dl groups bias pm padding (w0 b0 : list Z -> R) (c : Conv),
     Conv3d_init in_c out_c ks st dl groups bias pm padding true w0 b0 = Ok c ->
     undoes (input_permute c) (output_permute c) 5) /\
  (forall in_c out_c ks st op groups bias dl pm padding (w0 b0 : list Z -> R) (c : Conv),
     ConvTranspose1d_init in_c out_c ks st op groups bias dl pm padding true w0 b0
     = Ok c ->
     undoes (input_permute c) (output_permute c) 3) /\
  (forall in_c out_c ks st p op groups bias dl pm (w0 b0 : list Z -> R) (c : ConvTranspose),
     ConvTranspose2d_init in_c out_c ks st p op groups bias dl pm true w0 b0 = Ok c ->
     undoes (ct_input_permute c) (ct_output_permute c) 4) /\
  (forall in_c out_c ks st p op groups bias dl pm (w0 b0 : list Z -> R) (c : ConvTranspose),
     ConvTranspose3d_init in_c out_c ks st p op groups bias dl pm true w0 b0 = Ok c ->
     undoes (ct_input_permute c) (ct_output_permute c) 5).
Proof.
  repeat split; intros.
  - unfold Conv1d_init in H. split_binds H. injection H as <-. apply undoes_rank3.
  - unfold Conv2d_init in H. split_binds H. injection H as <-. apply undoes_rank4.
  - unfold Conv3d_init in H. split_binds H. injection H as <-. apply undoes_rank5.
  - unfold ConvTranspose1d_init in H. split_binds H. injection H as <-. apply undoes_rank3.
  - unfold ConvTranspose2d_init in H. split_binds H. injection H as <-. apply undoes_rank4.
  - unfold ConvTranspose3d_init in H. split_binds H. injection H as <-. apply undoes_rank5.
Qed.

End ChannelsLast.

(** ** [Permute] *)

Lemma perm_facts (r : nat) (dims : list nat) :
  length dims = r ->
  (forall k, (k < r)%nat -> existsb (Nat.eqb k) dims = true) ->
  NoDup dims /\ forall d, In d dims -> (d < r)%nat.
Proof.
  intros Hl Hex.
  assert (Hincl : incl (seq 0 r) dims).
  { intros k Hk. apply in_seq in Hk. specialize (Hex k ltac:(lia)).
    apply existsb_exists in Hex. destruct Hex as [d [Hd He]].
    apply Nat.eqb_eq in He. now subst. }
  split.
  - apply (NoDup_incl_NoDup (l := seq 0 r) (l' := dims));
      [apply seq_NoDup|rewrite length_seq; lia|exact Hincl].
  - intros d Hd.
    assert (Hin : In d (seq 0 r)).
    { apply (NoDup_length_incl (l := seq 0 r) (l' := dims));
        [apply seq_NoDup|rewrite length_seq; lia|exact Hincl|exact Hd]. }
    apply in_seq in Hin. lia.
Qed.

Lemma index_of_nth (dims : list nat) (p : nat) :
  NoDup dims -> (p < length dims)%nat -> index_of (nth p dims 0%nat) dims = p.
Proof.
  intros Hnd. revert p. induction Hnd as [|d dims Hnin Hnd IH]; intros p Hp.
  - simpl in Hp. lia.
  - destruct p as [|p]; cbn [nth index_of].
    + now rewrite Nat.eqb_refl.
    + simpl in Hp. destruct (Nat.eqb_spec d (nth p dims 0%nat)) as [He|_].
      * exfalso. apply Hnin. rewrite He. apply nth_In. lia.
      * f_equal. apply IH. lia.
Qed.

Section PermuteLayer.

Context {R : Type} {scalar : Scalar R}.

(** X9.  Two [Permute] layers in a row are one: [Permute(d2)] after
    [Permute(d1)] is [Permute] of the dimensions [d1[k]] for [k] in [d2]. *)
Theorem Permute_compose (d1 d2 : list nat) (x y z : Tensor R) :
  module_forward (Permute d1) x = Ok y ->
  module_forward (Permute d2) y = Ok z ->
  exists z',
    module_forward (Permute (map (fun k => nth k d1 0%nat) d2)) x = Ok z' /\
    tensor_eq z' z.
Proof.
  cbn [module_forward]. intros H1 H2.
  destruct (permute_inv _ _ _ H1) as [Hl1 [Hex1 Hy]].
  destruct (permute_inv _ _ _ H2) as [Hl2 [Hex2 Hz]].
  assert (Hry : rank y = rank x).
  { subst y. unfold rank. cbn [size]. rewrite length_map. exact Hl1. }
  rewrite Hry in Hl2, Hex2.
  destruct (perm_facts _ _ Hl1 Hex1) as [Hnd1 Hlt1].
  destruct (perm_facts _ _ Hl2 Hex2) as [Hnd2 Hlt2].
  set (d12 := map (fun k => nth k d1 0%nat) d2).
  assert (Hl12 : length d12 = rank x) by (unfold d12; now rewrite length_map).
  assert (Hpos : forall m, (m < rank x)%nat ->
            (index_of (index_of m d1) d2 < rank x)%nat /\
            nth (index_of (index_of m d1) d2) d12 0%nat = m).
  { intros m Hm.
    destruct (index_of_spec m d1 (Hex1 m Hm)) as [Hi1 Hn1].
    rewrite Hl1 in Hi1.
    destruct (index_of_spec _ d2 (Hex2 _ Hi1)) as [Hi2 Hn2].
    split; [lia|]. unfold d12.
    rewrite (nth_map_in_range _ _ _ 0%nat) by assumption.
    now rewrite Hn2. }
  assert (Hex12 : forall m, (m < rank x)%nat -> existsb (Nat.eqb m) d12 = true).
  { intros m Hm. destruct (Hpos m Hm) as [Hp Hn].
    apply existsb_exists. exists m. split; [|apply Nat.eqb_refl].
    rewrite <- Hn at 1. apply nth_In. lia. }
  destruct (perm_facts _ _ Hl12 Hex12) as [Hnd12 _].
  assert (Hidx : forall m, (m < rank x)%nat ->
            index_of m d12 = index_of (index_of m d1) d2).
  { intros m Hm. destruct (Hpos m Hm) as [Hp Hn].
    rewrite <- Hn at 1. apply index_of_nth; [assumption|lia]. }
  unfold permute at 1. rewrite Hl12, Nat.eqb_refl.
  replace (forallb _ (seq 0 (rank x))) with true.
  2:{ symmetry. apply forallb_forall. intros k Hk. apply in_seq in Hk. apply Hex12. lia. }
  cbn [andb]. eexists. split; [reflexivity|].
  subst z y. split.
  - cbn [size]. unfold d12. rewrite map_map. apply map_ext_in. intros k Hk.
    rewrite (nth_map_in_range _ _ _ 0%nat) by (rewrite Hl1; auto). reflexivity.
  - cbn [size get]. intros idx Hb. f_equal.
    unfold permuted_index at 1. rewrite Hl1.
    apply map_ext_in. intros m Hm. apply in_seq in Hm.
    rewrite Hidx by lia.
    destruct (index_of_spec m d1 (Hex1 m ltac:(lia))) as [Hi1 _].
    rewrite nth_permuted_index by lia. reflexivity.
Qed.

End PermuteLayer.

(** ** [SwitchLinear]: the index list *)

Lemma py_getitem_out_of_range {A : Type} (l : list A) (i : Z) :
  i < - zlen l \/ zlen l <= i -> py_getitem l i = Raise IndexError.
Proof.
  intros Hi. unfold py_getitem.
  destruct (Z.ltb_spec i 0).
  - destruct (Z.leb_spec 0 (i + zlen l)); [lia|]. reflexivity.
  - destruct (Z.leb_spec 0 i); [|lia].
    destruct (Z.ltb_spec i (zlen l)); [lia|]. reflexivity.
Qed.

Lemma py_getitem_raises {A : Type} (l : list A) (i : Z) (e : exn) :
  py_getitem l i = Raise e -> e = IndexError.
Proof.
  unfold py_getitem. destruct (_ && _); [|congruence].
  destruct (nth_error l _); congruence.
Qed.

Lemma py_getitem_wrap {A : Type} (l : list A) (i : Z) :
  - zlen l <= i -> py_getitem l (if i <? 0 then i + zlen l else i) = py_getitem l i.
Proof.
  intros Hi. destruct (Z.ltb_spec i 0) as [Hneg|]; [|reflexivity].
  unfold py_getitem.
  destruct (Z.ltb_spec (i + zlen l) 0); [lia|].
  destruct (Z.ltb_spec i 0); [|lia]. reflexivity.
Qed.

Lemma mapM_raise {A B : Type} (f : A -> res B) (bad : A -> Prop) (e : exn) (l : list A) :
  Exists bad l ->
  (forall a, bad a -> f a = Raise e) ->
  (forall a e', f a = Raise e' -> e' = e) ->
  mapM f l = Raise e.
Proof.
  intros Hex Hbad Honly. induction Hex as [a l Ha|a l _ IH]; cbn [mapM].
  - now rewrite (Hbad a Ha).
  - destruct (f a) as [b|e'] eqn:Hfa; cbn [bind].
    + now rewrite IH.
    + now rewrite (Honly a e' Hfa).
Qed.

Lemma mapM_ext_in {A B : Type} (f g : A -> res B) (l : list A) :
  Forall (fun a => f a = g a) l -> mapM f l = mapM g l.
Proof.
  induction 1 as [|a l Ha _ IH]; cbn [mapM]; [reflexivity|].
  now rewrite Ha, IH.
Qed.

Lemma mapM_map {A B C : Type} (f : B -> res C) (h : A -> B) (l : list A) :
  mapM f (map h l) = mapM (fun a => f (h a)) l.
Proof.
  induction l as [|a l IH]; cbn [map mapM]; [reflexivity|].
  now rewrite IH.
Qed.

Lemma broadcast_one_l (m : Z) : broadcast_shapes [1] [m] = Ok [m].
Proof.
  unfold broadcast_shapes. cbn [rev app bshape_rev bind].
  destruct (Z.eqb_spec 1 m) as [<-|_]; reflexivity.
Qed.

Lemma broadcast_mismatch (n m : Z) :
  n <> m -> n <> 1 -> m <> 1 -> broadcast_shapes [n] [m] = Raise RuntimeError.
Proof.
  intros H1 H2 H3. unfold broadcast_shapes. cbn [rev app bshape_rev bind].
  destruct (Z.eqb_spec n m); [contradiction|].
  destruct (Z.eqb_spec n 1); [contradiction|].
  destruct (Z.eqb_spec m 1); [contradiction|]. reflexivity.
Qed.

Lemma bcast_index (n i : Z) : 0 <= i < n -> (if n =? 1 then 0 else i) = i.
Proof. intros Hi. destruct (Z.eqb_spec n 1); lia. Qed.

Section SwitchLinearIndices.

Context {R : Type} {scalar : Scalar R} {kernels : @Kernels R}.

(** X10.  [SwitchLinear.forward] with no index raises [RuntimeError] (there is
    nothing to stack), and with an index outside
    [-num_experts, num_experts) it raises [IndexError], whatever the
    batch. *)
Theorem SwitchLinear_forward_index_errors (self : SwitchLinear) (x : Tensor R)
    (indices : list Z) :
  SwitchLinear_forward self x [] = Raise RuntimeError /\
  (Exists (fun i => i < - zlen (experts self) \/ zlen (experts self) <= i) indices ->
   SwitchLinear_forward self x indices = Raise IndexError).
Proof.
  split; [reflexivity|].
  intros Hex. unfold SwitchLinear_forward.
  rewrite (mapM_raise _ _ IndexError indices Hex); [reflexivity| |].
  - intros a Ha. now rewrite py_getitem_out_of_range.
  - intros a e'. destruct (py_getitem (experts self) a) as [b|e0] eqn:Hg; cbn [bind].
    + discriminate.
    + intros [= <-]. eapply py_getitem_raises; eauto.
Qed.

(** X11.  A negative index counts the experts from the last one: [forward] with
    the index [i - num_experts] is [forward] with the index [i]. *)
Theorem SwitchLinear_forward_negative_indices (self : SwitchLinear) (x : Tensor R)
    (indices : list Z) :
  Forall (fun i => - zlen (experts self) <= i) indices ->
  SwitchLinear_forward self x indices
  = SwitchLinear_forward self x
      (map (fun i => if i <? 0 then i + zlen (experts self) else i) indices).
Proof.
  intros Hall. unfold SwitchLinear_forward.
  rewrite !mapM_map.
  rewrite (mapM_ext_in
             (fun index => e <- py_getitem (experts self) index ;; Ok (nnl_weight e))
             (fun a => e <- py_getitem (experts self)
                         (if a <? 0 then a + zlen (experts self) else a) ;;
                       Ok (nnl_weight e)) indices).
  2:{ eapply Forall_impl; [|exact Hall]. intros a Ha. cbn beta.
      now rewrite py_getitem_wrap. }
  rewrite (mapM_ext_in
             (fun index => e <- py_getitem (experts self) index ;; Ok (nnl_bias e))
             (fun a => e <- py_getitem (experts self)
                         (if a <? 0 then a + zlen (experts self) else a) ;;
                       Ok (nnl_bias e)) indices).
  2:{ eapply Forall_impl; [|exact Hall]. intros a Ha. cbn beta.
      now rewrite py_getitem_wrap. }
  reflexivity.
Qed.

(** X12.  A batch of one example is broadcast over the index list: with
    [M] indices, [forward] returns [M] rows, and the element [k] of row
    [j] is the element [k] of the bias of the expert
    [experts[indices[j]]] added to what the kernel of the batched product
    makes of that one example and the row [k] of that expert's weight. *)
Theorem SwitchLinear_forward_single_example ne in_f out_f init (x : Tensor R)
    indices M j :
  size x = [1; in_f] -> zlen indices = M ->
  Forall (fun idx => 0 <= idx < ne) indices ->
  0 <= j < M ->
  let self := SwitchLinear_init ne in_f out_f true init in
  exists out e w b,
    SwitchLinear_forward self x indices = Ok out /\
    size out = [M; out_f] /\
    py_getitem (experts self) (znth 0 indices j) = Ok e /\
    nnl_weight e = w /\ nnl_bias e = Some b /\
    forall k, 0 <= k < out_f ->
      get out [j; k]
      = radd (matmul_dot [1; 1; in_f] [M; in_f; out_f] [j; 0; k]
                (map (fun c => get x [0; c]) (zrange in_f))
                (map (fun c => get w [k; c]) (zrange in_f)))
             (get b [k]).
Proof.
  intros Hx HM Hidx Hj self.
  destruct x as [sx gx]. simpl in Hx. subst sx.
  set (E := fun k => nn_Linear_init in_f out_f true (fst (init k)) (snd (init k))).
  assert (Hget : forall idx, 0 <= idx < ne -> py_getitem (experts self) idx = Ok (E idx)).
  { intros idx Hr. unfold self, SwitchLinear_init. simpl. now apply py_getitem_map_zrange. }
  assert (Hne : indices <> []).
  { intros ->. unfold zlen in HM. simpl in HM. lia. }
  assert (Hin : 0 <= znth 0 indices j < ne).
  { rewrite Forall_forall in Hidx. apply Hidx. unfold znth. apply nth_In.
    unfold zlen in HM. lia. }
  unfold SwitchLinear_forward.
  rewrite (mapM_ok_map _ (fun idx => nnl_weight (E idx))).
  2:{ eapply Forall_impl; [|exact Hidx]. intros a Ha. simpl. now rewrite Hget. }
  rewrite (mapM_ok_map _ (fun idx => nnl_bias (E idx))).
  2:{ eapply Forall_impl; [|exact Hidx]. intros a Ha. simpl. now rewrite Hget. }
  cbn [bind].
  set (B := fun idx => mkTensor [out_f] (snd (init idx))).
  replace (map (fun idx => nnl_bias (E idx)) indices) with (map Some (map B indices))
    by (rewrite map_map; reflexivity).
  rewrite stack_py_some.
  rewrite (stack_map_same_size _ _ 0 [out_f; in_f] Hne) by reflexivity.
  rewrite (stack_map_same_size _ _ 0 [out_f] Hne) by reflexivity.
  rewrite HM.
  eexists. exists (E (znth 0 indices j)).
  exists (nnl_weight (E (znth 0 indices j))), (B (znth 0 indices j)).
  split.
  { cbn. unfold matmul, matmul_operands, bmm_operands. cbn. rewrite !Z.eqb_refl.
    rewrite broadcast_one_l. cbn.
    unfold tadd. rewrite binop_same_size by reflexivity. cbn. reflexivity. }
  split; [reflexivity|].
  split; [now apply Hget|].
  split; [reflexivity|]. split; [reflexivity|].
  intros k Hk. cbn.
  rewrite !(bcast_index M) by assumption. rewrite !(bcast_index out_f) by assumption.
  rewrite !(znth_map _ _ 0 _) by lia. unfold B. cbn [get].
  reflexivity.
Qed.

(** X13.  A batch of [N] examples with [M] indices, where [N] and [M] differ and
    neither is 1, raises [RuntimeError]. *)
Theorem SwitchLinear_forward_batch_mismatch ne in_f out_f init (x : Tensor R)
    indices N M :
  size x = [N; in_f] -> zlen indices = M ->
  Forall (fun idx => 0 <= idx < ne) indices ->
  N <> M -> N <> 1 -> M <> 1 -> 0 < M ->
  SwitchLinear_forward (SwitchLinear_init ne in_f out_f true init) x indices
  = Raise RuntimeError.
Proof.
  intros Hx HM Hidx HNM HN1 HM1 HMpos.
  set (self := SwitchLinear_init ne in_f out_f true init).
  destruct x as [sx gx]. simpl in Hx. subst sx.
  set (E := fun k => nn_Linear_init in_f out_f true (fst (init k)) (snd (init k))).
  assert (Hget : forall idx, 0 <= idx < ne -> py_getitem (experts self) idx = Ok (E idx)).
  { intros idx Hr. unfold self, SwitchLinear_init. simpl. now apply py_getitem_map_zrange. }
  assert (Hne : indices <> []).
  { intros ->. unfold zlen in HM. simpl in HM. lia. }
  unfold SwitchLinear_forward.
  rewrite (mapM_ok_map _ (fun idx => nnl_weight (E idx))).
  2:{ eapply Forall_impl; [|exact Hidx]. intros a Ha. simpl. now rewrite Hget. }
  rewrite (mapM_ok_map _ (fun idx => nnl_bias (E idx))).
  2:{ eapply Forall_impl; [|exact Hidx]. intros a Ha. simpl. now rewrite Hget. }
  cbn [bind].
  set (B := fun idx => mkTensor [out_f] (snd (init idx))).
  replace (map (fun idx => nnl_bias (E idx)) indices) with (map Some (map B indices))
    by (rewrite map_map; reflexivity).
  rewrite stack_py_some.
  rewrite (stack_map_same_size _ _ 0 [out_f; in_f] Hne) by reflexivity.
  rewrite (stack_map_same_size _ _ 0 [out_f] Hne) by reflexivity.
  rewrite HM.
  cbn. unfold matmul, matmul_operands, bmm_operands. cbn. rewrite !Z.eqb_refl.
  rewrite broadcast_mismatch by assumption. reflexivity.
Qed.

End SwitchLinearIndices.

(** ** Synaptic noise without a magnitude *)

Section NoiseMagnitude.

Context {R : Type} {scalar : Scalar R} {kernels : @Kernels R} {sampler : @Sampler R}
  {recurrent : @Recurrent R}.

Lemma noise_loop_no_magnitude (flat noises : list (Tensor R)) (i : Z) (ixs : list Z)
    (acc : list (Tensor R)) (w0 n0 : Tensor R) :
  py_getitem flat (2 * i) = Ok w0 -> py_getitem noises i = Ok n0 ->
  noise_loop flat noises None (i :: ixs) acc = Raise TypeError.
Proof.
  intros Hw Hn. cbn [noise_loop]. rewrite Hw. cbn [bind]. rewrite Hn. reflexivity.
Qed.

(** X14.  A layer in training mode that sampled its noise while its magnitude
    was never set (no [init_vn]) cannot run: [forward] of [Linear] and of
    [Embedding] raises [TypeError] on every input, and [LSTM.forward]
    raises on every input, with [TypeError] where it builds its weight
    list. *)
Theorem training_forward_needs_magnitude :
  (forall (lin : Linear) d g x,
     lin_training lin = true -> lin_vn_std lin = None ->
     Linear_forward (fst (Linear_sample_synaptic_noise lin d g)) x = Raise TypeError) /\
  (forall (emb : Embedding) d g input,
     emb_training emb = true -> emb_vn_std emb = None ->
     Embedding_forward (fst (Embedding_sample_synaptic_noise emb d g)) input
     = Raise TypeError) /\
  (forall (lstm : LSTM) (grp : lstm_group) (groups : list lstm_group) d g lstm' g',
     flat_weights lstm = flat_map group_weights (grp :: groups) ->
     lstm_training lstm = true -> lstm_vn_std lstm = None ->
     LSTM_sample_synaptic_noise lstm d g = Ok (lstm', g') ->
     LSTM_weight lstm' = Raise TypeError /\
     forall input hx, raises (LSTM_forward lstm' input hx)).
Proof.
  split; [|split].
  - intros lin d g x Htr Hvn.
    unfold Linear_sample_synaptic_noise, torch_normal.
    destruct (normal_values g _) as [v g']. cbn [fst].
    unfold Linear_forward. cbn [Linear_with_noise lin_noise lin_training lin_vn_std].
    rewrite Htr, Hvn. reflexivity.
  - intros emb d g input Htr Hvn.
    unfold Embedding_sample_synaptic_noise, torch_normal.
    destruct (normal_values g _) as [v g']. cbn [fst].
    unfold Embedding_forward.
    cbn [Embedding_with_noise emb_noise emb_training emb_vn_std].
    rewrite Htr, Hvn. reflexivity.
  - intros lstm grp groups d g lstm' g' Hflat Htr Hvn Hs.
    assert (HW : LSTM_weight lstm' = Raise TypeError).
    { unfold LSTM_sample_synaptic_noise in Hs. rewrite Hflat in Hs.
      replace (zlen (flat_map group_weights (grp :: groups)))
        with (Z.of_nat (length (grp :: groups)) * 4) in Hs.
      2:{ unfold zlen. rewrite (length_flat_map_const _ 4) by reflexivity. lia. }
      rewrite py_range_from_zero in Hs by lia.
      destruct (sample_loop_groups (grp :: groups) [] [] g) as [ns [g1 [Hloop Hsz]]].
      cbn [app length] in Hloop. cbn [length] in Hs. rewrite Hloop in Hs.
      cbn [bind app] in Hs. injection Hs as <- <-.
      inversion Hsz as [|? n0 ? ns' _ _ Hgr Hns]; subst.
      unfold LSTM_weight.
      cbn [LSTM_with_noise lstm_noises lstm_training flat_weights lstm_vn_std].
      rewrite Htr, Hvn, Hflat.
      set (noises := if d then _ else _).
      assert (Hlen : zlen noises = Z.of_nat (length (n0 :: ns')) * 2).
      { unfold noises, zlen. destruct d; [rewrite length_map|];
          unfold noise_list; rewrite (length_flat_map_const _ 2) by reflexivity; lia. }
      rewrite Hlen, py_range_from_zero by lia. cbn [length seq map].
      change (Z.of_nat 0 * 2) with 0.
      assert (Hn0 : exists a, py_getitem noises 0 = Ok a).
      { unfold noises. destruct d; eexists; reflexivity. }
      destruct Hn0 as [a Ha].
      eapply noise_loop_no_magnitude; [|exact Ha]. reflexivity. }
    split; [exact HW|].
    intros input hx. unfold LSTM_forward.
    destruct (match input with Packed _ => _ | Padded _ => _ end) as [u|e];
      [|now exists e].
    cbn [bind]. destruct u as [[[[inp bs] mb] si] ui].
    destruct (match hx with Some _ => _ | None => _ end) as [h|e]; [|now exists e].
    cbn [bind]. rewrite HW. now exists TypeError.
Qed.

End NoiseMagnitude.

(** ** [Embedding]: the padding row *)

Section EmbeddingPadding.

Context {R : Type} {scalar : Scalar R} {sampler : @Sampler R}.

Lemma removelast_snoc {A : Type} (l : list A) (a : A) : removelast (l ++ [a]) = l.
Proof. now rewrite removelast_app, app_nil_r by discriminate. Qed.

Lemma F_embedding_element (input : Tensor Z) (weight y : Tensor R) (idx : list Z) (j : Z) :
  F_embedding input weight = Ok y ->
  get y (idx ++ [j]) = get weight [get input idx; j].
Proof.
  unfold F_embedding. destruct (size weight) as [|v [|e [|]]]; try discriminate.
  destruct (forallb _ _); [|discriminate].
  intros [= <-]. cbn [get]. now rewrite removelast_snoc, last_last.
Qed.

Lemma Embedding_init_padding (n d p : Z) (w0 : list Z -> R) :
  0 < n ->
  Embedding_init n d (Some p) w0 = Raise AssertionError \/
  (let q := if p <? 0 then n + p else p in
   0 <= q < n /\
   Embedding_init n d (Some p) w0
   = Ok {| emb_num_embeddings := n;
           emb_embedding_dim := d;
           emb_padding_idx := Some q;
           emb_weight :=
             mkTensor [n; d] (fun idx => if hd 0 idx =? q then rzero else w0 idx);
           emb_noise := None;
           emb_vn_std := None;
           emb_training := true |}).
Proof.
  intros Hn. unfold Embedding_init.
  destruct (Z.ltb_spec 0 p).
  - destruct (Z.ltb_spec p n); [|now left].
    right. destruct (Z.ltb_spec p 0); [lia|]. split; [lia|reflexivity].
  - destruct (Z.ltb_spec p 0).
    + destruct (Z.leb_spec (- n) p); [|now left].
      right. split; [lia|reflexivity].
    + right. split; [lia|reflexivity].
Qed.

(** X15.  [Embedding(num_embeddings, embedding_dim, padding_idx)] for a table
    that is not empty: a padding index outside
    [-num_embeddings, num_embeddings) fails the assertion of the
    constructor; otherwise the layer stores the index counted from the
    front, its row of the table is zero, and [forward] of the new layer
    returns the zero vector wherever the input holds that index. *)
Theorem Embedding_padding_row (n d p : Z) (w0 : list Z -> R) :
  0 < n ->
  if (n <=? p) || (p <? - n) then
    Embedding_init n d (Some p) w0 = Raise AssertionError
  else
    let q := if p <? 0 then n + p else p in
    exists e,
      Embedding_init n d (Some p) w0 = Ok e /\
      0 <= q < n /\
      emb_padding_idx e = Some q /\
      (forall j, get (emb_weight e) [q; j] = rzero) /\
      forall input y idx j,
        Embedding_forward e input = Ok y ->
        get input idx = q -> get y (idx ++ [j]) = rzero.
Proof.
  intros Hn. unfold Embedding_init.
  destruct (Z.leb_spec n p) as [Hhi|Hhi]; cbn [orb].
  - destruct (Z.ltb_spec 0 p); [|lia].
    destruct (Z.ltb_spec p n); [lia|]. reflexivity.
  - destruct (Z.ltb_spec p (- n)) as [Hlo|Hlo].
    + destruct (Z.ltb_spec 0 p); [lia|].
      destruct (Z.ltb_spec p 0); [|lia].
      destruct (Z.leb_spec (- n) p); [lia|]. reflexivity.
    + cbv zeta.
      assert (Hp : (if 0 <? p then py_assert (p <? n) ;;; Ok (Some p)
                    else if p <? 0 then py_assert (- n <=? p) ;;; Ok (Some (n + p))
                    else Ok (Some p))
                   = Ok (Some (if p <? 0 then n + p else p))).
      { destruct (Z.ltb_spec 0 p).
        - destruct (Z.ltb_spec p n); [|lia]. destruct (Z.ltb_spec p 0); [lia|]. reflexivity.
        - destruct (Z.ltb_spec p 0).
          + destruct (Z.leb_spec (- n) p); [|lia]. reflexivity.
          + reflexivity. }
      rewrite Hp. cbn [bind].
      set (q := if p <? 0 then n + p else p).
      eexists. split; [reflexivity|].
      split; [unfold q; destruct (Z.ltb_spec p 0); lia|].
      split; [reflexivity|].
      assert (Hrow : forall j,
                get (mkTensor [n; d]
                       (fun idx => if hd 0 idx =? q then rzero else w0 idx)) [q; j] = rzero).
      { intros j. cbn [get hd]. now rewrite Z.eqb_refl. }
      split; [exact Hrow|].
      intros input y idx j Hf Hq. unfold Embedding_forward in Hf.
      cbn [emb_noise emb_weight bind] in Hf.
      rewrite (F_embedding_element _ _ _ idx j Hf), Hq. apply Hrow.
Qed.

(** X16.  Synaptic noise does not spare the padding row: after [init_vn(m)] and
    [sample_synaptic_noise], [forward] in training mode returns, where the
    input holds the padding index [q], the elements [0 + m * noise[q][j]]
    of the noise. *)
Theorem Embedding_noise_reaches_padding_row (n d p : Z) (w0 : list Z -> R) (e : Embedding)
    (m : R) (distributed : bool) (g : rng) :
  0 < n ->
  Embedding_init n d (Some p) w0 = Ok e ->
  let q := if p <? 0 then n + p else p in
  let e1 := fst (Embedding_sample_synaptic_noise (Embedding_init_vn e m) distributed g) in
  exists noise,
    emb_noise e1 = Some noise /\ emb_training e1 = true /\
    forall input y idx j,
      Embedding_forward e1 input = Ok y ->
      get input idx = q -> 0 <= j < d ->
      get y (idx ++ [j]) = radd rzero (rmul m (get noise [q; j])).
Proof.
  intros Hn Hinit q e1.
  destruct (Embedding_init_padding n d p w0 Hn) as [Hfail|[Hq He]].
  { rewrite Hfail in Hinit. discriminate. }
  rewrite He in Hinit. injection Hinit as <-. fold q in Hq.
  unfold e1, Embedding_sample_synaptic_noise, Embedding_init_vn, torch_normal.
  cbn [Embedding_with_noise emb_weight size].
  destruct (normal_values g [n; d]) as [v g']. cbn [fst].
  set (noise := if distributed then dist_broadcast (mkTensor [n; d] v)
                else mkTensor [n; d] v).
  exists noise. split; [reflexivity|]. split; [reflexivity|].
  intros input y idx j Hf Hin Hj.
  unfold Embedding_forward in Hf.
  cbn [Embedding_with_noise emb_noise emb_training emb_vn_std emb_weight vn_scale bind]
    in Hf.
  assert (Hsz : size noise = [n; d]) by (unfold noise; now destruct distributed).
  unfold tadd in Hf. rewrite binop_same_size in Hf by (cbn [size scale]; now rewrite Hsz).
  cbn [bind] in Hf.
  rewrite (F_embedding_element _ _ _ idx j Hf), Hin.
  cbn [get size scale]. rewrite Hsz.
  rewrite !bidx_in_bounds
    by (cbn [in_bounds]; rewrite !andb_true_iff, !Z.leb_le, !Z.ltb_lt; lia).
  cbn [hd]. fold q. now rewrite Z.eqb_refl.
Qed.

End EmbeddingPadding.

(** ** Global pooling *)

Lemma all_indices_one (t : Z) : all_indices [t] = map (fun s => [s]) (zrange t).
Proof.
  cbn [all_indices]. induction (zrange t) as [|s l IH]; [reflexivity|].
  cbn [flat_map map app]. now f_equal.
Qed.

Section MaskedPooling.

Context {R : Type} {scalar : Scalar R}.

(** X17.  [GlobalAvgPool1d(dim=1, keepdim=True)] with a mask: the sum keeps the
    pooled dimension and the count of the mask does not, so on a batch of
    size (N, T, C) the division broadcasts to a result of size (N, N, C)
    whose element (i, j, k) divides the masked sum of example [i] by the
    count of example [j]. *)
Theorem GlobalAvgPool1d_masked_keepdim (x mask : Tensor R) (n t c : Z) :
  size x = [n; t; c] -> size mask = [n; t; c] ->
  exists y,
    GlobalAvgPool1d_forward (GlobalAvgPool1d_init 1 true) x (Some mask) = Ok y /\
    size y = [n; n; c] /\
    forall i j k, 0 <= i < n -> 0 <= j < n -> 0 <= k < c ->
      get y [i; j; k]
      = rdiv (rsum (map (fun s => rmul (get x [i; s; k]) (get mask [i; s; k])) (zrange t)))
             (rofZ (zlen (filter rnonzero (map (fun s => get mask [j; s; k]) (zrange t))))).
Proof.
  intros Hx Hm. destruct x as [sx gx], mask as [sm gm]. cbn [size] in Hx, Hm. subst sx sm.
  unfold GlobalAvgPool1d_forward, GlobalAvgPool1d_init. cbn [gap_dim gap_keepdim].
  unfold tmul. rewrite binop_same_size by reflexivity. cbn [bind].
  unfold tsum, count_nonzero, reduce, rank. cbn [size length forallb Nat.ltb Nat.leb andb bind].
  unfold tdiv, binop. cbn [size to_float reduced_size fold_left rev app replace_at remove_at
                             firstn skipn].
  assert (Hb : broadcast_shapes [n; 1; c] [n; c] = Ok [n; n; c]).
  { unfold broadcast_shapes. cbn [rev app bshape_rev].
    destruct (Z.eqb_spec 1 n) as [<-|_]; cbn [bind]; rewrite !Z.eqb_refl; reflexivity. }
  rewrite Hb. cbn [bind].
  eexists. split; [reflexivity|]. split; [reflexivity|].
  intros i j k Hi Hj Hk. cbn [get size map nth].
  unfold bidx. cbn [length Nat.sub skipn map2].
  change (1 =? 1) with true. cbn iota.
  rewrite !(bcast_index n) by assumption. rewrite !(bcast_index c) by assumption.
  rewrite !all_indices_one, !map_map.
  f_equal.
  - f_equal. apply map_ext_in. intros s Hs. apply in_zrange in Hs.
    unfold scatter. cbn [combine fold_left fst snd replace_at firstn skipn app].
    cbn [length Nat.sub skipn map2].
    rewrite !(bcast_index n), !(bcast_index c), !(bcast_index t) by assumption.
    reflexivity.
  - cbn [to_float get]. rewrite map_map. reflexivity.
Qed.

End MaskedPooling.

Lemma in_bounds_all_indices (sz idx : list Z) :
  in_bounds sz idx = true -> In idx (all_indices sz).
Proof.
  revert idx. induction sz as [|s sz IH]; intros [|i idx]; cbn [in_bounds]; try discriminate.
  - intros _. now left.
  - rewrite !andb_true_iff, Z.leb_le, Z.ltb_lt. intros [[H0 Hs] Hb].
    cbn [all_indices]. apply in_flat_map. exists i. split.
    + apply in_zrange. lia.
    + apply in_map. now apply IH.
Qed.

Section MaxPoolFacts.

Context {R : Type} {scalar : Scalar R} {maxscalar : MaxScalar R}.

Variable rle : R -> R -> Prop.

Hypothesis rle_refl : forall a, rle a a.
Hypothesis rle_trans : forall a b c, rle a b -> rle b c -> rle a c.
Hypothesis rmax_l : forall a b, rle a (rmax a b).
Hypothesis rmax_r : forall a b, rle b (rmax a b).
Hypothesis rmax_cases : forall a b, rmax a b = a \/ rmax a b = b.

Lemma fold_rmax_spec (l : list R) (a : R) :
  (rle a (fold_left rmax l a) /\ Forall (fun b => rle b (fold_left rmax l a)) l) /\
  (fold_left rmax l a = a \/ In (fold_left rmax l a) l).
Proof.
  revert a. induction l as [|b l IH]; intros a; cbn [fold_left].
  - split; [split; [apply rle_refl|constructor]|now left].
  - destruct (IH (rmax a b)) as [[Ha Hl] Hin]. split; [split|].
    + eapply rle_trans; [apply rmax_l|exact Ha].
    + constructor; [|exact Hl]. eapply rle_trans; [apply rmax_r|exact Ha].
    + destruct Hin as [Heq|Hin]; [|right; now right].
      rewrite Heq. destruct (rmax_cases a b) as [->| ->]; [now left|right; now left].
Qed.


End MaxPoolFacts.

(** ** Output lengths *)

Section OutputLengths.

Context {R : Type} {scalar : Scalar R}.

Lemma conv_out_len_inv (l k s d o : Z) :
  conv_out_len l k s d = Ok o -> o = (l - d * (k - 1) - 1) / s + 1.
Proof.
  unfold conv_out_len. destruct (_ && _); [|discriminate]. congruence.
Qed.

(** The sizes along [Conv.forward] for a layer of rank 1 without native
    padding whose pre-padding adds [P] positions in all. *)
Lemma Conv1d_forward_length (self : Conv) (cl : bool) (pre : module) (P k s d : Z)
    (w : Tensor R) (x y : Tensor R) :
  pre_padding self = pre ->
  (pre = Identity /\ P = 0 \/ exists l r, pre = ConstantPad [l; r] /\ l + r = P) ->
  input_permute self = (if cl then Permute [0; 2; 1]%nat else Identity) ->
  output_permute self = (if cl then Permute [0; 2; 1]%nat else Identity) ->
  nnc_padding (conv_super self) = [0] ->
  nnc_kernel_size (conv_super self) = [k] ->
  nnc_stride (conv_super self) = [s] ->
  nnc_dilation (conv_super self) = [d] ->
  conv_weight (conv_super self) = w -> tl (tl (size w)) = [k] ->
  Conv_forward self x = Ok y ->
  exists L,
    spatial_size cl (size x) = [L] /\
    spatial_size cl (size y) = [(L + P - d * (k - 1) - 1) / s + 1].
Proof.
  intros Hpre HP Hin Hout Hpad Hks Hst Hdl Hw Hwk Hfw.
  destruct (Conv_forward_inv _ _ _ Hfw) as (x1 & x2 & x3 & y0 & H1 & H2 & H3 & H4 & H5).
  rewrite Hin in H1. rewrite Hout in H5. rewrite Hpre in H2.
  rewrite Hpad in H3. rewrite native_pad_zero in H3 by reflexivity. injection H3 as <-.
  rewrite Hst, Hdl, Hw in H4.
  destruct (F_conv_inv _ _ _ _ _ _ _ H4)
    as (n & c & sp & o & cg & ks' & osp & Hx2 & Hsw & Ho & Hy0).
  rewrite Hsw in Hwk. cbn [tl] in Hwk. subst ks'.
  destruct sp as [|l sp']; [discriminate Ho|].
  cbn [conv_out_size] in Ho.
  destruct (conv_out_len l k s d) as [ol|e] eqn:Hol; [|discriminate Ho].
  cbn [bind] in Ho. destruct sp'; [|discriminate Ho].
  cbn [bind] in Ho. injection Ho as <-.
  apply conv_out_len_inv in Hol.
  assert (Hx1 : exists L, size x1 = [n; c; L] /\ l = L + P).
  { destruct HP as [[-> ->]|(pl & pr & -> & HPs)].
    - cbn [module_forward] in H2. injection H2 as <-. exists l. split; [assumption|lia].
    - cbn [module_forward] in H2.
      pose proof (constant_pad_rank _ _ _ H2) as Hr.
      destruct (constant_pad_inv _ _ _ H2) as [Hs2 _]. cbn zeta in Hs2.
      unfold rank in Hr. rewrite Hx2 in Hr. cbn [length] in Hr.
      unfold rank in Hs2. rewrite <- Hr in Hs2.
      destruct (size x1) as [|n1 [|c1 [|l1 [|]]]] eqn:Hx1; try discriminate Hr.
      rewrite Hx2 in Hs2. cbn in Hs2. injection Hs2 as -> -> ->.
      exists l1. split; [f_equal; [lia|f_equal; lia]|lia]. }
  destruct Hx1 as (L & Hx1 & HL). exists L.
  destruct cl; cbn [module_forward] in H1, H5.
  - destruct (permute_inv _ _ _ H1) as [Hr1 [_ ->]].
    destruct (permute_inv _ _ _ H5) as [_ [_ ->]].
    cbn [size] in Hx1 |- *. rewrite Hy0.
    unfold rank in Hr1. cbn [length] in Hr1.
    destruct (size x) as [|a [|b [|e [|]]]]; try discriminate Hr1.
    cbn in Hx1. injection Hx1 as <- <- <-.
    cbn [spatial_size removelast tl map nth size]. split; [reflexivity|].
    f_equal. subst ol l. reflexivity.
  - injection H1 as <-. injection H5 as <-. rewrite Hx1, Hy0.
    cbn [spatial_size removelast tl map nth size]. split; [reflexivity|].
    f_equal. subst ol l. reflexivity.
Qed.

(** X19.  The output length of [Conv1d] for any kernel size [k], stride [s] and
    dilation [d]: an input of length [L] gives
    (L + P - d * (k - 1) - 1) // s + 1 positions, where the pre-padding
    adds P = 0 positions in mode valid and P = k - 1 in the modes same and
    causal, which therefore always give outputs of one size. *)
Theorem Conv1d_output_length (in_c out_c : Z) (ks st dl : int_or_tuple)
    (groups : Z) (bias : bool) (pm padding : string) (cl : bool) (w0 b0 : list Z -> R)
    (self : Conv) (k s d : Z) (x y : Tensor R) :
  Conv1d_init in_c out_c ks st dl groups bias pm padding cl w0 b0 = Ok self ->
  ntuple 1 ks = [k] -> ntuple 1 st = [s] -> ntuple 1 dl = [d] ->
  Conv1d_forward self x = Ok y ->
  let P := if String.eqb padding "valid" then 0 else k - 1 in
  exists L,
    spatial_size cl (size x) = [L] /\
    spatial_size cl (size y) = [(L + P - d * (k - 1) - 1) / s + 1].
Proof.
  intros Hinit Hks Hst Hdl Hfw P.
  unfold Conv1d_init in Hinit.
  destruct (nn_ConvNd_init _ _ _ _ _ _ _ _ _ _ _ _ _ _) as [super|e] eqn:Hsup;
    [|discriminate Hinit].
  apply nn_ConvNd_init_inv in Hsup. subst super.
  rewrite Hks, Hst, Hdl in Hinit. cbn [bind nnc_kernel_size] in Hinit.
  destruct (py_assert _); [|discriminate Hinit]. cbn [bind] in Hinit.
  change (py_getitem [k] 0) with (Ok k) in Hinit. cbn [bind] in Hinit.
  destruct (String.eqb padding "valid") eqn:Hv;
    [|destruct (String.eqb padding "same") eqn:Hs;
      [|destruct (String.eqb padding "causal") eqn:Hc; [|discriminate Hinit]]];
    cbn [bind] in Hinit; injection Hinit as <-;
    eapply Conv1d_forward_length; try exact Hfw; try reflexivity.
  - left. split; reflexivity.
  - right. exists (k / 2), ((k - 1) / 2). split; [reflexivity|]. unfold P. apply half_sum.
  - right. exists (k - 1), 0. split; [reflexivity|]. unfold P. lia.
Qed.

End OutputLengths.



(** ** [Upsample3d] *)

Section UpsampleFacts.

Context {R : Type} {scalar : Scalar R}.

(** X21.  [Upsample3d] always holds three scale factors: the constructor
    accepts an int, which it repeats three times, or a tuple of three
    numbers, and the layer it returns stores a tuple of three floats. A
    float or [None] fails its first assertion and a list or tuple of
    another length its second one; a list of three passes both assertions
    and is then refused by the wrapped constructor with [TypeError]. *)
Theorem Upsample3d_init_spec (scale_factor : py_arg) :
  (forall u, Upsample3d_init scale_factor = Ok u ->
     exists a b c : R,
       up_scale_factor u = ScaleEach [a; b; c] /\
       ((exists n, scale_factor = ArgInt n /\ a = rofZ n /\ b = rofZ n /\ c = rofZ n) \/
        (exists va vb vc, scale_factor = ArgTuple [va; vb; vc] /\
           a = py_float va /\ b = py_float vb /\ c = py_float vc))) /\
  (forall n, Upsample3d_init (ArgInt n)
             = Upsample3d_init (ArgTuple [PyInt n; PyInt n; PyInt n])) /\
  (forall va vb vc, Upsample3d_init (ArgList [va; vb; vc]) = Raise TypeError) /\
  (forall l, length l <> 3%nat ->
     Upsample3d_init (ArgList l) = Raise AssertionError /\
     Upsample3d_init (ArgTuple l) = Raise AssertionError) /\
  (forall f, Upsample3d_init (ArgFloat f) = Raise AssertionError) /\
  Upsample3d_init ArgNone = Raise AssertionError.
Proof.
  split; [|split; [|split; [|split; [|split]]]]; try reflexivity.
  - intros u. destruct scale_factor as [n|f|l|l|]; cbn.
    + intros [= <-]. do 3 eexists. split; [reflexivity|]. left. eauto.
    + discriminate.
    + destruct l as [|va [|vb [|vc [|]]]]; cbn; discriminate.
    + destruct l as [|va [|vb [|vc [|]]]]; cbn; try discriminate.
      intros [= <-]. do 3 eexists. split; [reflexivity|]. right.
      exists va, vb, vc. auto.
    + discriminate.
  - intros l Hl. unfold Upsample3d_init.
    destruct (Nat.eqb_spec (length l) 3); [contradiction|]. split; reflexivity.
Qed.

End UpsampleFacts.

(** ** The layer dictionary *)

(** X22.  [layer_dict] maps every key to the class of that name, no key occurs
    twice, and of the classes the module defines all are listed except
    [SwitchLinear], [LSTM], [Embedding] and [Upsample3d], whose names are
    no keys. *)
Theorem layer_dict_names :
  NoDup (map fst layer_dict) /\
  (forall name c, dict_lookup layer_dict name = Some c -> class_name c = name) /\
  (forall c, In c module_classes ->
     (dict_lookup layer_dict (class_name c) = Some c \/
      dict_lookup layer_dict (class_name c) = None /\
      In c [cls_SwitchLinear; cls_LSTM; cls_Embedding; cls_Upsample3d])) /\
  Forall (fun c => dict_lookup layer_dict (class_name c) = None)
    [cls_SwitchLinear; cls_LSTM; cls_Embedding; cls_Upsample3d].
Proof.
  split; [|split; [|split]].
  - cbn [layer_dict map fst].
    repeat (constructor; [cbn [In]; intuition discriminate|]). constructor.
  - intros name c. unfold layer_dict. cbn [dict_lookup].
    repeat match goal with
           | |- context [String.eqb ?k name] =>
               destruct (String.eqb_spec k name) as [<-|_]; [now intros [= <-]|]
           end.
    discriminate.
  - intros c Hc. cbn [module_classes In] in Hc.
    repeat (destruct Hc as [<-|Hc];
            [first [left; reflexivity | right; split; [reflexivity|cbn [In]; tauto]]|]).
    contradiction.
  - repeat constructor.
Qed.

(** ** The layers at work *)

Lemma Zmax_cases (a b : Z) : Z.max a b = a \/ Z.max a b = b.
Proof. destruct (Z.max_spec a b) as [[_ ->]|[_ ->]]; auto. Qed.

Lemma Reshape_forward_keeps_order_witness :
  exists y,
    Reshape_forward (Reshape_init [3; -1] true) (of_list2 0 [[1; 2; 3]; [4; 5; 6]]) = Ok y /\
    valid_size (size y) /\
    numel y = numel (of_list2 0 [[1; 2; 3]; [4; 5; 6]]) /\
    to_list y = to_list (of_list2 0 [[1; 2; 3]; [4; 5; 6]]) /\
    (rs_include_batch (Reshape_init [3; -1] true) = true ->
     ~ In (-1) (rs_shape (Reshape_init [3; -1] true)) ->
     size y = rs_shape (Reshape_init [3; -1] true)).
Proof.
  assert (Hy : exists y, Reshape_forward (Reshape_init [3; -1] true)
                           (of_list2 0 [[1; 2; 3]; [4; 5; 6]]) = Ok y)
    by (eexists; reflexivity).
  destruct Hy as [y Hy]. exists y. split; [assumption|].
  apply (Reshape_forward_keeps_order (Reshape_init [3; -1] true)
           (of_list2 0 [[1; 2; 3]; [4; 5; 6]]) y).
  - repeat constructor; cbn; lia.
  - assumption.
Defined.

Lemma Reshape_round_trip_witness :
  exists y z,
    Reshape_forward (Reshape_init [3; 2] true) (of_list2 0 [[1; 2; 3]; [4; 5; 6]]) = Ok y /\
    Reshape_forward (Reshape_init [2; 3] true) y = Ok z /\
    tensor_eq z (of_list2 0 [[1; 2; 3]; [4; 5; 6]]).
Proof.
  assert (Hy : exists y, Reshape_forward (Reshape_init [3; 2] true)
                           (of_list2 0 [[1; 2; 3]; [4; 5; 6]]) = Ok y)
    by (eexists; reflexivity).
  destruct Hy as [y Hy]. exists y.
  destruct (Reshape_round_trip [3; 2] (of_list2 0 [[1; 2; 3]; [4; 5; 6]]) y) as [z Hz].
  - repeat constructor; cbn; lia.
  - assumption.
  - exists z. split; [assumption|exact Hz].
Defined.

Lemma Reshape_forward_keeps_examples_witness :
  exists y yb,
    Reshape_forward (Reshape_init [4] false)
      (of_list3 0 [[[1; 2]; [3; 4]]; [[5; 6]; [7; 8]]]) = Ok y /\
    Reshape_forward (Reshape_init [4] true)
      (select0 1 (of_list3 0 [[[1; 2]; [3; 4]]; [[5; 6]; [7; 8]]])) = Ok yb /\
    size y = 2 :: size yb /\
    forall idx, in_bounds (size yb) idx = true -> get y (1 :: idx) = get yb idx.
Proof.
  assert (Hy : exists y, Reshape_forward (Reshape_init [4] false)
                           (of_list3 0 [[[1; 2]; [3; 4]]; [[5; 6]; [7; 8]]]) = Ok y)
    by (eexists; reflexivity).
  destruct Hy as [y Hy]. exists y.
  destruct (Reshape_forward_keeps_examples [4]
              (of_list3 0 [[[1; 2]; [3; 4]]; [[5; 6]; [7; 8]]]) y 2 [2; 2] 1) as [yb Hyb].
  - repeat constructor; cbn; lia.
  - reflexivity.
  - lia.
  - assumption.
  - exists yb. split; [assumption|exact Hyb].
Defined.

Lemma Flatten_forward_keeps_order_witness :
  exists y,
    Flatten_forward (Flatten_init 0 1) (of_list3 0 [[[1; 2]; [3; 4]]; [[5; 6]; [7; 8]]])
    = Ok y /\
    valid_size (size y) /\
    numel y = numel (of_list3 0 [[[1; 2]; [3; 4]]; [[5; 6]; [7; 8]]]) /\
    to_list y = to_list (of_list3 0 [[[1; 2]; [3; 4]]; [[5; 6]; [7; 8]]]).
Proof.
  assert (Hy : exists y, Flatten_forward (Flatten_init 0 1)
                           (of_list3 0 [[[1; 2]; [3; 4]]; [[5; 6]; [7; 8]]]) = Ok y)
    by (eexists; reflexivity).
  destruct Hy as [y Hy]. exists y. split; [assumption|].
  apply (Flatten_forward_keeps_order (Flatten_init 0 1)
           (of_list3 0 [[[1; 2]; [3; 4]]; [[5; 6]; [7; 8]]]) y).
  - repeat constructor; cbn; lia.
  - assumption.
Defined.

Lemma Flatten_default_witness :
  exists y,
    Flatten_forward (Flatten_init 1 (-1))
      (of_list3 0 [[[1; 2]; [3; 4]]; [[5; 6]; [7; 8]]]) = Ok y /\
    size y = [2; prod [2; 2]] /\
    forall b idx, 0 <= b < 2 -> in_bounds [2; 2] idx = true ->
      get y [b; ravel [2; 2] idx]
      = get (of_list3 0 [[[1; 2]; [3; 4]]; [[5; 6]; [7; 8]]]) (b :: idx).
Proof.
  apply (Flatten_default (of_list3 0 [[[1; 2]; [3; 4]]; [[5; 6]; [7; 8]]])).
  repeat constructor; cbn; lia.
Defined.

Lemma Transpose_forward_involutive_witness :
  exists y,
    Transpose_forward (Transpose_init 0 (-1)) (of_list2 0 [[1; 2; 3]; [4; 5; 6]]) = Ok y /\
    (exists z, Transpose_forward (Transpose_init 0 (-1)) y = Ok z /\
               tensor_eq z (of_list2 0 [[1; 2; 3]; [4; 5; 6]])) /\
    (exists y', Transpose_forward (Transpose_init (-1) 0)
                  (of_list2 0 [[1; 2; 3]; [4; 5; 6]]) = Ok y' /\ tensor_eq y' y).
Proof.
  assert (Hy : exists y, Transpose_forward (Transpose_init 0 (-1))
                           (of_list2 0 [[1; 2; 3]; [4; 5; 6]]) = Ok y)
    by (eexists; reflexivity).
  destruct Hy as [y Hy]. exists y. split; [assumption|].
  exact (Transpose_forward_involutive (Transpose_init 0 (-1))
           (of_list2 0 [[1; 2; 3]; [4; 5; 6]]) y Hy).
Defined.

Lemma Permute_compose_witness :
  exists y z z',
    module_forward (Permute [0; 2; 1]%nat)
      (of_list3 0 [[[1; 2]; [3; 4]]; [[5; 6]; [7; 8]]]) = Ok y /\
    module_forward (Permute [2; 0; 1]%nat) y = Ok z /\
    module_forward (Permute [1; 0; 2]%nat)
      (of_list3 0 [[[1; 2]; [3; 4]]; [[5; 6]; [7; 8]]]) = Ok z' /\
    tensor_eq z' z.
Proof.
  assert (Hy : exists y, module_forward (Permute [0; 2; 1]%nat)
                           (of_list3 0 [[[1; 2]; [3; 4]]; [[5; 6]; [7; 8]]]) = Ok y)
    by (eexists; reflexivity).
  destruct Hy as [y Hy]. exists y.
  assert (Hz : exists z, module_forward (Permute [2; 0; 1]%nat) y = Ok z).
  { cbn in Hy. injection Hy as <-. eexists. reflexivity. }
  destruct Hz as [z Hz]. exists z.
  destruct (Permute_compose (R := Z) [0; 2; 1]%nat [2; 0; 1]%nat
              (of_list3 0 [[[1; 2]; [3; 4]]; [[5; 6]; [7; 8]]]) y z Hy Hz) as [z' [Hz' He]].
  exists z'. repeat split; try assumption; apply He.
Defined.


Lemma GlobalAvgPool1d_masked_keepdim_witness :
  exists y,
    GlobalAvgPool1d_forward (GlobalAvgPool1d_init 1 true)
      (of_list3 0 [[[2]; [4]]; [[6]; [8]]]) (Some (of_list3 0 [[[1]; [1]]; [[1]; [0]]]))
    = Ok y /\
    size y = [2; 2; 1] /\
    forall i j k, 0 <= i < 2 -> 0 <= j < 2 -> 0 <= k < 1 ->
      get y [i; j; k]
      = rdiv (rsum (map (fun s => rmul (get (of_list3 0 [[[2]; [4]]; [[6]; [8]]]) [i; s; k])
                                    (get (of_list3 0 [[[1]; [1]]; [[1]; [0]]]) [i; s; k]))
                        (zrange 2)))
             (rofZ (zlen (filter rnonzero
                            (map (fun s => get (of_list3 0 [[[1]; [1]]; [[1]; [0]]]) [j; s; k])
                                 (zrange 2))))).
Proof.
  apply (GlobalAvgPool1d_masked_keepdim (R := Z)
           (of_list3 0 [[[2]; [4]]; [[6]; [8]]]) (of_list3 0 [[[1]; [1]]; [[1]; [0]]])
           2 2 1); reflexivity.
Defined.

Lemma SwitchLinear_forward_negative_indices_witness :
  SwitchLinear_forward switch_demo switch_input [-1; 0; -2]
  = SwitchLinear_forward switch_demo switch_input
      (map (fun i => if i <? 0 then i + zlen (experts switch_demo) else i) [-1; 0; -2]).
Proof.
  apply (SwitchLinear_forward_negative_indices (R := Z) switch_demo switch_input [-1; 0; -2]).
  change (zlen (experts switch_demo)) with 2.
  repeat (apply Forall_cons; [lia|]). apply Forall_nil.
Defined.

Lemma SwitchLinear_forward_single_example_witness :
  exists out e w b,
    SwitchLinear_forward switch_demo (of_list2 0 [[1; 1]]) [1; 0; 1] = Ok out /\
    size out = [3; 2] /\
    py_getitem (experts switch_demo) (znth 0 [1; 0; 1] 2) = Ok e /\
    nnl_weight e = w /\ nnl_bias e = Some b /\
    forall k, 0 <= k < 2 ->
      get out [2; k]
      = radd (matmul_dot [1; 1; 2] [3; 2; 2] [2; 0; k]
                (map (fun c => get (of_list2 0 [[1; 1]]) [0; c]) (zrange 2))
                (map (fun c => get w [k; c]) (zrange 2)))
             (get b [k]).
Proof.
  apply (SwitchLinear_forward_single_example (R := Z) 2 2 2 demo_experts
           (of_list2 0 [[1; 1]]) [1; 0; 1] 3 2).
  - reflexivity.
  - reflexivity.
  - repeat constructor; lia.
  - lia.
Defined.

Lemma SwitchLinear_forward_batch_mismatch_witness :
  SwitchLinear_forward switch_demo switch_input [0; 1] = Raise RuntimeError.
Proof.
  apply (SwitchLinear_forward_batch_mismatch (R := Z) 2 2 2 demo_experts
           switch_input [0; 1] 3 2).
  - reflexivity.
  - reflexivity.
  - repeat constructor; lia.
  - lia.
  - lia.
  - lia.
  - lia.
Defined.

Lemma Embedding_padding_row_witness :
  exists e,
    Embedding_init 3 2 (Some (-1)) (get (of_list2 0 [[1; 2]; [3; 4]; [5; 6]])) = Ok e /\
    0 <= 2 < 3 /\
    emb_padding_idx e = Some 2 /\
    (forall j, get (emb_weight e) [2; j] = 0) /\
    forall input y idx j,
      Embedding_forward e input = Ok y ->
      get input idx = 2 -> get y (idx ++ [j]) = 0.
Proof.
  exact (Embedding_padding_row (R := Z) 3 2 (-1) (get (of_list2 0 [[1; 2]; [3; 4]; [5; 6]]))
           ltac:(lia)).
Defined.

Lemma Embedding_noise_reaches_padding_row_witness :
  exists e noise,
    Embedding_init 3 2 (Some (-1)) (get (of_list2 0 [[1; 2]; [3; 4]; [5; 6]])) = Ok e /\
    emb_noise (fst (Embedding_sample_synaptic_noise (sampler := ZSampler)
                      (Embedding_init_vn e 3) false 7)) = Some noise /\
    emb_training (fst (Embedding_sample_synaptic_noise (sampler := ZSampler)
                         (Embedding_init_vn e 3) false 7)) = true /\
    forall input y idx j,
      Embedding_forward (fst (Embedding_sample_synaptic_noise (sampler := ZSampler)
                                (Embedding_init_vn e 3) false 7)) input = Ok y ->
      get input idx = 2 -> 0 <= j < 2 ->
      get y (idx ++ [j]) = 0 + 3 * get noise [2; j].
Proof.
  assert (He : exists e, Embedding_init 3 2 (Some (-1))
                           (get (of_list2 0 [[1; 2]; [3; 4]; [5; 6]])) = Ok e)
    by (eexists; reflexivity).
  destruct He as [e He]. exists e.
  destruct (Embedding_noise_reaches_padding_row (R := Z) (sampler := ZSampler) 3 2 (-1)
              (get (of_list2 0 [[1; 2]; [3; 4]; [5; 6]])) e 3 false 7 ltac:(lia) He)
    as [noise Hn].
  exists noise. split; [assumption|exact Hn].
Defined.

Lemma Conv1d_output_length_witness :
  exists y L,
    Conv1d_forward dilated_same_layer (of_list3 0 [[[1; 2; 3; 4; 5; 6]]]) = Ok y /\
    spatial_size false (size (of_list3 0 [[[1; 2; 3; 4; 5; 6]]])) = [L] /\
    spatial_size false (size y) = [(L + (3 - 1) - 2 * (3 - 1) - 1) / 1 + 1].
Proof.
  assert (Hy : exists y, Conv1d_forward dilated_same_layer
                           (of_list3 0 [[[1; 2; 3; 4; 5; 6]]]) = Ok y)
    by (eexists; reflexivity).
  destruct Hy as [y Hy]. exists y.
  destruct (Conv1d_output_length (R := Z) 1 1 (Int 3) (Int 1) (Int 2) 1 true "zeros" "same"
              false ones zeros dilated_same_layer 3 1 2
              (of_list3 0 [[[1; 2; 3; 4; 5; 6]]]) y eq_refl eq_refl eq_refl eq_refl Hy)
    as [L HL].
  exists L. split; [assumption|exact HL].
Defined.

Example noise_without_magnitude_run :
  Linear_forward (fst (Linear_sample_synaptic_noise (sampler := ZSampler) demo_linear false 7))
    (of_list2 0 [[1; 1]]) = Raise TypeError /\
  Linear_forward
    (Linear_train (fst (Linear_sample_synaptic_noise (sampler := ZSampler) demo_linear false 7))
       false)
    (of_list2 0 [[1; 1]]) = Linear_forward demo_linear (of_list2 0 [[1; 1]]) /\
  (r <- LSTM_sample_synaptic_noise (sampler := ZSampler)
          (LSTM_init 1 1 2 false true demo_lstm_init) false 7 ;;
   LSTM_weight (fst r)) = Raise TypeError.
Proof. repeat split; reflexivity. Qed.

Example switch_index_run :
  SwitchLinear_forward switch_demo switch_input [0; 2; 1] = Raise IndexError /\
  SwitchLinear_forward switch_demo switch_input [0; -3; 1] = Raise IndexError /\
  observe (SwitchLinear_forward switch_demo switch_input [-1; 0; -2])
  = observe (SwitchLinear_forward switch_demo switch_input [1; 0; 0]) /\
  observe (SwitchLinear_forward switch_demo (of_list2 0 [[1; 1]]) [1; 0; 1])
  = Ok ([3; 2], [41; 55; 13; 27; 41; 55]).
Proof. repeat split; reflexivity. Qed.

Example reshape_run :
  observe (Reshape_forward (Reshape_init [3; -1] true) (of_list2 0 [[1; 2; 3]; [4; 5; 6]]))
  = Ok ([3; 2], [1; 2; 3; 4; 5; 6]) /\
  Reshape_forward (Reshape_init [4; -1] true) (of_list2 0 [[1; 2; 3]; [4; 5; 6]])
  = Raise RuntimeError /\
  Reshape_forward (Reshape_init [-1; -1] true) (of_list2 0 [[1; 2; 3]; [4; 5; 6]])
  = Raise RuntimeError /\
  observe (Reshape_forward (Reshape_init [-1] false)
             (of_list3 0 [[[1; 2]; [3; 4]]; [[5; 6]; [7; 8]]]))
  = Ok ([2; 4], [1; 2; 3; 4; 5; 6; 7; 8]) /\
  observe (Flatten_forward (Flatten_init 1 (-1))
             (of_list3 0 [[[1; 2]; [3; 4]]; [[5; 6]; [7; 8]]]))
  = Ok ([2; 4], [1; 2; 3; 4; 5; 6; 7; 8]) /\
  Flatten_forward (Flatten_init 1 (-1)) (of_list1 0 [1; 2; 3]) = Raise IndexError /\
  observe (Transpose_forward (Transpose_init 0 (-1)) (of_list2 0 [[1; 2; 3]; [4; 5; 6]]))
  = Ok ([3; 2], [1; 4; 2; 5; 3; 6]) /\
  observe (Unsqueeze_forward (Unsqueeze_init (-1)) (of_list2 0 [[1; 2; 3]; [4; 5; 6]]))
  = Ok ([2; 3; 1], [1; 2; 3; 4; 5; 6]).
Proof. repeat split; reflexivity. Qed.

Example pooling_run :
  observe (GlobalMaxPool2d_forward (GlobalMaxPool2d_init [2; 3]%nat false)
             (mkTensor [1; 1; 2; 2]
                (fun idx => znth 0 [3; 9; 4; 1] (2 * nth 2 idx 0 + nth 3 idx 0))) false)
  = Ok ([1; 1], [9]) /\
  observe (GlobalAvgPool1d_forward (GlobalAvgPool1d_init 1 true)
             (of_list3 0 [[[2]; [4]]; [[6]; [8]]])
             (Some (of_list3 0 [[[1]; [1]]; [[1]; [0]]])))
  = Ok ([2; 2; 1], [3; 6; 3; 6]) /\
  observe (GlobalAvgPool1d_forward (GlobalAvgPool1d_init 1 false)
             (of_list3 0 [[[2]; [4]]; [[6]; [8]]])
             (Some (of_list3 0 [[[1]; [1]]; [[1]; [0]]])))
  = Ok ([2; 1], [3; 6]).
Proof. repeat split; reflexivity. Qed.
